(** * terminaltexteffects: the terminal canvas and character registry

    A shallow embedding of [terminaltexteffects/engine/terminal.py]
    (classes [Canvas] and [Terminal]) together with the properties the
    specification states about them.

    Python [int] is unbounded and is modelled by [Z]; [str] is modelled by
    [string], a character being a code point below 256; [list] by [list];
    [dict[Coord, EffectCharacter]] by [gmap Coord EffectCharacter].
    A method that assigns attributes of [self] takes the terminal and
    returns the new one beside its result. An [EffectCharacter] is held by
    value in the lists and in the map that refer to it: the methods
    modelled here do not change a character after they created it. The
    [random] module is modelled by explicit draws handed to the functions
    that consume them, the host's terminal size by an argument of the
    constructor, and a [while] loop by a recursion on fuel whose exhaustion
    is the outcome [Diverged]. *)

From Stdlib Require Import ZArith List Ascii String Lia Permutation Sorted.
From stdpp Require Import base decidable countable gmap list strings.

Local Open Scope Z_scope.

(** ** Outcomes of Python code: a value, an exception, or no answer *)

Inductive exn : Type :=
| ValueError
| IndexError.

Inductive outcome (A : Type) : Type :=
| Returned (a : A)
| Raised (e : exn)
| Diverged.

Arguments Returned {A} a.
Arguments Raised {A} e.
Arguments Diverged {A}.

Definition obind {A B : Type} (m : outcome A) (k : A -> outcome B) : outcome B :=
  match m with
  | Returned a => k a
  | Raised e => Raised e
  | Diverged => Diverged
  end.

Notation "'let!' x ':=' m 'in' k" := (obind m (fun x => k))
  (at level 10, x pattern, m at level 100, k at level 200).

(** ** Python built-ins used by the module *)

Module Py.

(** [range(a, b)] *)
Definition range (a b : Z) : list Z :=
  map (fun i : nat => a + Z.of_nat i) (seq 0 (Z.to_nat (b - a))).

(** [max(xs)]: raises [ValueError] on an empty sequence. *)
Definition max (xs : list Z) : outcome Z :=
  match xs with
  | [] => Raised ValueError
  | x :: rest => Returned (fold_left Z.max rest x)
  end.

(** [random.randint(a, b)]: [ValueError] on an empty range, otherwise the
    value drawn by the generator, which lies in [a..b]. *)
Definition randint (a b : Z) (draw : Z) : outcome Z :=
  if b <? a then Raised ValueError else Returned draw.

(** [random.choice(xs)]: the item at the index drawn by the generator,
    which lies below [len(xs)]; [IndexError] when there is none. *)
Definition choice {A : Type} (xs : list A) (draw : nat) : outcome A :=
  match nth_error xs draw with
  | Some x => Returned x
  | None => Raised IndexError
  end.

(** *** Sequences *)

(** [xs.pop(0)] *)
Definition pop_first {A : Type} (xs : list A) : outcome (A * list A) :=
  match xs with
  | [] => Raised IndexError
  | x :: rest => Returned (x, rest)
  end.

(** [xs.pop(-1)] *)
Definition pop_last {A : Type} (xs : list A) : outcome (A * list A) :=
  match List.rev xs with
  | [] => Raised IndexError
  | x :: rest => Returned (x, List.rev rest)
  end.

(** Tuples of two integers compare lexicographically. *)
Definition pair_leb (k1 k2 : Z * Z) : bool :=
  (k1.1 <? k2.1) || ((k1.1 =? k2.1) && (k1.2 <=? k2.2)).

(** [xs.sort(key=key)] and [sorted(xs, key=key)]: a stable sort, an
    element stays behind the elements of equal key that preceded it. *)
Fixpoint insert_by {A K : Type} (leb : K -> K -> bool) (key : A -> K)
    (x : A) (sorted : list A) : list A :=
  match sorted with
  | [] => [x]
  | y :: rest =>
      if leb (key x) (key y) then x :: y :: rest
      else y :: insert_by leb key x rest
  end.

Definition sort_by {A K : Type} (leb : K -> K -> bool) (key : A -> K)
    (xs : list A) : list A :=
  fold_right (insert_by leb key) [] xs.

(** [random.shuffle(xs)]: the generator picks a permutation of the
    indices, [order], and the list is rearranged along it. *)
Definition shuffle {A : Type} (xs : list A) (order : list nat) : list A :=
  omap (fun i => nth_error xs i) order.

(** *** Strings *)

Definition TAB : ascii := ascii_of_nat 9.
Definition LF : ascii := ascii_of_nat 10.
Definition CR : ascii := ascii_of_nat 13.
Definition SPACE : ascii := ascii_of_nat 32.

Definition len (s : string) : Z := Z.of_nat (String.length s).

(** [sep * n] for a string [sep]: empty when [n <= 0]. *)
Definition repeat_str (s : string) (n : Z) : string :=
  String.concat "" (repeat s (Z.to_nat n)).

(** [s.replace(c, by)] for a one-character [c]. *)
Fixpoint replace_char (c : ascii) (by_ : string) (s : string) : string :=
  match s with
  | EmptyString => EmptyString
  | String x rest =>
      if Ascii.eqb x c then by_ +:+ replace_char c by_ rest
      else String x (replace_char c by_ rest)
  end.

(** The line boundaries of [str.splitlines] among the code points below
    256: LF, VT, FF, CR, FS, GS, RS and NEL; CR LF counts as one. *)
Definition is_line_boundary (c : ascii) : bool :=
  let n := nat_of_ascii c in
  ((10 <=? n) && (n <=? 13) || (28 <=? n) && (n <=? 30) || (n =? 133))%nat.

(** [str.isspace] on one code point below 256. *)
Definition isspace (c : ascii) : bool :=
  let n := nat_of_ascii c in
  ((9 <=? n) && (n <=? 13) || (28 <=? n) && (n <=? 32) || (n =? 133) || (n =? 160))%nat.

Fixpoint splitlines_from (cur : string) (s : string) : list string :=
  match s with
  | EmptyString => if decide (cur = EmptyString) then [] else [cur]
  | String c rest =>
      if is_line_boundary c then
        cur :: splitlines_from EmptyString
                 (match rest with
                  | String c2 rest2 =>
                      if Ascii.eqb c CR && Ascii.eqb c2 LF then rest2 else rest
                  | EmptyString => rest
                  end)
      else splitlines_from (cur +:+ String c EmptyString) rest
  end.

(** [s.splitlines()] *)
Definition splitlines (s : string) : list string := splitlines_from EmptyString s.

Fixpoint lstrip (s : string) : string :=
  match s with
  | EmptyString => EmptyString
  | String c rest => if isspace c then lstrip rest else s
  end.

Definition str_rev (s : string) : string :=
  string_of_list_ascii (List.rev (list_ascii_of_string s)).

(** [s.strip()] *)
Definition strip (s : string) : string := str_rev (lstrip (str_rev (lstrip s))).

(** The position a slice bound [i] denotes in a sequence of [n] items:
    negative bounds count from the end, and the result is clipped to
    [0..n]. *)
Definition slice_bound (n : nat) (i : Z) : nat :=
  let i := if i <? 0 then i + Z.of_nat n else i in
  Z.to_nat (Z.min (Z.max i 0) (Z.of_nat n)).

Fixpoint str_drop (n : nat) (s : string) : string :=
  match n, s with
  | O, _ => s
  | S n', String _ rest => str_drop n' rest
  | S _, EmptyString => EmptyString
  end.

Fixpoint str_take (n : nat) (s : string) : string :=
  match n, s with
  | O, _ => EmptyString
  | S n', String c rest => String c (str_take n' rest)
  | S _, EmptyString => EmptyString
  end.

(** [s[:i]] *)
Definition slice_to (i : Z) (s : string) : string :=
  str_take (slice_bound (String.length s) i) s.

(** [s[i:]] *)
Definition slice_from (i : Z) (s : string) : string :=
  str_drop (slice_bound (String.length s) i) s.

(** [xs[:i]] and [xs[i:]] for a list [xs] *)
Definition list_slice_to {A : Type} (i : Z) (xs : list A) : list A :=
  take (slice_bound (length xs) i) xs.

Definition list_slice_from {A : Type} (i : Z) (xs : list A) : list A :=
  drop (slice_bound (length xs) i) xs.

(** [sep.join(xs)] *)
Definition join (sep : string) (xs : list string) : string := String.concat sep xs.

End Py.

(** ** Coord ([utils/geometry.py]): an immutable pair, equal by value *)

Record Coord : Type := mkCoord { column : Z; row : Z }.

#[global] Instance Coord_eq_dec : EqDecision Coord.
Proof. solve_decision. Defined.

#[global] Instance Coord_countable : Countable Coord.
Proof.
  refine (inj_countable' (fun c => (column c, row c))
                         (fun p => mkCoord p.1 p.2) _).
  intros []. reflexivity.
Defined.

(** ** Canvas *)

Module Canvas.

Record t : Type := mk {
  top : Z;
  right : Z;
  bottom : Z;
  left : Z;
  center_row : Z;
  center_column : Z;
  center : Coord
}.

(** The dataclass constructor followed by [__post_init__]. *)
Definition init (top right bottom left : Z) : t :=
  let center_row := Z.max (top / 2) 1 in
  let center_column := Z.max (right / 2) 1 in
  {| top := top; right := right; bottom := bottom; left := left;
     center_row := center_row; center_column := center_column;
     center := mkCoord center_column center_row |}.

(** [Canvas(top, right)]: [bottom] and [left] take their default, 1. *)
Definition init_default (top right : Z) : t := init top right 1 1.

Definition coord_is_in_canvas (self : t) (coord : Coord) : bool :=
  (left self <=? column coord) && (column coord <=? right self)
  && (bottom self <=? row coord) && (row coord <=? top self).

Definition random_column (self : t) (draw : Z) : outcome Z :=
  Py.randint 1 (right self) draw.

Definition random_row (self : t) (draw : Z) : outcome Z :=
  Py.randint 1 (top self) draw.

(** What the generator hands out during one call of [random_coord], in the
    order the call consumes it. *)
Record draws : Type := mkDraws {
  draw_column_1 : Z;
  draw_column_2 : Z;
  draw_row_1 : Z;
  draw_row_2 : Z;
  draw_choice : nat
}.

(** The draws respect the contract of [randint] and [choice]. *)
Definition draws_in_range (self : t) (d : draws) : Prop :=
  1 <= draw_column_1 d <= right self /\
  1 <= draw_column_2 d <= right self /\
  1 <= draw_row_1 d <= top self /\
  1 <= draw_row_2 d <= top self /\
  (draw_choice d < 4)%nat.

Definition random_coord (self : t) (outside_scope : bool) (d : draws) : outcome Coord :=
  if outside_scope then
    let! c1 := random_column self (draw_column_1 d) in
    let random_coord_above := mkCoord c1 (top self + 1) in
    let! c2 := random_column self (draw_column_2 d) in
    let random_coord_below := mkCoord c2 (-1) in
    let! r1 := random_row self (draw_row_1 d) in
    let random_coord_left := mkCoord (-1) r1 in
    let! r2 := random_row self (draw_row_2 d) in
    let random_coord_right := mkCoord (right self + 1) r2 in
    Py.choice [random_coord_above; random_coord_below;
               random_coord_left; random_coord_right] (draw_choice d)
  else
    let! c := random_column self (draw_column_1 d) in
    let! r := random_row self (draw_row_1 d) in
    Returned (mkCoord c r).

End Canvas.

(** ** EffectCharacter *)

Module EffectCharacter.

(** Modelled from the spec: the [EffectCharacter] class
    ([engine/base_character.py]), which is not among the sources. The
    record holds what the specification's data model lists: a stable
    identity, the display symbol, the fixed input coordinate, the current
    coordinate driven by motion, the layer (0 at creation), the visibility
    flag, and the two colour flags the terminal sets on [animation]. The
    current coordinate starts at the input coordinate. *)
Record t : Type := mk {
  character_id : Z;
  symbol : string;
  input_coord : Coord;
  current_coord : Coord;
  layer : Z;
  is_visible : bool;
  use_xterm_colors : bool;
  no_color : bool
}.

(** [EffectCharacter(character_id, symbol, input_column, input_row)] *)
Definition init (character_id : Z) (symbol : string) (input_column input_row : Z) : t :=
  {| character_id := character_id; symbol := symbol;
     input_coord := mkCoord input_column input_row;
     current_coord := mkCoord input_column input_row;
     layer := 0; is_visible := false;
     use_xterm_colors := false; no_color := false |}.

(** [character.animation.use_xterm_colors = x; character.animation.no_color = n] *)
Definition set_color_flags (x n : bool) (c : t) : t :=
  {| character_id := character_id c; symbol := symbol c;
     input_coord := input_coord c; current_coord := current_coord c;
     layer := layer c; is_visible := is_visible c;
     use_xterm_colors := x; no_color := n |}.

(** [character._is_visible = v] *)
Definition set_is_visible (v : bool) (c : t) : t :=
  {| character_id := character_id c; symbol := symbol c;
     input_coord := input_coord c; current_coord := current_coord c;
     layer := layer c; is_visible := v;
     use_xterm_colors := use_xterm_colors c; no_color := no_color c |}.

End EffectCharacter.

(** ** TerminalConfig *)

Module TerminalConfig.

(** [frame_rate] only drives the sleep between two prints and is left
    out. *)
Record t : Type := mk {
  tab_width : Z;
  xterm_colors : bool;
  no_color : bool;
  wrap_text : bool;
  canvas_width : Z;
  canvas_height : Z;
  ignore_terminal_dimensions : bool
}.

(** [TerminalConfig()] *)
Definition default : t :=
  {| tab_width := 4; xterm_colors := false; no_color := false;
     wrap_text := false; canvas_width := 0; canvas_height := 0;
     ignore_terminal_dimensions := false |}.

End TerminalConfig.

(** ** Terminal *)

Module Terminal.

Inductive CharacterGroup : Type :=
| COLUMN_LEFT_TO_RIGHT
| COLUMN_RIGHT_TO_LEFT
| ROW_TOP_TO_BOTTOM
| ROW_BOTTOM_TO_TOP
| DIAGONAL_TOP_LEFT_TO_BOTTOM_RIGHT
| DIAGONAL_BOTTOM_LEFT_TO_TOP_RIGHT
| DIAGONAL_TOP_RIGHT_TO_BOTTOM_LEFT
| DIAGONAL_BOTTOM_RIGHT_TO_TOP_LEFT
| CENTER_TO_OUTSIDE_DIAMONDS
| OUTSIDE_TO_CENTER_DIAMONDS.

Inductive CharacterSort : Type :=
| RANDOM
| TOP_TO_BOTTOM_LEFT_TO_RIGHT
| TOP_TO_BOTTOM_RIGHT_TO_LEFT
| BOTTOM_TO_TOP_LEFT_TO_RIGHT
| BOTTOM_TO_TOP_RIGHT_TO_LEFT
| OUTSIDE_ROW_TO_MIDDLE
| MIDDLE_ROW_TO_OUTSIDE.

#[global] Instance CharacterGroup_eq_dec : EqDecision CharacterGroup.
Proof. solve_decision. Defined.

#[global] Instance CharacterSort_eq_dec : EqDecision CharacterSort.
Proof. solve_decision. Defined.

(** What a caller can pass where a [CharacterGroup] is expected: Python
    does not check the annotation. *)
Inductive value : Type :=
| VGroup (g : CharacterGroup)
| VSort (s : CharacterSort)
| VNone
| VInt (n : Z)
| VStr (s : string).

(** The attributes of a [Terminal]. [_frame_rate] and [_last_time_printed]
    belong to the output timing and are left out. The characters of the
    visible set are listed in the order the set iterates over them. *)
Record t : Type := mk {
  config : TerminalConfig.t;
  _input_data : string;
  detected_terminal_dimensions : Z * Z;
  _width : Z;
  _height : Z;
  _next_character_id : Z;
  _input_characters : list EffectCharacter.t;
  _added_characters : list EffectCharacter.t;
  _input_width : Z;
  _input_height : Z;
  canvas : Canvas.t;
  character_by_input_coord : gmap Coord EffectCharacter.t;
  _fill_characters : list EffectCharacter.t;
  _visible_characters : list EffectCharacter.t;
  terminal_state : list string
}.

(** *** Attribute assignment *)

Definition set__input_data (v : string) (self : t) : t :=
  mk (config self) v (detected_terminal_dimensions self) (_width self) (_height self)
     (_next_character_id self) (_input_characters self) (_added_characters self)
     (_input_width self) (_input_height self) (canvas self)
     (character_by_input_coord self) (_fill_characters self)
     (_visible_characters self) (terminal_state self).

Definition set__next_character_id (v : Z) (self : t) : t :=
  mk (config self) (_input_data self) (detected_terminal_dimensions self) (_width self)
     (_height self) v (_input_characters self) (_added_characters self)
     (_input_width self) (_input_height self) (canvas self)
     (character_by_input_coord self) (_fill_characters self)
     (_visible_characters self) (terminal_state self).

Definition set__input_characters (v : list EffectCharacter.t) (self : t) : t :=
  mk (config self) (_input_data self) (detected_terminal_dimensions self) (_width self)
     (_height self) (_next_character_id self) v (_added_characters self)
     (_input_width self) (_input_height self) (canvas self)
     (character_by_input_coord self) (_fill_characters self)
     (_visible_characters self) (terminal_state self).

Definition set__added_characters (v : list EffectCharacter.t) (self : t) : t :=
  mk (config self) (_input_data self) (detected_terminal_dimensions self) (_width self)
     (_height self) (_next_character_id self) (_input_characters self) v
     (_input_width self) (_input_height self) (canvas self)
     (character_by_input_coord self) (_fill_characters self)
     (_visible_characters self) (terminal_state self).

Definition set__input_width (v : Z) (self : t) : t :=
  mk (config self) (_input_data self) (detected_terminal_dimensions self) (_width self)
     (_height self) (_next_character_id self) (_input_characters self)
     (_added_characters self) v (_input_height self) (canvas self)
     (character_by_input_coord self) (_fill_characters self)
     (_visible_characters self) (terminal_state self).

Definition set__input_height (v : Z) (self : t) : t :=
  mk (config self) (_input_data self) (detected_terminal_dimensions self) (_width self)
     (_height self) (_next_character_id self) (_input_characters self)
     (_added_characters self) (_input_width self) v (canvas self)
     (character_by_input_coord self) (_fill_characters self)
     (_visible_characters self) (terminal_state self).

Definition set_canvas (v : Canvas.t) (self : t) : t :=
  mk (config self) (_input_data self) (detected_terminal_dimensions self) (_width self)
     (_height self) (_next_character_id self) (_input_characters self)
     (_added_characters self) (_input_width self) (_input_height self) v
     (character_by_input_coord self) (_fill_characters self)
     (_visible_characters self) (terminal_state self).

Definition set_character_by_input_coord (v : gmap Coord EffectCharacter.t) (self : t) : t :=
  mk (config self) (_input_data self) (detected_terminal_dimensions self) (_width self)
     (_height self) (_next_character_id self) (_input_characters self)
     (_added_characters self) (_input_width self) (_input_height self) (canvas self)
     v (_fill_characters self) (_visible_characters self) (terminal_state self).

Definition set__fill_characters (v : list EffectCharacter.t) (self : t) : t :=
  mk (config self) (_input_data self) (detected_terminal_dimensions self) (_width self)
     (_height self) (_next_character_id self) (_input_characters self)
     (_added_characters self) (_input_width self) (_input_height self) (canvas self)
     (character_by_input_coord self) v (_visible_characters self) (terminal_state self).

Definition set__visible_characters (v : list EffectCharacter.t) (self : t) : t :=
  mk (config self) (_input_data self) (detected_terminal_dimensions self) (_width self)
     (_height self) (_next_character_id self) (_input_characters self)
     (_added_characters self) (_input_width self) (_input_height self) (canvas self)
     (character_by_input_coord self) (_fill_characters self) v (terminal_state self).

Definition set_terminal_state (v : list string) (self : t) : t :=
  mk (config self) (_input_data self) (detected_terminal_dimensions self) (_width self)
     (_height self) (_next_character_id self) (_input_characters self)
     (_added_characters self) (_input_width self) (_input_height self) (canvas self)
     (character_by_input_coord self) (_fill_characters self)
     (_visible_characters self) v.

(** *** _wrap_lines *)

(** The [while] loop over one line; every iteration costs one unit of
    [fuel], and the loop gives no answer when the fuel runs out. *)
Fixpoint wrap_while (fuel : nat) (width : Z) (line : string) : outcome (list string) :=
  if width <? Py.len line then
    match fuel with
    | O => Diverged
    | S fuel' =>
        let! wrapped := wrap_while fuel' width (Py.slice_from width line) in
        Returned (Py.slice_to width line :: wrapped)
    end
  else Returned [line].

(** A line of [n] characters leaves the loop after at most [n] iterations
    when the width is positive, and never otherwise (see [wrap_while_returns]
    and [wrap_while_diverges]). *)
Fixpoint _wrap_lines (self : t) (lines : list string) : outcome (list string) :=
  match lines with
  | [] => Returned []
  | line :: rest =>
      let! wrapped := wrap_while (String.length line) (_width self) line in
      let! wrapped_rest := _wrap_lines self rest in
      Returned (wrapped ++ wrapped_rest)
  end.

(** *** _decompose_input *)

(** The inner loop, over the symbols of one line from [column] on; [y] is
    the row the line is given, [input_height - row]. *)
Fixpoint decompose_line (use_xterm_colors no_color : bool) (y : Z) (column : Z)
    (line : string) (next_character_id : Z) : list EffectCharacter.t * Z :=
  match line with
  | EmptyString => ([], next_character_id)
  | String symbol rest =>
      if Ascii.eqb symbol Py.SPACE then
        decompose_line use_xterm_colors no_color y (column + 1) rest next_character_id
      else
        let character :=
          EffectCharacter.set_color_flags use_xterm_colors no_color
            (EffectCharacter.init next_character_id (String symbol EmptyString) (column + 1) y) in
        let '(characters, next) :=
          decompose_line use_xterm_colors no_color y (column + 1) rest (next_character_id + 1) in
        (character :: characters, next)
  end.

(** The outer loop, over the lines from index [row] on. *)
Fixpoint decompose_lines (use_xterm_colors no_color : bool) (input_height : Z) (row : Z)
    (lines : list string) (next_character_id : Z) : list EffectCharacter.t * Z :=
  match lines with
  | [] => ([], next_character_id)
  | line :: rest =>
      let '(characters, next) :=
        decompose_line use_xterm_colors no_color (input_height - row) 0 line next_character_id in
      let '(characters_rest, next_rest) :=
        decompose_lines use_xterm_colors no_color input_height (row + 1) rest next in
      (characters ++ characters_rest, next_rest)
  end.

(** The lines the loops run over: wrapped, or cut at the width. *)
Definition format_lines (self : t) : outcome (list string) :=
  let lines := Py.splitlines (_input_data self) in
  if TerminalConfig.wrap_text (config self) then _wrap_lines self lines
  else Returned (map (Py.slice_to (_width self)) lines).

(** A blank input gives way to the placeholder. *)
Definition substitute_blank_input (self : t) : t :=
  if decide (Py.strip (_input_data self) = EmptyString)
  then set__input_data "No Input." self else self.

Definition _decompose_input (use_xterm_colors no_color : bool) (self : t)
    : outcome (list EffectCharacter.t * t) :=
  let self := substitute_blank_input self in
  let! formatted_lines := format_lines self in
  let input_height := Z.of_nat (length formatted_lines) in
  let '(input_characters, next) :=
    decompose_lines use_xterm_colors no_color input_height 0 formatted_lines
      (_next_character_id self) in
  Returned (input_characters, set__next_character_id next self).

(** *** _make_fill_characters *)

(** The state the two loops thread: the list built so far, the coordinate
    map and the next free id. *)
Definition fill_state : Type :=
  (list EffectCharacter.t * gmap Coord EffectCharacter.t * Z)%type.

(** The body of the inner loop. *)
Definition fill_cell (cfg : TerminalConfig.t) (row column : Z) (st : fill_state) : fill_state :=
  let '(fill_characters, by_coord, next) := st in
  let coord := mkCoord column row in
  match by_coord !! coord with
  | Some _ => st
  | None =>
      let fill_char :=
        EffectCharacter.set_color_flags
          (TerminalConfig.xterm_colors cfg) (TerminalConfig.no_color cfg)
          (EffectCharacter.init next " " column row) in
      (fill_characters ++ [fill_char], <[coord := fill_char]> by_coord, next + 1)
  end.

Definition fill_row (cfg : TerminalConfig.t) (right : Z) (st : fill_state) (row : Z) : fill_state :=
  fold_left (fun st column => fill_cell cfg row column st) (Py.range 1 (right + 1)) st.

Definition fill_rows (cfg : TerminalConfig.t) (top right : Z) (st : fill_state) : fill_state :=
  fold_left (fill_row cfg right) (Py.range 1 (top + 1)) st.

Definition _make_fill_characters (self : t) : list EffectCharacter.t * t :=
  let '(fill_characters, by_coord, next) :=
    fill_rows (config self) (Canvas.top (canvas self)) (Canvas.right (canvas self))
      ([], character_by_input_coord self, _next_character_id self) in
  (fill_characters,
   set__next_character_id next (set_character_by_input_coord by_coord self)).

(** *** _update_terminal_state *)

(** The test [0 <= row < self.canvas.top and 0 <= column < self.canvas.right]
    on the zero-based [row] and [column] of a character. *)
Definition in_bounds (cv : Canvas.t) (row column : Z) : bool :=
  (0 <=? row) && (row <? Canvas.top cv) && (0 <=? column) && (column <? Canvas.right cv).

(** The body of the loop over the visible characters. *)
Definition place (cv : Canvas.t) (rows : list (list string)) (character : EffectCharacter.t)
    : list (list string) :=
  let row := row (EffectCharacter.current_coord character) - 1 in
  let column := column (EffectCharacter.current_coord character) - 1 in
  if in_bounds cv row column
  then alter (fun r => <[Z.to_nat column := EffectCharacter.symbol character]> r)
             (Z.to_nat row) rows
  else rows.

Definition _update_terminal_state (self : t) : t :=
  let cv := canvas self in
  let rows :=
    map (fun _ => map (fun _ => " ") (Py.range 0 (Canvas.right cv)))
        (Py.range 0 (Canvas.top cv)) in
  let rows :=
    fold_left (place cv) (Py.sort_by Z.leb EffectCharacter.layer (_visible_characters self))
      rows in
  let terminal_state := map (Py.join "") rows in
  set_terminal_state terminal_state self.

(** *** __init__ *)

(** The constructor up to [self._next_character_id = 0]. [detected] is
    what [_get_terminal_dimensions] reads from the host: the terminal size,
    or (80, 24) when it cannot be determined. The attributes assigned
    later hold placeholders until then. *)
Definition init_attributes (input_data : string) (config : option TerminalConfig.t)
    (detected : Z * Z) : outcome t :=
  let config := match config with None => TerminalConfig.default | Some c => c end in
  let input_data :=
    if decide (input_data = EmptyString) then "No Input." else input_data in
  let input_data :=
    Py.replace_char Py.TAB (Py.repeat_str " " (TerminalConfig.tab_width config)) input_data in
  let width := TerminalConfig.canvas_width config in
  let height := TerminalConfig.canvas_height config in
  let! (width, height) :=
    if TerminalConfig.ignore_terminal_dimensions config then
      let! width := Py.max (map Py.len (Py.splitlines input_data)) in
      Returned (width, Z.of_nat (length (Py.splitlines input_data)) + 1)
    else if (width =? 0) || (height =? 0) then
      Returned (if width =? 0 then detected.1 else width,
                if height =? 0 then detected.2 else height)
    else Returned (width, height) in
  Returned (mk config input_data detected width height 0 [] [] 0 0
               (Canvas.init_default 0 0) ∅ [] [] []).

(** The comprehension
    [{character.input_coord: character for character in characters}]: a
    later character takes the place of an earlier one at the same
    coordinate. *)
Definition index_by_input_coord (characters : list EffectCharacter.t)
    : gmap Coord EffectCharacter.t :=
  fold_left (fun by_coord character =>
               <[EffectCharacter.input_coord character := character]> by_coord)
            characters ∅.

(** The constructor from the assignment of [self._input_characters] on,
    [input_characters] being what [_decompose_input] returned. *)
Definition init_registry (input_characters : list EffectCharacter.t) (self : t) : outcome t :=
  let self := set__input_characters input_characters self in
  let self := set__added_characters [] self in
  let! input_width :=
    Py.max (map (fun character => column (EffectCharacter.input_coord character))
                (_input_characters self)) in
  let self := set__input_width input_width self in
  let! input_height :=
    Py.max (map (fun character => row (EffectCharacter.input_coord character))
                (_input_characters self)) in
  let self := set__input_height input_height self in
  let self :=
    set_canvas
      (Canvas.init_default (Z.min (Z.max (_height self) 1) (_input_height self))
                           (_input_width self)) self in
  let self :=
    set__input_characters
      (filter (fun character =>
                 row (EffectCharacter.input_coord character) <= Canvas.top (canvas self)
                 /\ column (EffectCharacter.input_coord character) <= Canvas.right (canvas self))
              (_input_characters self)) self in
  let self :=
    set_character_by_input_coord (index_by_input_coord (_input_characters self)) self in
  let '(fill_characters, self) := _make_fill_characters self in
  let self := set__fill_characters fill_characters self in
  let self := set__visible_characters [] self in
  Returned (_update_terminal_state self).

Definition init (input_data : string) (cfg : option TerminalConfig.t)
    (detected : Z * Z) : outcome t :=
  let! self := init_attributes input_data cfg detected in
  let! (input_characters, self) :=
    _decompose_input (TerminalConfig.xterm_colors (config self))
                     (TerminalConfig.no_color (config self)) self in
  init_registry input_characters self.

(** *** add_character *)

Definition add_character (symbol : string) (coord : Coord) (self : t) : EffectCharacter.t * t :=
  let character :=
    EffectCharacter.set_color_flags
      (TerminalConfig.xterm_colors (config self)) (TerminalConfig.no_color (config self))
      (EffectCharacter.init (_next_character_id self) symbol (column coord) (row coord)) in
  (character,
   set__next_character_id (_next_character_id self + 1)
     (set__added_characters (_added_characters self ++ [character]) self)).

(** A run of [add_character] calls, one per item of [calls]; the
    characters the calls return come back in the order of the calls. *)
Fixpoint add_characters (calls : list (string * Coord)) (self : t)
    : list EffectCharacter.t * t :=
  match calls with
  | [] => ([], self)
  | (symbol, coord) :: rest =>
      let '(character, self) := add_character symbol coord self in
      let '(characters, self) := add_characters rest self in
      (character :: characters, self)
  end.

(** *** get_formatted_output_string *)

Definition get_formatted_output_string (self : t) : string * t :=
  let self := _update_terminal_state self in
  let output_string := Py.join (String Py.LF EmptyString) (List.rev (terminal_state self)) in
  (output_string, self).

(** *** get_character_by_input_coord *)

Definition get_character_by_input_coord (coord : Coord) (self : t) : option EffectCharacter.t :=
  character_by_input_coord self !! coord.

(** *** get_characters *)

(** The list the two queries start from. *)
Definition requested_characters (input_characters fill_chars added_chars : bool) (self : t)
    : list EffectCharacter.t :=
  (if input_characters then _input_characters self else [])
  ++ (if fill_chars then _fill_characters self else [])
  ++ (if added_chars then _added_characters self else []).

(** The comprehension of the two row sorts: [n] iterations, iteration [i]
    pops the first item of what is left when [i] is even and the last one
    otherwise. *)
Fixpoint pop_alternately {A : Type} (n : nat) (i : Z) (all_characters : list A)
    : outcome (list A) :=
  match n with
  | O => Returned []
  | S n' =>
      let! (x, remaining) :=
        if i mod 2 =? 0 then Py.pop_first all_characters
        else Py.pop_last all_characters in
      let! rest := pop_alternately n' (i + 1) remaining in
      Returned (x :: rest)
  end.

Definition top_down_key (character : EffectCharacter.t) : Z * Z :=
  (- row (EffectCharacter.input_coord character),
   column (EffectCharacter.input_coord character)).

Definition bottom_up_key (character : EffectCharacter.t) : Z * Z :=
  (row (EffectCharacter.input_coord character),
   column (EffectCharacter.input_coord character)).

(** [order] is the permutation [random.shuffle] picks; only [RANDOM]
    looks at it. *)
Definition get_characters (input_characters fill_chars added_chars : bool)
    (sort : CharacterSort) (order : list nat) (self : t) : outcome (list EffectCharacter.t) :=
  let all_characters := requested_characters input_characters fill_chars added_chars self in
  let all_characters := Py.sort_by Py.pair_leb top_down_key all_characters in
  match sort with
  | RANDOM => Returned (Py.shuffle all_characters order)
  | TOP_TO_BOTTOM_LEFT_TO_RIGHT => Returned all_characters
  | BOTTOM_TO_TOP_RIGHT_TO_LEFT => Returned (List.rev all_characters)
  | BOTTOM_TO_TOP_LEFT_TO_RIGHT =>
      Returned (Py.sort_by Py.pair_leb bottom_up_key all_characters)
  | TOP_TO_BOTTOM_RIGHT_TO_LEFT =>
      Returned (List.rev (Py.sort_by Py.pair_leb bottom_up_key all_characters))
  | OUTSIDE_ROW_TO_MIDDLE =>
      pop_alternately (length all_characters) 0 all_characters
  | MIDDLE_ROW_TO_OUTSIDE =>
      let! all_characters := pop_alternately (length all_characters) 0 all_characters in
      Returned (List.rev all_characters)
  end.

(** *** get_characters_grouped *)

(** The loop shared by the column, row and diagonal groupings: one group
    per index, in the order of [indices], empty groups left out. *)
Fixpoint groups_by_index (key : EffectCharacter.t -> Z) (indices : list Z)
    (all_characters : list EffectCharacter.t) : list (list EffectCharacter.t) :=
  match indices with
  | [] => []
  | index :: rest =>
      let characters_in_group := filter (fun character => key character = index) all_characters in
      match characters_in_group with
      | [] => groups_by_index key rest all_characters
      | _ :: _ => characters_in_group :: groups_by_index key rest all_characters
      end
  end.

Definition column_of (character : EffectCharacter.t) : Z :=
  column (EffectCharacter.input_coord character).

Definition row_of (character : EffectCharacter.t) : Z :=
  row (EffectCharacter.input_coord character).

Definition distance_to_center (cv : Canvas.t) (character : EffectCharacter.t) : Z :=
  Z.abs (column_of character - column (Canvas.center cv))
  + Z.abs (row_of character - row (Canvas.center cv)).

(** The body of the loop filling [distance_map]. *)
Definition record_distance (cv : Canvas.t) (distance_map : gmap Z (list EffectCharacter.t))
    (character : EffectCharacter.t) : gmap Z (list EffectCharacter.t) :=
  let distance := distance_to_center cv character in
  let distance_map :=
    match distance_map !! distance with
    | None => <[distance := []]> distance_map
    | Some _ => distance_map
    end in
  alter (fun characters => characters ++ [character]) distance distance_map.

(** [sorted(distance_map.keys(), reverse=reverse)] *)
Definition sorted_keys (reverse : bool) (distance_map : gmap Z (list EffectCharacter.t)) : list Z :=
  Py.sort_by (if reverse then Z.geb else Z.leb) id (map fst (map_to_list distance_map)).

Definition groups_by_distance (cv : Canvas.t) (reverse : bool)
    (all_characters : list EffectCharacter.t) : list (list EffectCharacter.t) :=
  let distance_map := fold_left (record_distance cv) all_characters ∅ in
  map (fun distance => default [] (distance_map !! distance)) (sorted_keys reverse distance_map).

(** The method assigns no attribute; it hands back the terminal it was
    called on, so that this can be stated. *)
Definition get_characters_grouped (grouping : value)
    (input_characters fill_chars added_chars : bool) (self : t)
    : outcome (list (list EffectCharacter.t)) * t :=
  let all_characters := requested_characters input_characters fill_chars added_chars self in
  let all_characters := Py.sort_by Py.pair_leb bottom_up_key all_characters in
  let cv := canvas self in
  let columns := groups_by_index column_of (Py.range 0 (Canvas.right cv + 1)) all_characters in
  let rows := groups_by_index row_of (Py.range 0 (Canvas.top cv + 1)) all_characters in
  let diagonals_up :=
    groups_by_index (fun c => row_of c + column_of c)
      (Py.range 0 (Canvas.top cv + Canvas.right cv + 1)) all_characters in
  let diagonals_down :=
    groups_by_index (fun c => column_of c - row_of c)
      (Py.range (Canvas.left cv - Canvas.top cv) (Canvas.right cv - Canvas.bottom cv + 1))
      all_characters in
  let result :=
    match grouping with
    | VGroup COLUMN_LEFT_TO_RIGHT => Returned columns
    | VGroup COLUMN_RIGHT_TO_LEFT => Returned (List.rev columns)
    | VGroup ROW_BOTTOM_TO_TOP => Returned rows
    | VGroup ROW_TOP_TO_BOTTOM => Returned (List.rev rows)
    | VGroup DIAGONAL_BOTTOM_LEFT_TO_TOP_RIGHT => Returned diagonals_up
    | VGroup DIAGONAL_TOP_RIGHT_TO_BOTTOM_LEFT => Returned (List.rev diagonals_up)
    | VGroup DIAGONAL_TOP_LEFT_TO_BOTTOM_RIGHT => Returned diagonals_down
    | VGroup DIAGONAL_BOTTOM_RIGHT_TO_TOP_LEFT => Returned (List.rev diagonals_down)
    | VGroup CENTER_TO_OUTSIDE_DIAMONDS => Returned (groups_by_distance cv false all_characters)
    | VGroup OUTSIDE_TO_CENTER_DIAMONDS => Returned (groups_by_distance cv true all_characters)
    | _ => Raised ValueError
    end in
  (result, self).

(** *** set_character_visibility *)

(** A character is one object, held at the same time by the lists of the
    terminal, by the coordinate map and by the visible set: an assignment
    to one of its attributes shows through all of them.  The characters of
    a terminal are told apart by their id; [store character] puts the new
    state [character] wherever the character of that id is held. *)
Definition store_in_list (character : EffectCharacter.t)
    (characters : list EffectCharacter.t) : list EffectCharacter.t :=
  map (fun held =>
         if decide (EffectCharacter.character_id held
                    = EffectCharacter.character_id character)
         then character else held)
      characters.

Definition store (character : EffectCharacter.t) (self : t) : t :=
  let self := set__input_characters (store_in_list character (_input_characters self)) self in
  let self := set__added_characters (store_in_list character (_added_characters self)) self in
  let self := set__fill_characters (store_in_list character (_fill_characters self)) self in
  let self :=
    set_character_by_input_coord
      ((fun held =>
          if decide (EffectCharacter.character_id held
                     = EffectCharacter.character_id character)
          then character else held) <$> character_by_input_coord self) self in
  set__visible_characters (store_in_list character (_visible_characters self)) self.

(** [character] is the state of the character at the call.  The visible
    set holds a character once; the language does not fix the order a set
    is gone through in, and the list puts a new member last. *)
Definition set_character_visibility (character : EffectCharacter.t) (is_visible : bool)
    (self : t) : t :=
  let character := EffectCharacter.set_is_visible is_visible character in
  let self := store character self in
  if is_visible then
    if decide (EffectCharacter.character_id character
               ∈ map EffectCharacter.character_id (_visible_characters self))
    then self
    else set__visible_characters (_visible_characters self ++ [character]) self
  else
    set__visible_characters
      (filter (fun held => EffectCharacter.character_id held
                           <> EffectCharacter.character_id character)
              (_visible_characters self)) self.

End Terminal.

(** ** ColorShiftIterator ([effects/effect_colorshift.py]) *)

Module ColorShiftIterator.

(** The colours [build] gives the gradient scene of a character: the
    spectrum of the gradient, moved round by [shift_distance] when the
    gradient travels.  [shift_distance] is the integer the floating-point
    product [int(len(gradient.spectrum) * direction_index)] comes to. *)
Definition colors {Color : Type} (travel : bool) (shift_distance : Z) (spectrum : list Color)
    : list Color :=
  if travel then Py.list_slice_from shift_distance spectrum
                 ++ Py.list_slice_to shift_distance spectrum
  else spectrum.

(** [loop_tracker], called when the gradient scene of [character] is
    complete: the calls for the character are counted in
    [loop_tracker_map], and the result tells whether the scene is started
    again. *)
Definition loop_tracker (cycles : Z) (loop_tracker_map : gmap Z Z)
    (character : EffectCharacter.t) : gmap Z Z * bool :=
  let key := EffectCharacter.character_id character in
  let loop_tracker_map := <[key := default 0 (loop_tracker_map !! key) + 1]> loop_tracker_map in
  (loop_tracker_map,
   (cycles =? 0) || (default 0 (loop_tracker_map !! key) <? cycles)).

End ColorShiftIterator.

(** * Vocabulary of the statements *)

(** The glyph at line [i], position [j], both counted from 0. *)
Definition glyph_at (lines : list string) (i j : nat) : option ascii :=
  match lines !! i with
  | Some line => String.get j line
  | None => None
  end.

(** [character] stands for the glyph at line [i], position [j]: the glyph
    is not a space, the character shows it, and it sits at column [j + 1]
    of row [total_lines - i]. *)
Definition stands_for (lines : list string) (character : EffectCharacter.t) (i j : nat) : Prop :=
  exists glyph,
    glyph_at lines i j = Some glyph /\ glyph <> Py.SPACE /\
    EffectCharacter.symbol character = String glyph EmptyString /\
    EffectCharacter.input_coord character
      = mkCoord (Z.of_nat j + 1) (Z.of_nat (length lines) - Z.of_nat i).

(** How many glyphs of the lines are not spaces. *)
Definition non_space_count (lines : list string) : nat :=
  list_sum (map (fun line =>
                   length (List.filter (fun glyph => negb (Ascii.eqb glyph Py.SPACE))
                                       (list_ascii_of_string line))) lines).

(** The two-line input ["AB\nC"] of the specification's example. *)
Definition example_input : string := "AB" +:+ String Py.LF "C".

(** [n] consecutive ids from [first] on. *)
Definition ids_from (first : Z) (n : nat) : list Z :=
  map (fun k : nat => first + Z.of_nat k) (seq 0 n).

(** Where the item at position [k] of an alternating pop comes from when
    the iteration counter starts at [i]: from the front half of the [n]
    items when [k] and [i] have the same parity, from the back half
    otherwise. *)
Definition source_index (n : nat) (i : Z) (k : nat) : nat :=
  if Bool.eqb (Z.even i) (Nat.even k) then (k / 2)%nat else (n - 1 - k / 2)%nat.

(** What the loops of [_make_fill_characters] keep true of their state,
    started from the map [by_coord0] and the id [next0] on a canvas of
    [top] rows and [right] columns: the entries of [by_coord0] stay; every
    other entry is a fill character at its own coordinate; the fill
    characters are blanks inside the canvas, at cells [by_coord0] left
    free, no two at one cell, with consecutive ids from [next0] on; and
    the cells in [covered] are mapped. *)
Record fill_inv (top right : Z) (by_coord0 : gmap Coord EffectCharacter.t) (next0 : Z)
    (covered : Coord -> Prop) (st : Terminal.fill_state) : Prop := {
  fill_keeps : forall c ch, by_coord0 !! c = Some ch -> st.1.2 !! c = Some ch;
  fill_origin : forall c ch, st.1.2 !! c = Some ch ->
    by_coord0 !! c = Some ch \/
    (by_coord0 !! c = None /\ ch ∈ st.1.1 /\ EffectCharacter.input_coord ch = c);
  fill_mapped : forall ch, ch ∈ st.1.1 ->
    st.1.2 !! EffectCharacter.input_coord ch = Some ch /\
    by_coord0 !! EffectCharacter.input_coord ch = None /\
    EffectCharacter.symbol ch = " " /\
    1 <= column (EffectCharacter.input_coord ch) <= right /\
    1 <= row (EffectCharacter.input_coord ch) <= top;
  fill_ids : map EffectCharacter.character_id st.1.1 = ids_from next0 (length st.1.1);
  fill_next : st.2 = next0 + Z.of_nat (length st.1.1);
  fill_NoDup : NoDup (map EffectCharacter.input_coord st.1.1);
  fill_covered : forall c, covered c -> is_Some (st.1.2 !! c)
}.

(** The characters a terminal knows: input, fill and added ones. *)
Definition registry (t : Terminal.t) : list EffectCharacter.t :=
  Terminal._input_characters t ++ Terminal._fill_characters t
  ++ Terminal._added_characters t.

(** What the constructor's filter asks of an input character. *)
Definition fits (cv : Canvas.t) (ch : EffectCharacter.t) : Prop :=
  row (EffectCharacter.input_coord ch) <= Canvas.top cv /\
  column (EffectCharacter.input_coord ch) <= Canvas.right cv.

(** The characters a distance map holds. *)
Definition held (m : gmap Z (list EffectCharacter.t)) : list EffectCharacter.t :=
  concat (map snd (map_to_list m)).

(** The characters a grouping reaches: those whose column, row or diagonal
    is one of the indices its loop runs over; the diamonds reach every
    character. *)
Definition reached (g : Terminal.CharacterGroup) (cv : Canvas.t) (ch : EffectCharacter.t)
    : Prop :=
  match g with
  | Terminal.COLUMN_LEFT_TO_RIGHT | Terminal.COLUMN_RIGHT_TO_LEFT =>
      0 <= Terminal.column_of ch <= Canvas.right cv
  | Terminal.ROW_TOP_TO_BOTTOM | Terminal.ROW_BOTTOM_TO_TOP =>
      0 <= Terminal.row_of ch <= Canvas.top cv
  | Terminal.DIAGONAL_BOTTOM_LEFT_TO_TOP_RIGHT | Terminal.DIAGONAL_TOP_RIGHT_TO_BOTTOM_LEFT =>
      0 <= Terminal.row_of ch + Terminal.column_of ch <= Canvas.top cv + Canvas.right cv
  | Terminal.DIAGONAL_TOP_LEFT_TO_BOTTOM_RIGHT | Terminal.DIAGONAL_BOTTOM_RIGHT_TO_TOP_LEFT =>
      Canvas.left cv - Canvas.top cv <= Terminal.column_of ch - Terminal.row_of ch
        <= Canvas.right cv - Canvas.bottom cv
  | Terminal.CENTER_TO_OUTSIDE_DIAMONDS | Terminal.OUTSIDE_TO_CENTER_DIAMONDS => True
  end.

#[global] Instance reached_dec (g : Terminal.CharacterGroup) (cv : Canvas.t)
    (ch : EffectCharacter.t) : Decision (reached g cv ch).
Proof. destruct g; cbn; apply _. Defined.

(** [a] may stand before [b] when reading from the top row down and, in a
    row, from left to right. *)
Definition top_down_before (a b : EffectCharacter.t) : Prop :=
  Terminal.row_of b < Terminal.row_of a \/
  (Terminal.row_of a = Terminal.row_of b /\ Terminal.column_of a <= Terminal.column_of b).

(** [a] may stand before [b] when reading from the bottom row up and, in a
    row, from left to right. *)
Definition bottom_up_before (a b : EffectCharacter.t) : Prop :=
  Terminal.row_of a < Terminal.row_of b \/
  (Terminal.row_of a = Terminal.row_of b /\ Terminal.column_of a <= Terminal.column_of b).

(** The number a grouping tells the characters apart by: the column, the
    row, the diagonal or the distance to the centre of the canvas. *)
Definition group_key (g : Terminal.CharacterGroup) (cv : Canvas.t) (ch : EffectCharacter.t)
    : Z :=
  match g with
  | Terminal.COLUMN_LEFT_TO_RIGHT | Terminal.COLUMN_RIGHT_TO_LEFT => Terminal.column_of ch
  | Terminal.ROW_TOP_TO_BOTTOM | Terminal.ROW_BOTTOM_TO_TOP => Terminal.row_of ch
  | Terminal.DIAGONAL_BOTTOM_LEFT_TO_TOP_RIGHT | Terminal.DIAGONAL_TOP_RIGHT_TO_BOTTOM_LEFT =>
      Terminal.row_of ch + Terminal.column_of ch
  | Terminal.DIAGONAL_TOP_LEFT_TO_BOTTOM_RIGHT | Terminal.DIAGONAL_BOTTOM_RIGHT_TO_TOP_LEFT =>
      Terminal.column_of ch - Terminal.row_of ch
  | Terminal.CENTER_TO_OUTSIDE_DIAMONDS | Terminal.OUTSIDE_TO_CENTER_DIAMONDS =>
      Terminal.distance_to_center cv ch
  end.

(** The order a grouping lists its groups in: by growing key, or by
    falling key. *)
Definition group_order (g : Terminal.CharacterGroup) (k k' : Z) : Prop :=
  match g with
  | Terminal.COLUMN_LEFT_TO_RIGHT | Terminal.ROW_BOTTOM_TO_TOP
  | Terminal.DIAGONAL_BOTTOM_LEFT_TO_TOP_RIGHT | Terminal.DIAGONAL_TOP_LEFT_TO_BOTTOM_RIGHT
  | Terminal.CENTER_TO_OUTSIDE_DIAMONDS => k < k'
  | _ => k' < k
  end.

(** The cell at index [j] of the row at index [i] of a grid of symbols. *)
Definition cell (rows : list (list string)) (i j : nat) : option string :=
  match rows !! i with
  | Some r => r !! j
  | None => None
  end.

(** [character] is currently at the cell of index [j] in the row of index
    [i]: at column [j + 1] of row [i + 1]. *)
Definition sits_at (i j : nat) (character : EffectCharacter.t) : Prop :=
  EffectCharacter.current_coord character = mkCoord (Z.of_nat j + 1) (Z.of_nat i + 1).

#[global] Instance sits_at_dec (i j : nat) (character : EffectCharacter.t)
    : Decision (sits_at i j character).
Proof. unfold sits_at. apply _. Defined.

(** The glyph at position [j] of [line], a space beyond its end. *)
Definition glyph_or_space (line : string) (j : nat) : ascii :=
  default Py.SPACE (String.get j line).

(** [line] cut, or filled up with spaces, to [n] glyphs. *)
Definition pad_to (n : nat) (line : string) : string :=
  string_of_list_ascii (map (glyph_or_space line) (seq 0 n)).

(** What a character shows and where it currently is. *)
Definition shown_at (character : EffectCharacter.t) : string * Coord :=
  (EffectCharacter.symbol character, EffectCharacter.current_coord character).

(** What a character shows and where the input puts it. *)
Definition input_at (character : EffectCharacter.t) : string * Coord :=
  (EffectCharacter.symbol character, EffectCharacter.input_coord character).

(** The ids of the characters in the visible set. *)
Definition visible_ids (t : Terminal.t) : list Z :=
  map EffectCharacter.character_id (Terminal._visible_characters t).

(** The terminals that calls of [add_character] and of
    [set_character_visibility], the latter on characters of the terminal
    in their state at the call, lead to from [t0]. *)
Inductive reachable (t0 : Terminal.t) : Terminal.t -> Prop :=
| reachable_start : reachable t0 t0
| reachable_add (t : Terminal.t) (symbol : string) (coord : Coord) :
    reachable t0 t -> reachable t0 (Terminal.add_character symbol coord t).2
| reachable_visibility (t : Terminal.t) (character : EffectCharacter.t) (is_visible : bool) :
    reachable t0 t -> character ∈ registry t ->
    reachable t0 (Terminal.set_character_visibility character is_visible t).

(** The visible set agrees with the characters of the terminal: no two
    characters of the terminal share an id, all ids lie below the next
    one, the visible set holds characters of the terminal, each once, and
    a character is in it exactly when its visibility flag is set. *)
Definition visibility_consistent (t : Terminal.t) : Prop :=
  NoDup (map EffectCharacter.character_id (registry t)) /\
  (forall ch, ch ∈ registry t ->
     EffectCharacter.character_id ch < Terminal._next_character_id t) /\
  NoDup (visible_ids t) /\
  (forall ch, ch ∈ Terminal._visible_characters t -> ch ∈ registry t) /\
  (forall ch, ch ∈ registry t ->
     (EffectCharacter.is_visible ch = true <-> ch ∈ Terminal._visible_characters t)).

(** A run of calls of [loop_tracker], one per character of [calls] as its
    gradient scene completes, from the map [m] on: the map after the run
    and the answers in the order of the calls. *)
Fixpoint loop_tracker_calls (cycles : Z) (m : gmap Z Z) (calls : list EffectCharacter.t)
    : gmap Z Z * list bool :=
  match calls with
  | [] => (m, [])
  | character :: rest =>
      let '(m, again) := ColorShiftIterator.loop_tracker cycles m character in
      let '(m, answers) := loop_tracker_calls cycles m rest in
      (m, again :: answers)
  end.

(** How many of the calls are for the character of id [id]. *)
Definition calls_for (id : Z) (calls : list EffectCharacter.t) : Z :=
  Z.of_nat (length (filter (fun character => EffectCharacter.character_id character = id)
                           calls)).

(** A run of calls [set_character_visibility(character, True)], one for
    each character of [characters] in their order, with nothing else done
    to the characters in between. *)
Definition show_characters (characters : list EffectCharacter.t) (self : Terminal.t)
    : Terminal.t :=
  fold_left (fun self character => Terminal.set_character_visibility character true self)
            characters self.

(** * Properties *)

(** ** The built-ins on small inputs *)

Example splitlines_example :
  Py.splitlines example_input = ["AB"; "C"] /\
  Py.splitlines ("AB" +:+ String Py.CR (String Py.LF "C") +:+ String Py.LF "") = ["AB"; "C"] /\
  Py.splitlines (String Py.LF (String Py.LF "")) = [""; ""] /\
  Py.splitlines "" = [].
Proof. repeat split; reflexivity. Qed.

Example strip_example :
  Py.strip (" AB " +:+ String Py.LF "") = "AB" /\
  Py.strip (String Py.TAB (String Py.LF " ")) = "".
Proof. split; reflexivity. Qed.

Example slice_example :
  Py.slice_to 2 "hello" = "he" /\ Py.slice_from 2 "hello" = "llo" /\
  Py.slice_to (-1) "hello" = "hell" /\ Py.slice_from (-1) "hello" = "o" /\
  Py.slice_to 9 "hello" = "hello" /\ Py.slice_from 9 "hello" = "".
Proof. repeat split; reflexivity. Qed.

(** Items of equal key keep their order. *)
Example sort_by_example :
  Py.sort_by Py.pair_leb fst [((2, 1), "a"); ((1, 5), "b"); ((2, 1), "c"); ((1, 3), "d")]
  = [((1, 3), "d"); ((1, 5), "b"); ((2, 1), "a"); ((2, 1), "c")].
Proof. reflexivity. Qed.

Example range_example :
  Py.range 1 4 = [1; 2; 3] /\ Py.range (-1) 2 = [-1; 0; 1] /\ Py.range 3 3 = [] /\
  Py.range 3 1 = [].
Proof. repeat split; reflexivity. Qed.

(** A line cut to nothing leaves the constructor without a character, and
    wrapping at width 0 never ends. *)
Example init_without_result :
  Terminal.init " A" (Some (TerminalConfig.mk 4 false false false 1 0 false)) (80, 24)
    = Raised ValueError /\
  Terminal.init "ABCDE" (Some (TerminalConfig.mk 4 false false true 0 0 false)) (0, 24)
    = Diverged.
Proof. split; vm_compute; reflexivity. Qed.

(** ** Canvas *)

Section CanvasFacts.

Variable cv : Canvas.t.

Lemma coord_is_in_canvas_spec (c : Coord) :
  Canvas.coord_is_in_canvas cv c = true <->
  Canvas.left cv <= column c <= Canvas.right cv /\
  Canvas.bottom cv <= row c <= Canvas.top cv.
Proof.
  unfold Canvas.coord_is_in_canvas.
  rewrite !andb_true_iff, !Z.leb_le. lia.
Qed.

Lemma randint_in_range (a b draw : Z) :
  a <= draw <= b -> Py.randint a b draw = Returned draw.
Proof.
  intros H. unfold Py.randint.
  destruct (Z.ltb_spec b a); [lia | reflexivity].
Qed.

Lemma random_coord_outside_cases (d : Canvas.draws) :
  Canvas.draws_in_range cv d ->
  exists c, Canvas.random_coord cv true d = Returned c /\
    (c = mkCoord (Canvas.draw_column_1 d) (Canvas.top cv + 1) \/
     c = mkCoord (Canvas.draw_column_2 d) (-1) \/
     c = mkCoord (-1) (Canvas.draw_row_1 d) \/
     c = mkCoord (Canvas.right cv + 1) (Canvas.draw_row_2 d)).
Proof.
  intros (Hc1 & Hc2 & Hr1 & Hr2 & Hch).
  unfold Canvas.random_coord, Canvas.random_column, Canvas.random_row.
  rewrite !randint_in_range by assumption. cbn [obind].
  destruct (Canvas.draw_choice d) as [|[|[|[|n]]]]; cbn; [eauto 6 .. | lia].
Qed.

End CanvasFacts.

(** C4, as stated, fails: [Canvas(0, 0)] keeps [top = 0] and [right = 0]
    below [bottom = 1] and [left = 1]; nothing clamps a bound. *)
Lemma canvas_bounds_are_not_clamped :
  Canvas.top (Canvas.init_default 0 0) = 0 /\
  Canvas.right (Canvas.init_default 0 0) = 0 /\
  Canvas.top (Canvas.init_default 0 0) < Canvas.bottom (Canvas.init_default 0 0) /\
  Canvas.right (Canvas.init_default 0 0) < Canvas.left (Canvas.init_default 0 0).
Proof. cbn. lia. Qed.

(** C4, amended: constructing a canvas stores the four bounds as they are
    given, so [top >= bottom] and [right >= left] hold afterwards exactly
    when the arguments satisfy them; only the derived center is clamped,
    [center_row = max (top // 2) 1] and [center_column = max (right // 2) 1],
    both at least 1. *)
Theorem canvas_init_stores_bounds_and_clamps_center (top right bottom left : Z) :
  let cv := Canvas.init top right bottom left in
  Canvas.top cv = top /\ Canvas.right cv = right /\
  Canvas.bottom cv = bottom /\ Canvas.left cv = left /\
  (Canvas.top cv >= Canvas.bottom cv <-> top >= bottom) /\
  (Canvas.right cv >= Canvas.left cv <-> right >= left) /\
  Canvas.center_row cv = Z.max (top / 2) 1 /\
  Canvas.center_column cv = Z.max (right / 2) 1 /\
  Canvas.center cv = mkCoord (Canvas.center_column cv) (Canvas.center_row cv) /\
  1 <= Canvas.center_row cv /\ 1 <= Canvas.center_column cv.
Proof. cbn. repeat split; lia. Qed.

(** C3, where the code departs from it: on the canvas of rows -1 to 5 and
    columns 1 to 5, when the band below is the one chosen, [random_coord]
    with [outside_scope=True] returns column 3 of row -1, a coordinate of
    the canvas: the band below is the row -1 whatever the bottom of the
    canvas, whereas the band above is the row [top + 1]. *)
Theorem random_coord_outside_can_be_inside :
  Canvas.draws_in_range (Canvas.init 5 5 (-1) 1) (Canvas.mkDraws 3 3 3 3 1) /\
  Canvas.random_coord (Canvas.init 5 5 (-1) 1) true (Canvas.mkDraws 3 3 3 3 1)
    = Returned (mkCoord 3 (-1)) /\
  Canvas.coord_is_in_canvas (Canvas.init 5 5 (-1) 1) (mkCoord 3 (-1)) = true.
Proof. unfold Canvas.draws_in_range. cbn. repeat split; lia. Qed.

(** What the code does ensure: on a canvas whose bottom and left are at
    least 0 (the defaults, 1, that every terminal uses among them), and for
    every outcome of the random draws, [random_coord] with
    [outside_scope=True] returns a coordinate that [coord_is_in_canvas]
    rejects.  The draws lie in the ranges of [randint], so the canvas has
    a column and a row: [right >= 1] and [top >= 1]. *)
Lemma random_coord_outside_is_outside (cv : Canvas.t) (d : Canvas.draws) :
  0 <= Canvas.bottom cv ->
  0 <= Canvas.left cv ->
  Canvas.draws_in_range cv d ->
  exists c, Canvas.random_coord cv true d = Returned c /\
            Canvas.coord_is_in_canvas cv c = false.
Proof.
  intros Hb Hl Hd.
  destruct (random_coord_outside_cases cv d Hd) as (c & Hc & Hcases).
  exists c. split; [exact Hc|].
  apply not_true_is_false. rewrite coord_is_in_canvas_spec.
  destruct Hd as (Hc1 & Hc2 & Hr1 & Hr2 & _).
  destruct Hcases as [-> | [-> | [-> | ->]]]; cbn; lia.
Qed.

Lemma random_coord_outside_is_outside_witness :
  exists c, Canvas.random_coord (Canvas.init_default 5 7) true (Canvas.mkDraws 2 7 1 5 2)
              = Returned c /\
            Canvas.coord_is_in_canvas (Canvas.init_default 5 7) c = false.
Proof.
  apply (random_coord_outside_is_outside (Canvas.init_default 5 7) (Canvas.mkDraws 2 7 1 5 2)).
  - cbn. lia.
  - cbn. lia.
  - unfold Canvas.draws_in_range. cbn. lia.
Defined.

(** ** The sorts of get_characters *)

Section PopAlternately.

Context {A : Type}.
Implicit Types (l r : list A) (x : A).

Lemma pop_last_snoc l x : Py.pop_last (l ++ [x]) = Returned (x, l).
Proof.
  unfold Py.pop_last. rewrite List.rev_app_distr. cbn.
  now rewrite List.rev_involutive.
Qed.

Lemma even_step (i : Z) : Z.even (i + 1) = negb (Z.even i).
Proof. rewrite Z.add_1_r, Z.even_succ, <- Z.negb_even. reflexivity. Qed.

Lemma mod2_even (i : Z) : (i mod 2 =? 0) = Z.even i.
Proof.
  rewrite Zeven_mod. reflexivity.
Qed.

Lemma parity_half (k : nat) :
  exists m : nat,
    (k = 2 * m /\ Nat.even k = true /\ k / 2 = m /\ S k / 2 = m)%nat \/
    (k = 2 * m + 1 /\ Nat.even k = false /\ k / 2 = m /\ S k / 2 = S m)%nat.
Proof.
  destruct (Nat.Even_or_Odd k) as [[m Hm] | [m Hm]]; exists m; [left | right].
  - repeat split; [exact Hm | | |].
    + apply Nat.even_spec. now exists m.
    + symmetry. apply (Nat.div_unique k 2 m 0); lia.
    + symmetry. apply (Nat.div_unique (S k) 2 m 1); lia.
  - repeat split; [exact Hm | | |].
    + rewrite <- Nat.negb_odd. apply negb_false_iff, Nat.odd_spec. now exists m.
    + symmetry. apply (Nat.div_unique k 2 m 1); lia.
    + symmetry. apply (Nat.div_unique (S k) 2 (S m) 0); lia.
Qed.

Lemma pop_alternately_nth (n : nat) :
  forall l (i : Z), length l = n ->
  exists r, Terminal.pop_alternately n i l = Returned r /\ length r = n /\
    forall k, (k < n)%nat -> r !! k = l !! source_index n i k.
Proof.
  induction n as [|n IH]; intros l i Hlen.
  - destruct l; [|discriminate]. exists [].
    split; [reflexivity|]. split; [reflexivity|]. intros; lia.
  - cbn [Terminal.pop_alternately]. rewrite mod2_even.
    destruct (Z.even i) eqn:Hi.
    + destruct l as [|x l]; [discriminate|]. cbn [Py.pop_first obind].
      destruct (IH l (i + 1)) as (r & Hr & Hrl & Hnth); [cbn in Hlen; lia|].
      rewrite Hr. cbn [obind]. exists (x :: r). split; [reflexivity|].
      split; [cbn; lia|].
      intros [|k] Hk.
      * unfold source_index. rewrite Hi. reflexivity.
      * cbn [lookup list_lookup]. rewrite Hnth by lia.
        unfold source_index. rewrite even_step, Hi, Nat.even_succ, <- Nat.negb_even.
        destruct (parity_half k) as (m & [(Hk1 & -> & -> & ->) | (Hk1 & -> & -> & ->)]);
          cbn [negb Bool.eqb].
        -- replace (S n - 1 - m)%nat with (S (n - 1 - m)) by lia. reflexivity.
        -- reflexivity.
    + destruct (exists_last (l := l)) as (l' & x & ->); [intros ->; discriminate|].
      rewrite pop_last_snoc. cbn [obind].
      rewrite length_app in Hlen. cbn in Hlen.
      destruct (IH l' (i + 1)) as (r & Hr & Hrl & Hnth); [lia|].
      rewrite Hr. cbn [obind]. exists (x :: r). split; [reflexivity|].
      split; [cbn; lia|].
      intros [|k] Hk.
      * unfold source_index. rewrite Hi. cbn [Nat.even Bool.eqb].
        replace (S n - 1 - 0 / 2)%nat with (length l' + 0)%nat by (cbn; lia).
        rewrite lookup_app_r by lia.
        replace (length l' + 0 - length l')%nat with 0%nat by lia. reflexivity.
      * cbn [lookup list_lookup]. rewrite Hnth by lia.
        unfold source_index. rewrite even_step, Hi, Nat.even_succ, <- Nat.negb_even.
        destruct (parity_half k) as (m & [(Hk1 & -> & -> & ->) | (Hk1 & -> & -> & ->)]);
          cbn [negb Bool.eqb].
        -- rewrite lookup_app_l by lia. reflexivity.
        -- rewrite lookup_app_l by lia. f_equal. lia.
Qed.

End PopAlternately.

(** C8: [OUTSIDE_ROW_TO_MIDDLE] takes the items of the base ordering (the
    default sort, top row first) alternately from its front and from its
    back, so that a base ordering [a, b, c, d] gives [a, d, b, c]; the
    comprehension never pops from an empty list; and
    [MIDDLE_ROW_TO_OUTSIDE] returns the exact reverse of that result. *)
Theorem get_characters_outside_row_to_middle
    (t : Terminal.t) (input_characters fill_chars added_chars : bool) (order : list nat) :
  exists base result,
    Terminal.get_characters input_characters fill_chars added_chars
      Terminal.TOP_TO_BOTTOM_LEFT_TO_RIGHT order t = Returned base /\
    Terminal.get_characters input_characters fill_chars added_chars
      Terminal.OUTSIDE_ROW_TO_MIDDLE order t = Returned result /\
    Terminal.get_characters input_characters fill_chars added_chars
      Terminal.MIDDLE_ROW_TO_OUTSIDE order t = Returned (List.rev result) /\
    length result = length base /\
    (forall k : nat, (k < length base)%nat ->
       result !! k = if Nat.even k then base !! (k / 2)%nat
                     else base !! (length base - 1 - k / 2)%nat) /\
    (forall a b c d, base = [a; b; c; d] -> result = [a; d; b; c]).
Proof.
  unfold Terminal.get_characters.
  set (base := Py.sort_by _ _ _).
  destruct (pop_alternately_nth (length base) base 0 eq_refl) as (r & Hr & Hlen & Hnth).
  exists base, r. rewrite Hr. cbn [obind].
  repeat split; try assumption.
  - intros k Hk. rewrite (Hnth k Hk). unfold source_index. cbn [Z.even Bool.eqb].
    destruct (Nat.even k); reflexivity.
  - intros a b c d Hbase. rewrite Hbase in Hr. vm_compute in Hr. congruence.
Qed.

Lemma get_characters_outside_row_to_middle_witness :
  exists t result,
    Terminal.init ("AB" +:+ String Py.LF "CD") None (80, 24) = Returned t /\
    Terminal.get_characters true false false Terminal.OUTSIDE_ROW_TO_MIDDLE [] t
      = Returned result /\
    Terminal.get_characters true false false Terminal.MIDDLE_ROW_TO_OUTSIDE [] t
      = Returned (List.rev result) /\
    map EffectCharacter.symbol result = ["A"; "D"; "B"; "C"].
Proof.
  eexists.
  match goal with
  | |- exists result, Terminal.init ?s ?c ?d = Returned ?t0 /\ _ =>
      assert (Hinit : Terminal.init s c d = Returned t0) by (vm_compute; reflexivity);
      destruct (get_characters_outside_row_to_middle t0 true false false [])
        as (base & result & Hbase & Hout & Hmid & _ & _ & Hfour)
  end.
  exists result. split; [exact Hinit|]. split; [exact Hout|]. split; [exact Hmid|].
  vm_compute in Hbase. injection Hbase as <-.
  rewrite (Hfour _ _ _ _ eq_refl). reflexivity.
Defined.

(** ** get_characters_grouped: the grouping argument *)

(** C9: [get_characters_grouped] raises [ValueError] exactly when the
    grouping argument is not a member of [CharacterGroup]; for each of the
    ten members it returns its groups; and in both cases the terminal is
    left as it was. *)
Theorem get_characters_grouped_raises_iff_unrecognized
    (grouping : Terminal.value) (input_characters fill_chars added_chars : bool)
    (t : Terminal.t) :
  (Terminal.get_characters_grouped grouping input_characters fill_chars added_chars t
     = (Raised ValueError, t)
   <-> ~ exists g, grouping = Terminal.VGroup g) /\
  ((exists g, grouping = Terminal.VGroup g) <->
   exists groups,
     Terminal.get_characters_grouped grouping input_characters fill_chars added_chars t
       = (Returned groups, t)) /\
  (Terminal.get_characters_grouped grouping input_characters fill_chars added_chars t).2 = t.
Proof.
  unfold Terminal.get_characters_grouped.
  split; [|split]; [| |reflexivity].
  - split.
    + intros H [g ->]. destruct g; discriminate H.
    + intros H. destruct grouping as [g | | | |]; try reflexivity.
      exfalso. apply H. now exists g.
  - split.
    + intros [g ->]. destruct g; eexists; reflexivity.
    + intros [groups H]. destruct grouping as [g | | | |]; try discriminate H.
      now exists g.
Qed.

(** ** The blank frame *)

Lemma length_range (a b : Z) : length (Py.range a b) = Z.to_nat (b - a).
Proof. unfold Py.range. now rewrite length_map, length_seq. Qed.

Lemma map_const_repeat {A B : Type} (x : B) (l : list A) :
  map (fun _ => x) l = repeat x (length l).
Proof. induction l as [|a l IH]; cbn; [reflexivity | now rewrite IH]. Qed.

Lemma rev_repeat {A : Type} (x : A) (n : nat) : List.rev (repeat x n) = repeat x n.
Proof.
  induction n as [|n IH]; [reflexivity|].
  cbn [repeat List.rev]. rewrite IH. symmetry. apply repeat_cons.
Qed.

(** [" " * n] is [n] spaces. *)
Lemma repeat_str_space (n : Z) :
  Py.repeat_str " " n = string_of_list_ascii (repeat Py.SPACE (Z.to_nat n)).
Proof.
  unfold Py.repeat_str. induction (Z.to_nat n) as [|k IH]; [reflexivity|].
  cbn [repeat string_of_list_ascii]. rewrite <- IH.
  destruct k; reflexivity.
Qed.

Lemma length_repeat_str_space (n : Z) : String.length (Py.repeat_str " " n) = Z.to_nat n.
Proof.
  rewrite repeat_str_space. induction (Z.to_nat n) as [|k IH]; [reflexivity|].
  cbn. now rewrite IH.
Qed.

Lemma blank_rows (cv : Canvas.t) :
  map (Py.join "")
      (map (fun _ : Z => map (fun _ : Z => " ") (Py.range 0 (Canvas.right cv)))
           (Py.range 0 (Canvas.top cv)))
  = repeat (Py.repeat_str " " (Canvas.right cv)) (Z.to_nat (Canvas.top cv)).
Proof.
  rewrite (map_const_repeat (map _ _)), map_repeat, !length_range, !Z.sub_0_r.
  rewrite map_const_repeat, length_range, Z.sub_0_r. reflexivity.
Qed.

(** The output string lists the rows of the terminal state from the last,
    the top row of the canvas, to the first, whatever is visible. *)
Lemma get_formatted_output_string_reverses (t : Terminal.t) :
  (Terminal.get_formatted_output_string t).1
  = Py.join (String Py.LF EmptyString)
            (List.rev (Terminal.terminal_state (Terminal.get_formatted_output_string t).2)).
Proof. reflexivity. Qed.

(** C7: with no visible character, [get_formatted_output_string] returns
    [canvas.top] lines joined by newlines, each made of [canvas.right]
    spaces; the lines are the rows of the terminal state taken from the
    last to the first. *)
Theorem get_formatted_output_string_blank (t : Terminal.t) :
  Terminal._visible_characters t = [] ->
  let cv := Terminal.canvas t in
  let blank := Py.repeat_str " " (Canvas.right cv) in
  let output := (Terminal.get_formatted_output_string t).1 in
  let state := Terminal.terminal_state (Terminal.get_formatted_output_string t).2 in
  state = repeat blank (Z.to_nat (Canvas.top cv)) /\
  length state = Z.to_nat (Canvas.top cv) /\
  blank = string_of_list_ascii (repeat Py.SPACE (Z.to_nat (Canvas.right cv))) /\
  String.length blank = Z.to_nat (Canvas.right cv) /\
  output = Py.join (String Py.LF EmptyString) (List.rev state) /\
  output = Py.join (String Py.LF EmptyString) (repeat blank (Z.to_nat (Canvas.top cv))).
Proof.
  intros Hvis cv blank output state.
  assert (Hstate : state = repeat blank (Z.to_nat (Canvas.top cv))).
  { subst state. unfold Terminal.get_formatted_output_string, Terminal._update_terminal_state.
    cbn [snd Terminal.terminal_state Terminal.set_terminal_state].
    rewrite Hvis. cbn [Py.sort_by fold_right fold_left]. apply blank_rows. }
  repeat split.
  - exact Hstate.
  - rewrite Hstate. apply repeat_length.
  - apply repeat_str_space.
  - apply length_repeat_str_space.
  - subst output state. rewrite get_formatted_output_string_reverses. rewrite Hstate.
    now rewrite rev_repeat.
Qed.

Lemma get_formatted_output_string_blank_witness :
  (Terminal.get_formatted_output_string
     (Terminal.mk TerminalConfig.default "x" (80, 24) 80 24 1 [] [] 3 2
        (Canvas.init_default 2 3) ∅ [] [] [])).1
  = String.append "   " (String Py.LF "   ").
Proof.
  pose proof (get_formatted_output_string_blank
     (Terminal.mk TerminalConfig.default "x" (80, 24) 80 24 1 [] [] 3 2
        (Canvas.init_default 2 3) ∅ [] [] []) eq_refl) as H.
  cbv zeta in H. destruct H as (_ & _ & _ & _ & _ & H).
  rewrite H. vm_compute. reflexivity.
Defined.

(** ** Wrapping terminates exactly at positive widths *)

Lemma length_str_drop (n : nat) (s : string) :
  String.length (Py.str_drop n s) = (String.length s - n)%nat.
Proof.
  revert s. induction n as [|n IH]; intros s; cbn; [lia|].
  destruct s as [|c s]; cbn; [reflexivity | apply IH].
Qed.

Lemma len_slice_from (w : Z) (s : string) :
  Py.len (Py.slice_from w s)
  = Py.len s - Z.min (Z.max (if w <? 0 then w + Py.len s else w) 0) (Py.len s).
Proof.
  unfold Py.slice_from, Py.slice_bound, Py.len. rewrite length_str_drop.
  destruct (w <? 0); lia.
Qed.

(** With a positive width the loop over a line ends within as many
    iterations as the line has characters. *)
Lemma wrap_while_returns (width : Z) (fuel : nat) :
  1 <= width ->
  forall line : string, (String.length line <= fuel)%nat ->
  exists wrapped, Terminal.wrap_while fuel width line = Returned wrapped.
Proof.
  intros Hw. induction fuel as [|fuel IH]; intros line Hlen.
  - cbn. unfold Py.len. destruct (Z.ltb_spec width (Z.of_nat (String.length line))); [lia|].
    eauto.
  - cbn [Terminal.wrap_while]. destruct (Z.ltb_spec width (Py.len line)) as [Hlt|]; [|eauto].
    destruct (IH (Py.slice_from width line)) as [wrapped Hwrapped].
    { pose proof (len_slice_from width line) as Hs. unfold Py.len in *.
      destruct (Z.ltb_spec width 0); lia. }
    rewrite Hwrapped. cbn. eauto.
Qed.

(** With a width of 0 or less the loop, once entered, never ends: no amount
    of fuel gives an answer. *)
Lemma wrap_while_diverges (width : Z) (fuel : nat) :
  width <= 0 ->
  forall line : string, width < Py.len line ->
  Terminal.wrap_while fuel width line = Diverged.
Proof.
  intros Hw. induction fuel as [|fuel IH]; intros line Hlen.
  - cbn. destruct (Z.ltb_spec width (Py.len line)); [reflexivity | lia].
  - cbn [Terminal.wrap_while]. destruct (Z.ltb_spec width (Py.len line)); [|lia].
    rewrite IH; [reflexivity|].
    rewrite len_slice_from. unfold Py.len in *.
    destruct (Z.ltb_spec width 0); lia.
Qed.

Lemma wrap_lines_returns (self : Terminal.t) (lines : list string) :
  1 <= Terminal._width self ->
  exists wrapped, Terminal._wrap_lines self lines = Returned wrapped.
Proof.
  intros Hw. induction lines as [|line lines [rest IH]]; cbn; [eauto|].
  destruct (wrap_while_returns (Terminal._width self) (String.length line) Hw line)
    as [wrapped ->]; [lia|].
  rewrite IH. cbn. eauto.
Qed.

(** ** Input decomposition *)

Section Decompose.

Variables use_xterm_colors no_color : bool.

Abbreviation decompose_line := (Terminal.decompose_line use_xterm_colors no_color).
Abbreviation decompose_lines := (Terminal.decompose_lines use_xterm_colors no_color).

Lemma decompose_line_space (y column : Z) (rest : string) (next : Z) :
  decompose_line y column (String Py.SPACE rest) next
  = decompose_line y (column + 1) rest next.
Proof. reflexivity. Qed.

Lemma decompose_line_glyph (y column : Z) (glyph : ascii) (rest : string) (next : Z) :
  glyph <> Py.SPACE ->
  decompose_line y column (String glyph rest) next
  = (EffectCharacter.set_color_flags use_xterm_colors no_color
       (EffectCharacter.init next (String glyph EmptyString) (column + 1) y)
       :: (decompose_line y (column + 1) rest (next + 1)).1,
     (decompose_line y (column + 1) rest (next + 1)).2).
Proof.
  intros Hg. cbn [Terminal.decompose_line].
  destruct (Ascii.eqb_spec glyph Py.SPACE) as [|_]; [contradiction|].
  now destruct (Terminal.decompose_line _ _ _ _ _ _).
Qed.

(** Every character of a line stands at a non-space glyph of the line. *)
Lemma decompose_line_sound (y : Z) (line : string) :
  forall (column next : Z) (ch : EffectCharacter.t),
  ch ∈ (decompose_line y column line next).1 ->
  exists (j : nat) (glyph : ascii),
    String.get j line = Some glyph /\ glyph <> Py.SPACE /\
    EffectCharacter.symbol ch = String glyph EmptyString /\
    EffectCharacter.input_coord ch = mkCoord (column + Z.of_nat j + 1) y.
Proof.
  induction line as [|g rest IH]; intros column next ch Hin.
  - cbn in Hin. inversion Hin.
  - destruct (Ascii.eqb_spec g Py.SPACE) as [-> | Hg].
    + rewrite decompose_line_space in Hin.
      destruct (IH _ _ _ Hin) as (j & glyph & Hget & Hne & Hsym & Hcoord).
      exists (S j), glyph. repeat split; try assumption.
      rewrite Hcoord. f_equal. lia.
    + rewrite decompose_line_glyph in Hin by assumption. cbn [fst] in Hin.
      apply elem_of_cons in Hin as [-> | Hin].
      * exists 0%nat, g. repeat split; try assumption.
        cbn. f_equal. lia.
      * destruct (IH _ _ _ Hin) as (j & glyph & Hget & Hne & Hsym & Hcoord).
        exists (S j), glyph. repeat split; try assumption.
        rewrite Hcoord. f_equal. lia.
Qed.

(** Every non-space glyph of a line has its character. *)
Lemma decompose_line_complete (y : Z) (line : string) :
  forall (column next : Z) (j : nat) (glyph : ascii),
  String.get j line = Some glyph -> glyph <> Py.SPACE ->
  exists ch, ch ∈ (decompose_line y column line next).1 /\
    EffectCharacter.symbol ch = String glyph EmptyString /\
    EffectCharacter.input_coord ch = mkCoord (column + Z.of_nat j + 1) y.
Proof.
  induction line as [|g rest IH]; intros column next j glyph Hget Hne.
  - destruct j; discriminate.
  - destruct j as [|j].
    + cbn in Hget. injection Hget as ->.
      rewrite decompose_line_glyph by assumption. cbn [fst].
      eexists. split; [apply list_elem_of_here|].
      split; [reflexivity|]. cbn. f_equal. lia.
    + cbn in Hget.
      destruct (IH (column + 1) next j glyph Hget Hne) as (ch & Hin & Hsym & Hcoord).
      destruct (IH (column + 1) (next + 1) j glyph Hget Hne) as (ch' & Hin' & Hsym' & Hcoord').
      destruct (Ascii.eqb_spec g Py.SPACE) as [-> | Hg].
      * rewrite decompose_line_space. exists ch. repeat split; try assumption.
        rewrite Hcoord. f_equal. lia.
      * rewrite decompose_line_glyph by assumption. cbn [fst].
        exists ch'. split; [now apply list_elem_of_further|].
        split; [assumption|]. rewrite Hcoord'. f_equal. lia.
Qed.

(** The ids handed out along a line are consecutive, and the counter ends
    behind the last of them. *)
Lemma decompose_line_ids (y : Z) (line : string) :
  forall (column next : Z),
  map EffectCharacter.character_id (decompose_line y column line next).1
    = ids_from next (length (decompose_line y column line next).1) /\
  (decompose_line y column line next).2
    = next + Z.of_nat (length (decompose_line y column line next).1).
Proof.
  induction line as [|g rest IH]; intros column next.
  - cbn. split; [reflexivity | lia].
  - destruct (Ascii.eqb_spec g Py.SPACE) as [-> | Hg].
    + rewrite decompose_line_space. apply IH.
    + rewrite decompose_line_glyph by assumption. cbn [fst snd map length].
      destruct (IH (column + 1) (next + 1)) as [Hids Hnext].
      rewrite Hids, Hnext. split; [|lia].
      unfold ids_from. cbn [seq map]. f_equal; [cbn; lia|].
      rewrite <- seq_shift, map_map. apply map_ext. intros k. lia.
Qed.

Lemma decompose_line_length (y : Z) (line : string) :
  forall (column next : Z),
  length (decompose_line y column line next).1
  = length (List.filter (fun glyph => negb (Ascii.eqb glyph Py.SPACE))
                        (list_ascii_of_string line)).
Proof.
  induction line as [|g rest IH]; intros column next; [reflexivity|].
  destruct (Ascii.eqb_spec g Py.SPACE) as [-> | Hg].
  - rewrite decompose_line_space. cbn. apply IH.
  - rewrite decompose_line_glyph by assumption.
    cbn [list_ascii_of_string List.filter fst length].
    destruct (Ascii.eqb_spec g Py.SPACE) as [|_]; [contradiction|].
    cbn [negb length]. f_equal. apply IH.
Qed.

(** Along a line the columns grow, so no coordinate comes twice. *)
Lemma decompose_line_NoDup (y : Z) (line : string) :
  forall (column next : Z),
  NoDup (map EffectCharacter.input_coord (decompose_line y column line next).1).
Proof.
  induction line as [|g rest IH]; intros column next; [constructor|].
  destruct (Ascii.eqb_spec g Py.SPACE) as [-> | Hg].
  - rewrite decompose_line_space. apply IH.
  - rewrite decompose_line_glyph by assumption. cbn [fst map].
    apply NoDup_cons. split; [|apply IH].
    intros Hin. apply list_elem_of_fmap in Hin as (ch & Hcoord & Hin).
    apply decompose_line_sound in Hin as (j & glyph & _ & _ & _ & Hcoord').
    rewrite Hcoord' in Hcoord. cbn in Hcoord. injection Hcoord. lia.
Qed.

Lemma decompose_lines_cons (input_height row : Z) (line : string) (rest : list string)
    (next : Z) :
  decompose_lines input_height row (line :: rest) next
  = ((decompose_line (input_height - row) 0 line next).1
       ++ (decompose_lines input_height (row + 1) rest
             (decompose_line (input_height - row) 0 line next).2).1,
     (decompose_lines input_height (row + 1) rest
        (decompose_line (input_height - row) 0 line next).2).2).
Proof.
  cbn [Terminal.decompose_lines].
  destruct (Terminal.decompose_line _ _ _ _ _ _) as [cs n].
  now destruct (Terminal.decompose_lines _ _ _ _ _ _).
Qed.

Lemma decompose_lines_sound (input_height : Z) (lines : list string) :
  forall (row next : Z) (ch : EffectCharacter.t),
  ch ∈ (decompose_lines input_height row lines next).1 ->
  exists (i j : nat) (glyph : ascii),
    glyph_at lines i j = Some glyph /\ glyph <> Py.SPACE /\
    EffectCharacter.symbol ch = String glyph EmptyString /\
    EffectCharacter.input_coord ch
      = mkCoord (Z.of_nat j + 1) (input_height - (row + Z.of_nat i)).
Proof.
  induction lines as [|line rest IH]; intros row next ch Hin.
  - cbn in Hin. inversion Hin.
  - rewrite decompose_lines_cons in Hin. cbn [fst] in Hin.
    apply elem_of_app in Hin as [Hin | Hin].
    + apply decompose_line_sound in Hin as (j & glyph & Hget & Hne & Hsym & Hcoord).
      exists 0%nat, j, glyph. repeat split; try assumption.
      rewrite Hcoord. f_equal; lia.
    + apply IH in Hin as (i & j & glyph & Hget & Hne & Hsym & Hcoord).
      exists (S i), j, glyph. repeat split; try assumption.
      rewrite Hcoord. f_equal; lia.
Qed.

Lemma decompose_lines_complete (input_height : Z) (lines : list string) :
  forall (row next : Z) (i j : nat) (glyph : ascii),
  glyph_at lines i j = Some glyph -> glyph <> Py.SPACE ->
  exists ch, ch ∈ (decompose_lines input_height row lines next).1 /\
    EffectCharacter.symbol ch = String glyph EmptyString /\
    EffectCharacter.input_coord ch
      = mkCoord (Z.of_nat j + 1) (input_height - (row + Z.of_nat i)).
Proof.
  induction lines as [|line rest IH]; intros row next i j glyph Hget Hne.
  - destruct i; discriminate.
  - rewrite decompose_lines_cons. cbn [fst]. destruct i as [|i].
    + cbn in Hget.
      destruct (decompose_line_complete (input_height - row) line 0 next j glyph Hget Hne)
        as (ch & Hin & Hsym & Hcoord).
      exists ch. split; [apply elem_of_app; now left|].
      split; [assumption|]. rewrite Hcoord. f_equal; lia.
    + change (glyph_at (line :: rest) (S i) j) with (glyph_at rest i j) in Hget.
      destruct (IH (row + 1) (decompose_line (input_height - row) 0 line next).2
                   i j glyph Hget Hne) as (ch & Hin & Hsym & Hcoord).
      exists ch. split; [apply elem_of_app; now right|].
      split; [assumption|]. rewrite Hcoord. f_equal; lia.
Qed.

Lemma seq_from (n m : nat) : seq n m = map (Nat.add n) (seq 0 m).
Proof.
  induction n as [|n IH]; cbn.
  - symmetry. rewrite <- (map_id (seq 0 m)) at 2. apply map_ext. now intros.
  - rewrite <- seq_shift, IH, map_map. reflexivity.
Qed.

Lemma ids_from_app (first : Z) (n m : nat) :
  ids_from first (n + m) = ids_from first n ++ ids_from (first + Z.of_nat n) m.
Proof.
  unfold ids_from. rewrite seq_app, map_app. f_equal.
  cbn [Nat.add]. rewrite seq_from, map_map. apply map_ext. intros k. lia.
Qed.

Lemma decompose_lines_ids (input_height : Z) (lines : list string) :
  forall (row next : Z),
  map EffectCharacter.character_id (decompose_lines input_height row lines next).1
    = ids_from next (length (decompose_lines input_height row lines next).1) /\
  (decompose_lines input_height row lines next).2
    = next + Z.of_nat (length (decompose_lines input_height row lines next).1).
Proof.
  induction lines as [|line rest IH]; intros row next.
  - cbn. split; [reflexivity | lia].
  - rewrite decompose_lines_cons. cbn [fst snd].
    destruct (decompose_line_ids (input_height - row) line 0 next) as [Hids Hnext].
    destruct (IH (row + 1) (decompose_line (input_height - row) 0 line next).2)
      as [Hids' Hnext'].
    set (n1 := (decompose_line (input_height - row) 0 line next).2) in *.
    rewrite map_app, length_app, ids_from_app, Hids, Hids', Hnext'.
    split; [|lia]. f_equal. f_equal. exact Hnext.
Qed.

Lemma decompose_lines_length (input_height : Z) (lines : list string) :
  forall (row next : Z),
  length (decompose_lines input_height row lines next).1 = non_space_count lines.
Proof.
  induction lines as [|line rest IH]; intros row next; [reflexivity|].
  rewrite decompose_lines_cons. cbn [fst]. rewrite length_app.
  rewrite decompose_line_length, IH. reflexivity.
Qed.

(** A later line lies on a lower row, so no coordinate comes twice. *)
Lemma decompose_lines_NoDup (input_height : Z) (lines : list string) :
  forall (row next : Z),
  NoDup (map EffectCharacter.input_coord (decompose_lines input_height row lines next).1).
Proof.
  induction lines as [|line rest IH]; intros row next; [constructor|].
  rewrite decompose_lines_cons. cbn [fst]. rewrite map_app.
  apply NoDup_app. split; [apply decompose_line_NoDup|]. split; [|apply IH].
  intros c Hin Hin'.
  apply list_elem_of_fmap in Hin as (ch & -> & Hin).
  apply list_elem_of_fmap in Hin' as (ch' & Heq & Hin').
  apply decompose_line_sound in Hin as (j & glyph & _ & _ & _ & Hcoord).
  apply decompose_lines_sound in Hin' as (i' & j' & glyph' & _ & _ & _ & Hcoord').
  rewrite Hcoord, Hcoord' in Heq. injection Heq. lia.
Qed.

End Decompose.

Lemma str_take_all (s : string) : Py.str_take (String.length s) s = s.
Proof. induction s as [|c s IH]; cbn; [reflexivity | now rewrite IH]. Qed.

(** A slice bound at or behind the end keeps the whole string. *)
Lemma slice_to_all (w : Z) (s : string) : Py.len s <= w -> Py.slice_to w s = s.
Proof.
  intros H. unfold Py.slice_to, Py.slice_bound, Py.len in *.
  destruct (Z.ltb_spec w 0); [lia|].
  replace (Z.to_nat _) with (String.length s) by lia.
  apply str_take_all.
Qed.

(** C6: [_decompose_input] creates one input character for each glyph of
    the formatted lines that is not a space and none for a space; the
    character of the glyph at line [i], position [j] (both from 0) shows
    that glyph at column [j + 1] of row [total_lines - i], so that row 1 is
    the last line. In particular ["AB\nC"], not wrapped, at a width of 2 or
    more, gives 'A' at (1,2), 'B' at (2,2) and 'C' at (1,1) and nothing
    else. *)
Theorem decompose_input_one_character_per_glyph :
  (forall (use_xterm_colors no_color : bool) (self : Terminal.t) (lines : list string),
     Terminal.format_lines (Terminal.substitute_blank_input self) = Returned lines ->
     exists (characters : list EffectCharacter.t) (self' : Terminal.t),
       Terminal._decompose_input use_xterm_colors no_color self
         = Returned (characters, self') /\
       (forall ch, ch ∈ characters -> exists i j, stands_for lines ch i j) /\
       (forall i j glyph, glyph_at lines i j = Some glyph -> glyph <> Py.SPACE ->
          exists ch, ch ∈ characters /\ stands_for lines ch i j) /\
       (forall ch, ch ∈ characters -> EffectCharacter.symbol ch <> " ") /\
       NoDup (map EffectCharacter.input_coord characters) /\
       length characters = non_space_count lines /\
       map EffectCharacter.character_id characters
         = ids_from (Terminal._next_character_id self) (length characters) /\
       Terminal._next_character_id self'
         = Terminal._next_character_id self + Z.of_nat (length characters)) /\
  (forall (use_xterm_colors no_color : bool) (self : Terminal.t),
     Terminal._input_data self = example_input ->
     TerminalConfig.wrap_text (Terminal.config self) = false ->
     2 <= Terminal._width self ->
     let next := Terminal._next_character_id self in
     let character id symbol column row :=
       EffectCharacter.set_color_flags use_xterm_colors no_color
         (EffectCharacter.init id symbol column row) in
     Terminal._decompose_input use_xterm_colors no_color self
       = Returned ([character next "A" 1 2; character (next + 1) "B" 2 2;
                    character (next + 1 + 1) "C" 1 1],
                   Terminal.set__next_character_id (next + 1 + 1 + 1) self)).
Proof.
  split.
  - intros x n self lines Hlines.
    unfold Terminal._decompose_input. rewrite Hlines. cbn [obind].
    set (self0 := Terminal.substitute_blank_input self).
    assert (Hnext : Terminal._next_character_id self0 = Terminal._next_character_id self).
    { subst self0. unfold Terminal.substitute_blank_input. now destruct (decide _). }
    rewrite Hnext.
    set (H := Z.of_nat (length lines)).
    set (next := Terminal._next_character_id self).
    pose proof (decompose_lines_sound x n H lines 0 next) as Hsound.
    pose proof (decompose_lines_complete x n H lines 0 next) as Hcomplete.
    pose proof (decompose_lines_ids x n H lines 0 next) as [Hids Hlast].
    pose proof (decompose_lines_length x n H lines 0 next) as Hlen.
    pose proof (decompose_lines_NoDup x n H lines 0 next) as Hnodup.
    destruct (Terminal.decompose_lines x n H 0 lines next) as [cs last].
    cbn [fst snd] in *.
    exists cs, (Terminal.set__next_character_id last self0).
    split; [reflexivity|].
    assert (Hstands : forall ch, ch ∈ cs -> exists i j, stands_for lines ch i j).
    { intros ch Hin. destruct (Hsound ch Hin) as (i & j & g & Hg & Hne & Hsym & Hcoord).
      exists i, j, g. repeat split; assumption. }
    repeat split; try assumption.
    + intros i j g Hg Hne. destruct (Hcomplete i j g Hg Hne) as (ch & Hin & Hsym & Hcoord).
      exists ch. split; [assumption|]. exists g. repeat split; assumption.
    + intros ch Hin Hspace. destruct (Hstands ch Hin) as (i & j & g & _ & Hne & Hsym & _).
      rewrite Hsym in Hspace. injection Hspace as Hg. now apply Hne.
  - intros x n self Hdata Hwrap Hwidth next character.
    unfold Terminal._decompose_input, Terminal.substitute_blank_input.
    rewrite Hdata. change (Py.strip example_input) with example_input.
    destruct (decide (example_input = "")) as [Habs|_]; [discriminate Habs|].
    unfold Terminal.format_lines. rewrite Hdata, Hwrap.
    change (Py.splitlines example_input) with ["AB"; "C"]. cbn [map].
    rewrite !slice_to_all by (unfold Py.len; cbn; lia). cbn [obind length].
    reflexivity.
Qed.

Lemma decompose_input_one_character_per_glyph_witness :
  (exists characters self',
     Terminal._decompose_input false false
       (Terminal.mk TerminalConfig.default example_input (80, 24) 80 24 0 [] [] 0 0
          (Canvas.init_default 0 0) ∅ [] [] [])
     = Returned (characters, self') /\
     length characters = 3%nat /\
     NoDup (map EffectCharacter.input_coord characters)) /\
  Terminal._decompose_input false false
    (Terminal.mk TerminalConfig.default example_input (80, 24) 80 24 0 [] [] 0 0
       (Canvas.init_default 0 0) ∅ [] [] [])
  = Returned
      ([EffectCharacter.init 0 "A" 1 2; EffectCharacter.init 1 "B" 2 2;
        EffectCharacter.init 2 "C" 1 1],
       Terminal.mk TerminalConfig.default example_input (80, 24) 80 24 3 [] [] 0 0
         (Canvas.init_default 0 0) ∅ [] [] []).
Proof.
  split.
  - destruct (proj1 decompose_input_one_character_per_glyph false false
                (Terminal.mk TerminalConfig.default example_input (80, 24) 80 24 0 [] [] 0 0
                   (Canvas.init_default 0 0) ∅ [] [] [])
                ["AB"; "C"] ltac:(vm_compute; reflexivity))
      as (characters & self' & Hdec & _ & _ & _ & Hnodup & Hlen & _).
    exists characters, self'. split; [exact Hdec|]. split; [exact Hlen | exact Hnodup].
  - apply (proj2 decompose_input_one_character_per_glyph false false
             (Terminal.mk TerminalConfig.default example_input (80, 24) 80 24 0 [] [] 0 0
                (Canvas.init_default 0 0) ∅ [] [] [])).
    + reflexivity.
    + reflexivity.
    + cbn. lia.
Defined.

(** ** Built-ins *)

Lemma fold_left_max_spec (xs : list Z) :
  forall x : Z,
  x <= fold_left Z.max xs x /\
  (forall y, y ∈ xs -> y <= fold_left Z.max xs x) /\
  fold_left Z.max xs x ∈ x :: xs.
Proof.
  induction xs as [|a xs IH]; intros x; cbn [fold_left].
  - split; [lia|]. split; [intros y Hy; inversion Hy | apply list_elem_of_here].
  - destruct (IH (Z.max x a)) as (Hge & Hall & Hin).
    split; [lia|]. split.
    + intros y Hy. apply elem_of_cons in Hy as [-> | Hy]; [lia | now apply Hall].
    + apply elem_of_cons in Hin as [Heq | Hin].
      * rewrite Heq. destruct (Z.max_spec x a) as [[_ ->] | [_ ->]].
        -- apply list_elem_of_further, list_elem_of_here.
        -- apply list_elem_of_here.
      * now do 2 apply list_elem_of_further.
Qed.

(** [max] returns an item of the list that no item exceeds, and raises
    only on the empty list. *)
Lemma max_spec (xs : list Z) :
  match Py.max xs with
  | Returned m => m ∈ xs /\ forall y, y ∈ xs -> y <= m
  | Raised e => e = ValueError /\ xs = []
  | Diverged => False
  end.
Proof.
  destruct xs as [|x xs]; cbn; [now split|].
  destruct (fold_left_max_spec xs x) as (Hge & Hall & Hin).
  split; [assumption|].
  intros y Hy. apply elem_of_cons in Hy as [-> | Hy]; [assumption | now apply Hall].
Qed.

Lemma elem_of_range (x a b : Z) : x ∈ Py.range a b <-> a <= x < b.
Proof.
  unfold Py.range. rewrite list_elem_of_In, in_map_iff. split.
  - intros (i & <- & Hi). apply in_seq in Hi. lia.
  - intros H. exists (Z.to_nat (x - a)). split; [lia|]. apply in_seq. lia.
Qed.

(** ** The coordinate map built from the input characters *)

Section CoordinateMap.

Implicit Types (ch : EffectCharacter.t) (c : Coord).

Lemma index_by_input_coord_snoc (characters : list EffectCharacter.t) ch :
  Terminal.index_by_input_coord (characters ++ [ch])
  = <[EffectCharacter.input_coord ch := ch]> (Terminal.index_by_input_coord characters).
Proof. unfold Terminal.index_by_input_coord. now rewrite fold_left_app. Qed.

Lemma index_by_input_coord_lookup (characters : list EffectCharacter.t) c ch :
  Terminal.index_by_input_coord characters !! c = Some ch ->
  ch ∈ characters /\ EffectCharacter.input_coord ch = c.
Proof.
  induction characters as [|x l IH] using rev_ind; intros H.
  - unfold Terminal.index_by_input_coord in H. cbn in H. rewrite lookup_empty in H. discriminate.
  - rewrite index_by_input_coord_snoc in H.
    destruct (decide (EffectCharacter.input_coord x = c)) as [Heq | Hne].
    + rewrite Heq, lookup_insert_eq in H. injection H as <-.
      split; [apply elem_of_app; right; apply list_elem_of_here | assumption].
    + rewrite lookup_insert_ne in H by assumption.
      destruct (IH H) as [Hin Hc]. split; [apply elem_of_app; now left | assumption].
Qed.

Lemma index_by_input_coord_member (characters : list EffectCharacter.t) ch :
  NoDup (map EffectCharacter.input_coord characters) ->
  ch ∈ characters ->
  Terminal.index_by_input_coord characters !! EffectCharacter.input_coord ch = Some ch.
Proof.
  induction characters as [|x l IH] using rev_ind; intros Hnd Hin.
  - inversion Hin.
  - rewrite map_app in Hnd. apply NoDup_app in Hnd as (Hnd & Hdisj & _).
    rewrite index_by_input_coord_snoc.
    apply elem_of_app in Hin as [Hin | Hin].
    + rewrite lookup_insert_ne; [now apply IH|].
      intros Heq. apply (Hdisj (EffectCharacter.input_coord ch)).
      * apply list_elem_of_fmap. now exists ch.
      * rewrite <- Heq. apply list_elem_of_here.
    + apply list_elem_of_singleton in Hin as ->. apply lookup_insert_eq.
Qed.

End CoordinateMap.

(** ** Fill characters *)

Section FillCharacters.

Variable cfg : TerminalConfig.t.
Variables top right : Z.
Variable by_coord0 : gmap Coord EffectCharacter.t.
Variable next0 : Z.

Abbreviation inv := (fill_inv top right by_coord0 next0).

Lemma fill_inv_start : inv (fun _ => False) ([], by_coord0, next0).
Proof.
  constructor; cbn [fst snd].
  - auto.
  - auto.
  - intros ch Hin. inversion Hin.
  - reflexivity.
  - cbn. lia.
  - constructor.
  - intros c [].
Qed.

Lemma fill_inv_weaken (P Q : Coord -> Prop) (st : Terminal.fill_state) :
  (forall c, Q c -> P c) -> inv P st -> inv Q st.
Proof. intros HQP []. constructor; auto. Qed.

Lemma fill_cell_inv (covered : Coord -> Prop) (st : Terminal.fill_state) (y x : Z) :
  1 <= x <= right -> 1 <= y <= top ->
  inv covered st ->
  inv (fun c => c = mkCoord x y \/ covered c) (Terminal.fill_cell cfg y x st).
Proof.
  intros Hx Hy [Hkeeps Horigin Hmapped Hids Hnext Hnodup Hcovered].
  destruct st as [[fill by_coord] next]. cbn [fst snd] in *.
  unfold Terminal.fill_cell.
  destruct (by_coord !! mkCoord x y) as [old|] eqn:Hcell.
  - constructor; cbn [fst snd]; try assumption.
    intros c [-> | Hc]; [rewrite Hcell; eauto | auto].
  - set (fc := EffectCharacter.set_color_flags _ _ _).
    assert (Hfree : by_coord0 !! mkCoord x y = None).
    { destruct (by_coord0 !! mkCoord x y) as [ch|] eqn:H0; [|reflexivity].
      apply Hkeeps in H0. congruence. }
    constructor; cbn [fst snd].
    + intros c ch H0. rewrite lookup_insert_ne; [auto|].
      intros <-. congruence.
    + intros c ch H. destruct (decide (mkCoord x y = c)) as [<- | Hne].
      * rewrite lookup_insert_eq in H. injection H as <-. right.
        split; [assumption|]. split; [|reflexivity].
        apply elem_of_app. right. apply list_elem_of_here.
      * rewrite lookup_insert_ne in H by assumption.
        destruct (Horigin c ch H) as [? | (? & ? & ?)]; [now left | right].
        split; [assumption|]. split; [|assumption]. apply elem_of_app. now left.
    + intros ch Hin. apply elem_of_app in Hin as [Hin | Hin].
      * destruct (Hmapped ch Hin) as (Hm & H0 & Hrest).
        split; [|split; assumption].
        rewrite lookup_insert_ne; [assumption|]. intros Heq. congruence.
      * apply list_elem_of_singleton in Hin as ->.
        split; [apply lookup_insert_eq|]. split; [assumption|].
        split; [reflexivity|]. cbn. lia.
    + rewrite map_app, length_app, ids_from_app, Hids. cbn [map length].
      f_equal. unfold ids_from. cbn. f_equal. lia.
    + rewrite length_app. cbn [length]. lia.
    + rewrite map_app. apply NoDup_app. split; [assumption|]. split.
      * intros c Hin Hin'. apply list_elem_of_singleton in Hin'. subst c.
        apply list_elem_of_fmap in Hin as (ch & Heq & Hin).
        destruct (Hmapped ch Hin) as (Hm & _). cbn in Heq. congruence.
      * apply NoDup_singleton.
    + intros c [-> | Hc].
      * rewrite lookup_insert_eq. eauto.
      * destruct (Hcovered c Hc) as [ch Hch].
        destruct (decide (mkCoord x y = c)) as [<- | Hne]; [congruence|].
        rewrite lookup_insert_ne by assumption. eauto.
Qed.

Lemma fill_columns_inv (y : Z) (columns : list Z) :
  1 <= y <= top ->
  (forall x, x ∈ columns -> 1 <= x <= right) ->
  forall (covered : Coord -> Prop) (st : Terminal.fill_state),
  inv covered st ->
  inv (fun c => (exists x, x ∈ columns /\ c = mkCoord x y) \/ covered c)
      (fold_left (fun st x => Terminal.fill_cell cfg y x st) columns st).
Proof.
  intros Hy. induction columns as [|x columns IH]; intros Hcols covered st Hinv.
  - cbn. apply (fill_inv_weaken covered); [|assumption].
    intros c [(x & Hx & _) | Hc]; [inversion Hx | assumption].
  - cbn [fold_left].
    assert (Hx : 1 <= x <= right) by (apply Hcols, list_elem_of_here).
    pose proof (fill_cell_inv covered st y x Hx Hy Hinv) as Hstep.
    apply IH in Hstep; [|intros x' Hx'; apply Hcols; now apply list_elem_of_further].
    revert Hstep. apply fill_inv_weaken.
    intros c [(x' & Hx' & ->) | Hc].
    + apply elem_of_cons in Hx' as [-> | Hx']; [right; now left | left; eauto].
    + right. now right.
Qed.

Lemma fill_rows_inv (rows : list Z) :
  (forall y, y ∈ rows -> 1 <= y <= top) ->
  forall (covered : Coord -> Prop) (st : Terminal.fill_state),
  inv covered st ->
  inv (fun c => (exists y x, y ∈ rows /\ 1 <= x <= right /\ c = mkCoord x y) \/ covered c)
      (fold_left (Terminal.fill_row cfg right) rows st).
Proof.
  induction rows as [|y rows IH]; intros Hrows covered st Hinv.
  - cbn. apply (fill_inv_weaken covered); [|assumption].
    intros c [(y & x & Hy & _) | Hc]; [inversion Hy | assumption].
  - cbn [fold_left].
    assert (Hy : 1 <= y <= top) by (apply Hrows, list_elem_of_here).
    pose proof (fill_columns_inv y (Py.range 1 (right + 1)) Hy
                  ltac:(intros x Hx; apply elem_of_range in Hx; lia) covered st Hinv) as Hstep.
    apply IH in Hstep; [|intros y' Hy'; apply Hrows; now apply list_elem_of_further].
    revert Hstep. apply fill_inv_weaken.
    intros c [(y' & x & Hy' & Hx & ->) | Hc].
    + apply elem_of_cons in Hy' as [-> | Hy'].
      * right. left. exists x. split; [apply elem_of_range; lia | reflexivity].
      * left. eauto.
    + right. now right.
Qed.

(** After the two loops every cell of the canvas is mapped. *)
Lemma fill_rows_spec :
  inv (fun c => 1 <= column c <= right /\ 1 <= row c <= top)
      (Terminal.fill_rows cfg top right ([], by_coord0, next0)).
Proof.
  unfold Terminal.fill_rows.
  pose proof (fill_rows_inv (Py.range 1 (top + 1))
                ltac:(intros y Hy; apply elem_of_range in Hy; lia)
                (fun _ => False) _ fill_inv_start) as H.
  revert H. apply fill_inv_weaken.
  intros [x y] [Hx Hy]. cbn in *. left. exists y, x.
  split; [apply elem_of_range; lia|]. split; [lia | reflexivity].
Qed.

End FillCharacters.

(** ** The constructor *)

Lemma decompose_input_inv (x n : bool) (self self' : Terminal.t)
    (characters : list EffectCharacter.t) :
  Terminal._decompose_input x n self = Returned (characters, self') ->
  exists lines,
    Terminal.format_lines (Terminal.substitute_blank_input self) = Returned lines /\
    let r := Terminal.decompose_lines x n (Z.of_nat (length lines)) 0 lines
               (Terminal._next_character_id self) in
    characters = r.1 /\
    self' = Terminal.set__next_character_id r.2 (Terminal.substitute_blank_input self).
Proof.
  unfold Terminal._decompose_input. intros H.
  destruct (Terminal.format_lines _) as [lines| |]; cbn [obind] in H; try discriminate.
  exists lines. split; [reflexivity|]. cbn zeta.
  assert (Hnext : Terminal._next_character_id (Terminal.substitute_blank_input self)
                  = Terminal._next_character_id self).
  { unfold Terminal.substitute_blank_input. now destruct (decide _). }
  rewrite Hnext in H.
  destruct (Terminal.decompose_lines _ _ _ _ _ _) as [cs last].
  injection H as <- <-. split; reflexivity.
Qed.

Lemma substitute_blank_input_keeps (self : Terminal.t) :
  Terminal._height (Terminal.substitute_blank_input self) = Terminal._height self /\
  Terminal._width (Terminal.substitute_blank_input self) = Terminal._width self /\
  Terminal.config (Terminal.substitute_blank_input self) = Terminal.config self /\
  Terminal._next_character_id (Terminal.substitute_blank_input self)
    = Terminal._next_character_id self.
Proof. unfold Terminal.substitute_blank_input. now destruct (decide _). Qed.

Lemma glyph_at_lt (lines : list string) (i j : nat) (glyph : ascii) :
  glyph_at lines i j = Some glyph -> (i < length lines)%nat.
Proof.
  unfold glyph_at. destruct (lines !! i) eqn:H; [|discriminate].
  intros _. now apply lookup_lt_Some in H.
Qed.

(** What [_decompose_input] hands to the rest of the constructor: the
    characters lie at columns and rows from 1 on, no two at one coordinate,
    with the ids from the counter's old value up to its new one. *)
Lemma decompose_input_characters (x n : bool) (self self' : Terminal.t)
    (characters : list EffectCharacter.t) :
  Terminal._decompose_input x n self = Returned (characters, self') ->
  (forall ch, ch ∈ characters ->
     1 <= column (EffectCharacter.input_coord ch) /\
     1 <= row (EffectCharacter.input_coord ch)) /\
  NoDup (map EffectCharacter.input_coord characters) /\
  map EffectCharacter.character_id characters
    = ids_from (Terminal._next_character_id self) (length characters) /\
  Terminal._next_character_id self'
    = Terminal._next_character_id self + Z.of_nat (length characters) /\
  Terminal._height self' = Terminal._height self /\
  Terminal.config self' = Terminal.config self.
Proof.
  intros H. apply decompose_input_inv in H as (lines & _ & Hcs & Hself). cbn zeta in *.
  destruct (substitute_blank_input_keeps self) as (Hh & _ & Hc & _).
  subst characters self'. repeat split.
  - apply decompose_lines_sound in H as (i & j & g & Hg & _ & _ & ->). cbn. lia.
  - apply decompose_lines_sound in H as (i & j & g & Hg & _ & _ & ->). cbn.
    apply glyph_at_lt in Hg. lia.
  - apply decompose_lines_NoDup.
  - apply decompose_lines_ids.
  - apply decompose_lines_ids.
  - exact Hh.
  - exact Hc.
Qed.

(** The input is always decomposed when the width is positive. *)
Lemma decompose_input_returns (x n : bool) (self : Terminal.t) :
  1 <= Terminal._width self ->
  exists characters self', Terminal._decompose_input x n self = Returned (characters, self').
Proof.
  intros Hw. unfold Terminal._decompose_input, Terminal.format_lines.
  destruct (substitute_blank_input_keeps self) as (_ & Hwidth & _).
  destruct (TerminalConfig.wrap_text _).
  - destruct (wrap_lines_returns (Terminal.substitute_blank_input self)
                (Py.splitlines (Terminal._input_data (Terminal.substitute_blank_input self))))
      as [wrapped ->]; [lia|].
    cbn [obind]. destruct (Terminal.decompose_lines _ _ _ _ _ _). eauto.
  - cbn [obind]. destruct (Terminal.decompose_lines _ _ _ _ _ _). eauto.
Qed.

Lemma init_registry_spec (characters : list EffectCharacter.t) (self t : Terminal.t) :
  Terminal.init_registry characters self = Returned t ->
  exists input_width input_height,
    Py.max (map (fun ch => column (EffectCharacter.input_coord ch)) characters)
      = Returned input_width /\
    Py.max (map (fun ch => row (EffectCharacter.input_coord ch)) characters)
      = Returned input_height /\
    let cv := Canvas.init_default
                (Z.min (Z.max (Terminal._height self) 1) input_height) input_width in
    let kept := filter (fits cv) characters in
    let st := Terminal.fill_rows (Terminal.config self) (Canvas.top cv) (Canvas.right cv)
                ([], Terminal.index_by_input_coord kept, Terminal._next_character_id self) in
    Terminal.canvas t = cv /\
    Terminal._input_characters t = kept /\
    Terminal._fill_characters t = st.1.1 /\
    Terminal.character_by_input_coord t = st.1.2 /\
    Terminal._next_character_id t = st.2 /\
    Terminal._added_characters t = [] /\
    Terminal._visible_characters t = [] /\
    Terminal._input_width t = input_width /\
    Terminal._input_height t = input_height /\
    Terminal._height t = Terminal._height self /\
    Terminal.config t = Terminal.config self.
Proof.
  unfold Terminal.init_registry, Terminal._make_fill_characters.
  cbn [Terminal._input_characters Terminal.set__added_characters
       Terminal.set__input_characters].
  destruct (Py.max (map _ characters)) as [iw| |]; cbn [obind]; try discriminate.
  cbn [Terminal._input_characters Terminal.set__input_width Terminal.set__added_characters
       Terminal.set__input_characters].
  destruct (Py.max (map _ characters)) as [ih| |]; cbn [obind]; try discriminate.
  cbn [Terminal.config Terminal.canvas Terminal.character_by_input_coord
       Terminal._next_character_id Terminal._input_characters Terminal._height
       Terminal._input_height Terminal._input_width
       Terminal.set__input_width Terminal.set__input_height Terminal.set_canvas
       Terminal.set__input_characters Terminal.set_character_by_input_coord
       Terminal.set__added_characters].
  intros H. exists iw, ih. cbn zeta. split; [reflexivity|]. split; [reflexivity|].
  change (fun character : EffectCharacter.t =>
            row (EffectCharacter.input_coord character)
            <= Canvas.top (Canvas.init_default
                             (Z.min (Z.max (Terminal._height self) 1) ih) iw)
            /\ column (EffectCharacter.input_coord character)
               <= Canvas.right (Canvas.init_default
                                  (Z.min (Z.max (Terminal._height self) 1) ih) iw))
    with (fits (Canvas.init_default (Z.min (Z.max (Terminal._height self) 1) ih) iw)) in H.
  destruct (Terminal.fill_rows _ _ _ _) as [[fill by_coord] next].
  injection H as <-. cbn. repeat split; reflexivity.
Qed.

Lemma init_registry_returns (characters : list EffectCharacter.t) (self : Terminal.t) :
  characters <> [] -> exists t, Terminal.init_registry characters self = Returned t.
Proof.
  intros Hne. unfold Terminal.init_registry.
  cbn [Terminal._input_characters Terminal.set__added_characters
       Terminal.set__input_characters].
  destruct characters as [|ch rest]; [contradiction|].
  do 2 (cbn [map Py.max obind Terminal._input_characters Terminal.set__input_width
             Terminal.set__added_characters Terminal.set__input_characters]).
  match goal with
  | |- context [Terminal._make_fill_characters ?s] =>
      destruct (Terminal._make_fill_characters s) as [fill self']
  end.
  eauto.
Qed.

Lemma elem_of_ids_from (x first : Z) (n : nat) :
  x ∈ ids_from first n <-> first <= x < first + Z.of_nat n.
Proof.
  unfold ids_from. rewrite list_elem_of_In, in_map_iff. split.
  - intros (k & <- & Hk). apply in_seq in Hk. lia.
  - intros H. exists (Z.to_nat (x - first)). split; [lia|]. apply in_seq. lia.
Qed.

Lemma NoDup_ids_from (first : Z) (n : nat) : NoDup (ids_from first n).
Proof.
  unfold ids_from. apply NoDup_fmap_2; [|apply NoDup_ListNoDup, seq_NoDup].
  intros a b H. lia.
Qed.

Lemma NoDup_map_filter {A B : Type} (f : A -> B) (P : A -> Prop)
    `{forall x, Decision (P x)} (l : list A) :
  NoDup (map f l) -> NoDup (map f (filter P l)).
Proof.
  induction l as [|a l IH]; intros Hnd; [constructor|].
  cbn [map] in Hnd. apply NoDup_cons in Hnd as [Hnotin Hnd].
  rewrite filter_cons. destruct (decide (P a)); [|now apply IH].
  cbn [map]. apply NoDup_cons. split; [|now apply IH].
  intros Hin. apply Hnotin.
  apply list_elem_of_fmap in Hin as (b & Hb & Hin).
  apply list_elem_of_filter in Hin as [_ Hin].
  apply list_elem_of_fmap. now exists b.
Qed.

Section Constructed.

Variables (characters : list EffectCharacter.t) (self t : Terminal.t).

Hypothesis Hpositive : forall ch, ch ∈ characters ->
  1 <= column (EffectCharacter.input_coord ch) /\ 1 <= row (EffectCharacter.input_coord ch).
Hypothesis Hcoords : NoDup (map EffectCharacter.input_coord characters).
Hypothesis Hinit : Terminal.init_registry characters self = Returned t.

Lemma constructed_canvas :
  exists input_width input_height,
    Py.max (map (fun ch => column (EffectCharacter.input_coord ch)) characters)
      = Returned input_width /\
    Py.max (map (fun ch => row (EffectCharacter.input_coord ch)) characters)
      = Returned input_height /\
    1 <= input_width /\ 1 <= input_height /\
    Terminal._input_width t = input_width /\
    Terminal._input_height t = input_height /\
    Terminal._height t = Terminal._height self /\
    Terminal.canvas t
      = Canvas.init_default (Z.min (Z.max (Terminal._height t) 1) input_height) input_width.
Proof.
  destruct (init_registry_spec _ _ _ Hinit) as (iw & ih & Hiw & Hih & Hspec).
  cbn zeta in Hspec.
  destruct Hspec as (Hcv & _ & _ & _ & _ & _ & _ & Hw & Hh & Hheight & _).
  exists iw, ih. rewrite Hheight.
  pose proof (max_spec (map (fun ch => column (EffectCharacter.input_coord ch)) characters))
    as Hmw.
  pose proof (max_spec (map (fun ch => row (EffectCharacter.input_coord ch)) characters))
    as Hmh.
  rewrite Hiw in Hmw. rewrite Hih in Hmh.
  destruct Hmw as [Hmw _], Hmh as [Hmh _].
  apply list_elem_of_fmap in Hmw as (chw & -> & Hchw).
  apply list_elem_of_fmap in Hmh as (chh & -> & Hchh).
  repeat split; try assumption.
  - now apply Hpositive.
  - now apply Hpositive.
Qed.

Lemma constructed_bounds :
  Canvas.bottom (Terminal.canvas t) = 1 /\ Canvas.left (Terminal.canvas t) = 1 /\
  1 <= Canvas.top (Terminal.canvas t) /\ 1 <= Canvas.right (Terminal.canvas t).
Proof.
  destruct constructed_canvas as (iw & ih & _ & _ & Hiw & Hih & _ & _ & _ & ->).
  cbn. lia.
Qed.

Lemma constructed_input_characters :
  Terminal._input_characters t = filter (fits (Terminal.canvas t)) characters /\
  forall ch, ch ∈ characters ->
    (fits (Terminal.canvas t) ch <->
     Canvas.coord_is_in_canvas (Terminal.canvas t) (EffectCharacter.input_coord ch) = true).
Proof.
  destruct (init_registry_spec _ _ _ Hinit) as (iw & ih & Hiw & Hih & Hspec).
  cbn zeta in Hspec. destruct Hspec as (Hcv & Hkept & _).
  rewrite Hkept, <- Hcv. split; [reflexivity|].
  intros ch Hin. destruct constructed_bounds as (Hb & Hl & _ & _).
  rewrite coord_is_in_canvas_spec, Hb, Hl. unfold fits.
  destruct (Hpositive ch Hin). lia.
Qed.

End Constructed.

Section ConstructedRegistry.

Variables (characters : list EffectCharacter.t) (self t : Terminal.t) (first : Z).

Hypothesis Hpositive : forall ch, ch ∈ characters ->
  1 <= column (EffectCharacter.input_coord ch) /\ 1 <= row (EffectCharacter.input_coord ch).
Hypothesis Hcoords : NoDup (map EffectCharacter.input_coord characters).
Hypothesis Hids :
  map EffectCharacter.character_id characters = ids_from first (length characters).
Hypothesis Hnext : Terminal._next_character_id self = first + Z.of_nat (length characters).
Hypothesis Hinit : Terminal.init_registry characters self = Returned t.

Lemma constructed_fill :
  Terminal._added_characters t = [] /\
  fill_inv (Canvas.top (Terminal.canvas t)) (Canvas.right (Terminal.canvas t))
    (Terminal.index_by_input_coord (Terminal._input_characters t))
    (Terminal._next_character_id self)
    (fun c => 1 <= column c <= Canvas.right (Terminal.canvas t) /\
              1 <= row c <= Canvas.top (Terminal.canvas t))
    (Terminal._fill_characters t, Terminal.character_by_input_coord t,
     Terminal._next_character_id t).
Proof.
  destruct (init_registry_spec _ _ _ Hinit) as (iw & ih & Hiw & Hih & Hspec).
  cbn zeta in Hspec.
  destruct Hspec as (Hcv & Hkept & Hfill & Hmap & Hn & Hadded & _).
  split; [assumption|].
  rewrite Hfill, Hmap, Hn, Hkept, <- Hcv. clear Hfill Hmap Hn Hkept.
  pose proof (fill_rows_spec (Terminal.config self) (Canvas.top (Terminal.canvas t))
                (Canvas.right (Terminal.canvas t))
                (Terminal.index_by_input_coord (filter (fits (Terminal.canvas t)) characters))
                (Terminal._next_character_id self)) as H.
  destruct (Terminal.fill_rows _ _ _ _) as [[fill by_coord] next]. exact H.
Qed.

Lemma constructed_input_NoDup :
  NoDup (map EffectCharacter.input_coord (Terminal._input_characters t)).
Proof.
  destruct (constructed_input_characters _ _ _ Hpositive Hinit) as [-> _].
  now apply NoDup_map_filter.
Qed.

Lemma constructed_input_in_canvas (ch : EffectCharacter.t) :
  ch ∈ Terminal._input_characters t ->
  ch ∈ characters /\
  Canvas.coord_is_in_canvas (Terminal.canvas t) (EffectCharacter.input_coord ch) = true.
Proof.
  destruct (constructed_input_characters _ _ _ Hpositive Hinit) as [-> Hfits].
  intros Hin. apply list_elem_of_filter in Hin as [Hfit Hin].
  split; [assumption|]. now apply Hfits.
Qed.

(** Every cell of the canvas is mapped to a character of its own
    coordinate, an input or a fill one. *)
Lemma constructed_cells (c : Coord) :
  Canvas.coord_is_in_canvas (Terminal.canvas t) c = true ->
  exists ch, Terminal.character_by_input_coord t !! c = Some ch /\
    EffectCharacter.input_coord ch = c /\
    ch ∈ Terminal._input_characters t ++ Terminal._fill_characters t.
Proof.
  intros Hin. destruct constructed_fill as [_ Hinv].
  destruct (constructed_bounds _ _ _ Hpositive Hinit) as (Hb & Hl & _ & _).
  apply coord_is_in_canvas_spec in Hin. rewrite Hb, Hl in Hin.
  assert (Hcell : 1 <= column c <= Canvas.right (Terminal.canvas t) /\
                  1 <= row c <= Canvas.top (Terminal.canvas t)) by lia.
  destruct (fill_covered _ _ _ _ _ _ Hinv c Hcell) as [ch Hch].
  cbn [fst snd] in Hch. exists ch. split; [assumption|].
  destruct (fill_origin _ _ _ _ _ _ Hinv c ch Hch) as [H0 | (_ & Hfill & Hcoord)];
    cbn [fst snd] in *.
  - apply index_by_input_coord_lookup in H0 as [Hk Hc].
    split; [assumption|]. apply elem_of_app. now left.
  - split; [assumption|]. apply elem_of_app. now right.
Qed.

(** The map holds nothing else. *)
Lemma constructed_map_lookup (c : Coord) (ch : EffectCharacter.t) :
  Terminal.character_by_input_coord t !! c = Some ch ->
  Canvas.coord_is_in_canvas (Terminal.canvas t) c = true /\
  EffectCharacter.input_coord ch = c /\
  ch ∈ Terminal._input_characters t ++ Terminal._fill_characters t.
Proof.
  intros Hch. destruct constructed_fill as [_ Hinv].
  destruct (constructed_bounds _ _ _ Hpositive Hinit) as (Hb & Hl & _ & _).
  destruct (fill_origin _ _ _ _ _ _ Hinv c ch Hch) as [H0 | (_ & Hfill & Hcoord)];
    cbn [fst snd] in *.
  - apply index_by_input_coord_lookup in H0 as [Hk Hc].
    split; [|split; [assumption | apply elem_of_app; now left]].
    rewrite <- Hc. now apply constructed_input_in_canvas.
  - split; [|split; [assumption | apply elem_of_app; now right]].
    destruct (fill_mapped _ _ _ _ _ _ Hinv ch Hfill) as (_ & _ & _ & Hx & Hy).
    apply coord_is_in_canvas_spec. rewrite Hb, Hl, <- Hcoord. lia.
Qed.

(** No two characters among the input and fill ones share a coordinate. *)
Lemma constructed_coords_NoDup :
  NoDup (map EffectCharacter.input_coord
             (Terminal._input_characters t ++ Terminal._fill_characters t)).
Proof.
  destruct constructed_fill as [_ Hinv].
  rewrite map_app. apply NoDup_app. split; [apply constructed_input_NoDup|].
  split; [|exact (fill_NoDup _ _ _ _ _ _ Hinv)].
  intros c Hin Hin'.
  apply list_elem_of_fmap in Hin as (ch & -> & Hin).
  apply list_elem_of_fmap in Hin' as (fc & Heq & Hfc).
  destruct (fill_mapped _ _ _ _ _ _ Hinv fc Hfc) as (_ & Hfree & _). cbn [fst snd] in *.
  rewrite <- Heq in Hfree.
  rewrite (index_by_input_coord_member _ ch constructed_input_NoDup Hin) in Hfree.
  discriminate.
Qed.

(** The ids of the registry are pairwise distinct and below the counter. *)
Lemma constructed_ids :
  NoDup (map EffectCharacter.character_id (registry t)) /\
  forall ch, ch ∈ registry t ->
    EffectCharacter.character_id ch < Terminal._next_character_id t.
Proof.
  destruct constructed_fill as [Hadded Hinv].
  pose proof (fill_ids _ _ _ _ _ _ Hinv) as Hfids.
  pose proof (fill_next _ _ _ _ _ _ Hinv) as Hfnext. cbn [fst snd] in *.
  unfold registry. rewrite Hadded, app_nil_r.
  assert (Hinput : forall ch, ch ∈ Terminal._input_characters t ->
            first <= EffectCharacter.character_id ch < Terminal._next_character_id self).
  { intros ch Hin. apply constructed_input_in_canvas in Hin as [Hin _].
    rewrite Hnext. apply elem_of_ids_from. rewrite <- Hids.
    apply list_elem_of_fmap. now exists ch. }
  assert (Hfill : forall ch, ch ∈ Terminal._fill_characters t ->
            Terminal._next_character_id self <= EffectCharacter.character_id ch
              < Terminal._next_character_id t).
  { intros ch Hin. rewrite Hfnext. apply elem_of_ids_from. rewrite <- Hfids.
    apply list_elem_of_fmap. now exists ch. }
  split.
  - rewrite map_app. apply NoDup_app. split; [|split].
    + destruct (constructed_input_characters _ _ _ Hpositive Hinit) as [-> _].
      apply NoDup_map_filter. rewrite Hids. apply NoDup_ids_from.
    + intros x Hin Hin'.
      apply list_elem_of_fmap in Hin as (ch & -> & Hin).
      apply list_elem_of_fmap in Hin' as (fc & Heq & Hfc).
      apply Hinput in Hin. apply Hfill in Hfc. lia.
    + rewrite Hfids. apply NoDup_ids_from.
  - intros ch Hin. apply elem_of_app in Hin as [Hin | Hin].
    + apply Hinput in Hin. pose proof (Zle_0_nat (length (Terminal._fill_characters t))). lia.
    + apply Hfill in Hin. lia.
Qed.

End ConstructedRegistry.

Lemma init_inv (input_data : string) (cfg : option TerminalConfig.t) (detected : Z * Z)
    (t : Terminal.t) :
  Terminal.init input_data cfg detected = Returned t ->
  exists self0 characters self1,
    Terminal.init_attributes input_data cfg detected = Returned self0 /\
    Terminal._decompose_input
      (TerminalConfig.xterm_colors (Terminal.config self0))
      (TerminalConfig.no_color (Terminal.config self0)) self0
      = Returned (characters, self1) /\
    Terminal.init_registry characters self1 = Returned t.
Proof.
  unfold Terminal.init. intros H.
  destruct (Terminal.init_attributes _ _ _) as [self0| |]; cbn [obind] in H;
    try discriminate.
  destruct (Terminal._decompose_input _ _ self0) as [[cs self1]| |] eqn:Hdec;
    cbn [obind] in H; try discriminate.
  exists self0, cs, self1. split; [reflexivity|]. split; assumption.
Qed.

(** The constructor starts the id counter at 0 and settles the requested
    height: one more than the number of lines when the terminal dimensions
    are ignored, else [canvas_height], or the detected height when that is
    0. *)
Lemma init_attributes_spec (input_data : string) (cfg : option TerminalConfig.t)
    (detected : Z * Z) (self0 : Terminal.t) :
  Terminal.init_attributes input_data cfg detected = Returned self0 ->
  Terminal._next_character_id self0 = 0 /\
  Terminal.config self0 = match cfg with None => TerminalConfig.default | Some c => c end /\
  Terminal._height self0
  = if TerminalConfig.ignore_terminal_dimensions (Terminal.config self0)
    then Z.of_nat (length (Py.splitlines (Terminal._input_data self0))) + 1
    else if TerminalConfig.canvas_height (Terminal.config self0) =? 0 then detected.2
         else TerminalConfig.canvas_height (Terminal.config self0).
Proof.
  unfold Terminal.init_attributes.
  set (config := match cfg with None => _ | Some c => c end).
  destruct (TerminalConfig.ignore_terminal_dimensions config) eqn:Hignore.
  - destruct (Py.max _) as [w| |]; cbn [obind]; try discriminate.
    intros H. injection H as <-. cbn. now rewrite Hignore.
  - destruct (TerminalConfig.canvas_width config =? 0) eqn:Hw;
      destruct (TerminalConfig.canvas_height config =? 0) eqn:Hh;
      cbn [orb obind]; intros H; injection H as <-; cbn; now rewrite Hignore, Hh.
Qed.

Lemma NoDup_map_eq {A B : Type} (f : A -> B) (l : list A) (x y : A) :
  NoDup (map f l) -> x ∈ l -> y ∈ l -> f x = f y -> x = y.
Proof.
  induction l as [|a l IH]; intros Hnd Hx Hy Heq; [inversion Hx|].
  cbn [map] in Hnd. apply NoDup_cons in Hnd as [Hnotin Hnd].
  apply elem_of_cons in Hx as [-> | Hx]; apply elem_of_cons in Hy as [-> | Hy].
  - reflexivity.
  - exfalso. apply Hnotin. rewrite Heq. apply list_elem_of_fmap. now exists y.
  - exfalso. apply Hnotin. rewrite <- Heq. apply list_elem_of_fmap. now exists x.
  - now apply IH.
Qed.

(** What holds of every terminal the constructor returns. *)
Lemma init_facts (input_data : string) (cfg : option TerminalConfig.t) (detected : Z * Z)
    (t : Terminal.t) :
  Terminal.init input_data cfg detected = Returned t ->
  (Canvas.bottom (Terminal.canvas t) = 1 /\ Canvas.left (Terminal.canvas t) = 1 /\
   1 <= Canvas.top (Terminal.canvas t) /\ 1 <= Canvas.right (Terminal.canvas t)) /\
  (forall c, Canvas.coord_is_in_canvas (Terminal.canvas t) c = true ->
     exists ch, Terminal.character_by_input_coord t !! c = Some ch /\
       EffectCharacter.input_coord ch = c /\
       ch ∈ Terminal._input_characters t ++ Terminal._fill_characters t) /\
  (forall c ch, Terminal.character_by_input_coord t !! c = Some ch ->
     Canvas.coord_is_in_canvas (Terminal.canvas t) c = true /\
     EffectCharacter.input_coord ch = c /\
     ch ∈ Terminal._input_characters t ++ Terminal._fill_characters t) /\
  NoDup (map EffectCharacter.input_coord
             (Terminal._input_characters t ++ Terminal._fill_characters t)) /\
  NoDup (map EffectCharacter.character_id (registry t)) /\
  (forall ch, ch ∈ registry t ->
     EffectCharacter.character_id ch < Terminal._next_character_id t) /\
  Terminal._added_characters t = [].
Proof.
  intros H. apply init_inv in H as (self0 & cs & self1 & Hattr & Hdec & Hreg).
  apply init_attributes_spec in Hattr as (Hzero & _).
  apply decompose_input_characters in Hdec as (Hpos & Hnd & Hids & Hnext & _).
  rewrite Hzero in Hids, Hnext.
  split; [eapply constructed_bounds; eassumption|].
  split; [eapply constructed_cells; eassumption|].
  split; [eapply constructed_map_lookup; eassumption|].
  split; [eapply constructed_coords_NoDup; eassumption|].
  assert (Hall : NoDup (map EffectCharacter.character_id (registry t)) /\
                 forall ch, ch ∈ registry t ->
                   EffectCharacter.character_id ch < Terminal._next_character_id t)
    by (eapply constructed_ids; eassumption).
  destruct Hall as [Hn Hlt].
  split; [assumption|]. split; [assumption|].
  eapply constructed_fill; eassumption.
Qed.

(** C10: the canvas of every terminal the constructor returns has
    [bottom = 1], [left = 1], [top >= 1] and [right >= 1]; hence the test
    the compositor makes on the zero-based row and column of a coordinate
    agrees with [coord_is_in_canvas] on the coordinate. *)
Theorem constructed_canvas_is_one_based (input_data : string)
    (cfg : option TerminalConfig.t) (detected : Z * Z) (t : Terminal.t) :
  Terminal.init input_data cfg detected = Returned t ->
  Canvas.bottom (Terminal.canvas t) = 1 /\
  Canvas.left (Terminal.canvas t) = 1 /\
  Canvas.top (Terminal.canvas t) >= 1 /\
  Canvas.right (Terminal.canvas t) >= 1 /\
  forall c : Coord,
    Terminal.in_bounds (Terminal.canvas t) (row c - 1) (column c - 1)
    = Canvas.coord_is_in_canvas (Terminal.canvas t) c.
Proof.
  intros H. destruct (init_facts _ _ _ _ H) as ((Hb & Hl & Ht & Hr) & _).
  repeat split; try lia.
  intros c. unfold Terminal.in_bounds, Canvas.coord_is_in_canvas. rewrite Hb, Hl.
  destruct (Z.leb_spec 1 (column c)), (Z.leb_spec (column c) (Canvas.right (Terminal.canvas t))),
    (Z.leb_spec 1 (row c)), (Z.leb_spec (row c) (Canvas.top (Terminal.canvas t))),
    (Z.leb_spec 0 (row c - 1)), (Z.ltb_spec (row c - 1) (Canvas.top (Terminal.canvas t))),
    (Z.leb_spec 0 (column c - 1)),
    (Z.ltb_spec (column c - 1) (Canvas.right (Terminal.canvas t)));
    cbn; try reflexivity; lia.
Qed.

Lemma constructed_canvas_is_one_based_witness :
  exists t,
    Terminal.init example_input None (80, 24) = Returned t /\
    Canvas.bottom (Terminal.canvas t) = 1 /\
    Canvas.left (Terminal.canvas t) = 1 /\
    Canvas.top (Terminal.canvas t) >= 1 /\
    Canvas.right (Terminal.canvas t) >= 1 /\
    forall c : Coord,
      Terminal.in_bounds (Terminal.canvas t) (row c - 1) (column c - 1)
      = Canvas.coord_is_in_canvas (Terminal.canvas t) c.
Proof.
  eexists. split.
  - vm_compute. reflexivity.
  - apply (constructed_canvas_is_one_based example_input None (80, 24)).
    vm_compute. reflexivity.
Defined.

(** Without an input character the constructor raises: [max] is given an
    empty list. *)
Lemma init_registry_raises (self : Terminal.t) :
  Terminal.init_registry [] self = Raised ValueError.
Proof. reflexivity. Qed.

(** C5: once the input is decomposed into at least one character, the
    constructor returns a terminal whose canvas has
    [top = max (min requested_height input_height) 1] and
    [right = input_width], where the input height and width are the
    largest row and column of a decomposed character; the input characters
    it keeps are exactly the decomposed ones that lie in that canvas, in
    their order, and the others are dropped without an error. *)
Theorem canvas_size_and_discarded_characters (input_data : string)
    (cfg : option TerminalConfig.t) (detected : Z * Z)
    (self0 self1 : Terminal.t) (decomposed : list EffectCharacter.t) :
  Terminal.init_attributes input_data cfg detected = Returned self0 ->
  Terminal._decompose_input
    (TerminalConfig.xterm_colors (Terminal.config self0))
    (TerminalConfig.no_color (Terminal.config self0)) self0
    = Returned (decomposed, self1) ->
  decomposed <> [] ->
  exists (t : Terminal.t) (input_width input_height : Z),
    Terminal.init input_data cfg detected = Returned t /\
    Py.max (map (fun ch => column (EffectCharacter.input_coord ch)) decomposed)
      = Returned input_width /\
    Py.max (map (fun ch => row (EffectCharacter.input_coord ch)) decomposed)
      = Returned input_height /\
    Terminal._height t = Terminal._height self0 /\
    Canvas.top (Terminal.canvas t) = Z.max (Z.min (Terminal._height t) input_height) 1 /\
    Canvas.right (Terminal.canvas t) = input_width /\
    Terminal._input_characters t = filter (fits (Terminal.canvas t)) decomposed /\
    (forall ch, ch ∈ decomposed ->
       (ch ∈ Terminal._input_characters t <->
        Canvas.coord_is_in_canvas (Terminal.canvas t) (EffectCharacter.input_coord ch) = true)) /\
    (forall ch, ch ∈ Terminal._input_characters t ->
       ch ∈ decomposed /\
       Canvas.coord_is_in_canvas (Terminal.canvas t) (EffectCharacter.input_coord ch) = true).
Proof.
  intros Hattr Hdec Hne.
  destruct (init_registry_returns decomposed self1 Hne) as [t Hreg].
  pose proof (decompose_input_characters _ _ _ _ _ Hdec) as (Hpos & Hnd & _ & _ & Hh & _).
  destruct (constructed_canvas decomposed self1 t Hpos Hreg)
    as (iw & ih & Hiw & Hih & Hiw1 & Hih1 & _ & _ & Hheight & Hcv).
  destruct (constructed_input_characters decomposed self1 t Hpos Hreg) as [Hkept Hfits].
  exists t, iw, ih.
  split; [unfold Terminal.init; rewrite Hattr; cbn [obind]; rewrite Hdec; exact Hreg|].
  split; [assumption|]. split; [assumption|].
  split; [congruence|].
  split; [rewrite Hcv; cbn; lia|].
  split; [rewrite Hcv; reflexivity|].
  split; [assumption|]. split.
  - intros ch Hin. rewrite Hkept, list_elem_of_filter, (Hfits ch Hin). tauto.
  - intros ch Hin. rewrite Hkept in Hin. apply list_elem_of_filter in Hin as [Hfit Hin].
    split; [assumption|]. now apply Hfits.
Qed.

Lemma canvas_size_and_discarded_characters_witness :
  exists (self0 self1 : Terminal.t) (decomposed : list EffectCharacter.t)
         (t : Terminal.t) (input_width input_height : Z),
    Terminal.init_attributes example_input
      (Some (TerminalConfig.mk 4 false false false 80 1 false)) (80, 24) = Returned self0 /\
    Terminal._decompose_input false false self0 = Returned (decomposed, self1) /\
    length decomposed = 3%nat /\
    Terminal.init example_input
      (Some (TerminalConfig.mk 4 false false false 80 1 false)) (80, 24) = Returned t /\
    Py.max (map (fun ch => column (EffectCharacter.input_coord ch)) decomposed)
      = Returned input_width /\
    Py.max (map (fun ch => row (EffectCharacter.input_coord ch)) decomposed)
      = Returned input_height /\
    Terminal._height t = Terminal._height self0 /\
    Canvas.top (Terminal.canvas t) = Z.max (Z.min (Terminal._height t) input_height) 1 /\
    Canvas.right (Terminal.canvas t) = input_width /\
    Terminal._input_characters t = filter (fits (Terminal.canvas t)) decomposed /\
    (forall ch, ch ∈ decomposed ->
       (ch ∈ Terminal._input_characters t <->
        Canvas.coord_is_in_canvas (Terminal.canvas t) (EffectCharacter.input_coord ch) = true)) /\
    (forall ch, ch ∈ Terminal._input_characters t ->
       ch ∈ decomposed /\
       Canvas.coord_is_in_canvas (Terminal.canvas t) (EffectCharacter.input_coord ch) = true).
Proof.
  set (cfg := TerminalConfig.mk 4 false false false 80 1 false).
  set (self0 := Terminal.mk cfg example_input (80, 24) 80 1 0 [] [] 0 0
                  (Canvas.init_default 0 0) ∅ [] [] []).
  assert (Hattr : Terminal.init_attributes example_input (Some cfg) (80, 24)
                  = Returned self0) by reflexivity.
  assert (Hdec : exists decomposed self1,
            Terminal._decompose_input false false self0 = Returned (decomposed, self1) /\
            length decomposed = 3%nat).
  { eexists _, _. split; [vm_compute; reflexivity | reflexivity]. }
  destruct Hdec as (decomposed & self1 & Hdec & Hlen).
  assert (Hne : decomposed <> []) by (intros ->; discriminate Hlen).
  destruct (canvas_size_and_discarded_characters _ _ _ _ _ _ Hattr Hdec Hne)
    as (t & iw & ih & H).
  exists self0, self1, decomposed, t, iw, ih.
  split; [exact Hattr|]. split; [exact Hdec|]. split; [exact Hlen|]. exact H.
Defined.

(** ** add_character *)

(** One call: the new character is appended to the added characters with
    the counter's value as id, the counter moves on by one, and nothing
    else changes. *)
Lemma add_character_spec (symbol : string) (coord : Coord) (t : Terminal.t) :
  let r := Terminal.add_character symbol coord t in
  EffectCharacter.character_id r.1 = Terminal._next_character_id t /\
  EffectCharacter.symbol r.1 = symbol /\
  EffectCharacter.input_coord r.1 = coord /\
  Terminal._added_characters r.2 = Terminal._added_characters t ++ [r.1] /\
  Terminal._next_character_id r.2 = Terminal._next_character_id t + 1 /\
  Terminal.character_by_input_coord r.2 = Terminal.character_by_input_coord t /\
  Terminal._input_characters r.2 = Terminal._input_characters t /\
  Terminal._fill_characters r.2 = Terminal._fill_characters t /\
  Terminal.canvas r.2 = Terminal.canvas t.
Proof. destruct coord. cbn. repeat split; reflexivity. Qed.

Lemma add_characters_cons (symbol : string) (coord : Coord) (calls : list (string * Coord))
    (t : Terminal.t) :
  Terminal.add_characters ((symbol, coord) :: calls) t
  = ((Terminal.add_character symbol coord t).1
       :: (Terminal.add_characters calls (Terminal.add_character symbol coord t).2).1,
     (Terminal.add_characters calls (Terminal.add_character symbol coord t).2).2).
Proof.
  cbn [Terminal.add_characters].
  destruct (Terminal.add_character symbol coord t) as [ch t']. cbn [fst snd].
  now destruct (Terminal.add_characters calls t').
Qed.

(** A run of calls, on any terminal. *)
Lemma add_characters_spec (calls : list (string * Coord)) :
  forall t : Terminal.t,
  let r := Terminal.add_characters calls t in
  Terminal.character_by_input_coord r.2 = Terminal.character_by_input_coord t /\
  Terminal._input_characters r.2 = Terminal._input_characters t /\
  Terminal._fill_characters r.2 = Terminal._fill_characters t /\
  Terminal.canvas r.2 = Terminal.canvas t /\
  Terminal._added_characters r.2 = Terminal._added_characters t ++ r.1 /\
  length r.1 = length calls /\
  map (fun ch => (EffectCharacter.symbol ch, EffectCharacter.input_coord ch)) r.1 = calls /\
  map EffectCharacter.character_id r.1
    = ids_from (Terminal._next_character_id t) (length calls) /\
  Terminal._next_character_id r.2 = Terminal._next_character_id t + Z.of_nat (length calls).
Proof.
  induction calls as [|[symbol coord] calls IH]; intros t.
  - cbn. rewrite app_nil_r. repeat split; try reflexivity. lia.
  - cbn zeta. rewrite add_characters_cons. cbn [fst snd].
    destruct (add_character_spec symbol coord t)
      as (Hid & Hsym & Hcoord & Hadded & Hnext & Hmap & Hin & Hfill & Hcv).
    cbn zeta in *.
    destruct (IH (Terminal.add_character symbol coord t).2)
      as (IHmap & IHin & IHfill & IHcv & IHadded & IHlen & IHcalls & IHids & IHnext).
    cbn zeta in *.
    set (r1 := Terminal.add_character symbol coord t) in *.
    set (r2 := Terminal.add_characters calls r1.2) in *.
    split; [congruence|]. split; [congruence|]. split; [congruence|].
    split; [congruence|].
    split; [rewrite IHadded, Hadded, <- app_assoc; reflexivity|].
    split; [cbn [length]; congruence|].
    split; [cbn [map]; congruence|].
    split; [|rewrite IHnext, Hnext; cbn [length]; lia].
    cbn [map length]. rewrite IHids, Hid, Hnext.
    change (S (length calls)) with (1 + length calls)%nat.
    rewrite ids_from_app. cbn. f_equal; lia.
Qed.

(** C2: in every terminal the constructor returns,
    [character_by_input_coord] maps each cell of the canvas to one
    character, and that character is the only input or fill character with
    the cell as input coordinate; a run of [add_character] calls leaves the
    map as it is, appends one character per call to the added characters,
    and gives them the ids from the counter on, which lie above the id of
    every character of the registry, so that all ids stay pairwise
    distinct. *)
Theorem coordinate_map_total_and_added_ids_fresh (input_data : string)
    (cfg : option TerminalConfig.t) (detected : Z * Z) (t : Terminal.t) :
  Terminal.init input_data cfg detected = Returned t ->
  (forall x y : Z,
     1 <= x <= Canvas.right (Terminal.canvas t) ->
     1 <= y <= Canvas.top (Terminal.canvas t) ->
     exists ch,
       Terminal.character_by_input_coord t !! mkCoord x y = Some ch /\
       EffectCharacter.input_coord ch = mkCoord x y /\
       ch ∈ Terminal._input_characters t ++ Terminal._fill_characters t /\
       forall ch', ch' ∈ Terminal._input_characters t ++ Terminal._fill_characters t ->
         EffectCharacter.input_coord ch' = mkCoord x y -> ch' = ch) /\
  (forall calls : list (string * Coord),
     let r := Terminal.add_characters calls t in
     Terminal.character_by_input_coord r.2 = Terminal.character_by_input_coord t /\
     Terminal._added_characters r.2 = Terminal._added_characters t ++ r.1 /\
     length r.1 = length calls /\
     map (fun ch => (EffectCharacter.symbol ch, EffectCharacter.input_coord ch)) r.1 = calls /\
     map EffectCharacter.character_id r.1
       = ids_from (Terminal._next_character_id t) (length calls) /\
     (forall old, old ∈ registry t ->
        EffectCharacter.character_id old < Terminal._next_character_id t) /\
     (forall ch old, ch ∈ r.1 -> old ∈ registry t ->
        EffectCharacter.character_id ch <> EffectCharacter.character_id old) /\
     NoDup (map EffectCharacter.character_id (registry r.2))).
Proof.
  intros H.
  destruct (init_facts _ _ _ _ H)
    as ((Hb & Hl & _ & _) & Hcells & _ & Hcoords & Hids & Hbelow & _).
  split.
  - intros x y Hx Hy.
    destruct (Hcells (mkCoord x y)) as (ch & Hch & Hcoord & Hin).
    { apply coord_is_in_canvas_spec. cbn. lia. }
    exists ch. repeat split; try assumption.
    intros ch' Hin' Hcoord'.
    apply (NoDup_map_eq EffectCharacter.input_coord _ ch' ch Hcoords Hin' Hin). congruence.
  - intros calls r.
    destruct (add_characters_spec calls t)
      as (Hmap & Hinput & Hfill & _ & Hadded & Hlen & Hcalls & Hnew & _).
    fold r in Hmap, Hinput, Hfill, Hadded, Hlen, Hcalls, Hnew.
    assert (Hfresh : forall ch, ch ∈ r.1 ->
              Terminal._next_character_id t <= EffectCharacter.character_id ch).
    { intros ch Hin.
      assert (Hid : EffectCharacter.character_id ch
                    ∈ ids_from (Terminal._next_character_id t) (length calls)).
      { rewrite <- Hnew. apply list_elem_of_fmap. now exists ch. }
      apply elem_of_ids_from in Hid. lia. }
    repeat split; try assumption.
    + intros ch old Hin Hold. apply Hfresh in Hin. apply Hbelow in Hold. lia.
    + assert (Hreg : registry r.2 = registry t ++ r.1).
      { unfold registry. rewrite Hinput, Hfill, Hadded, !app_assoc. reflexivity. }
      rewrite Hreg, map_app. apply NoDup_app. split; [assumption|]. split.
      * intros x Hin Hin'.
        apply list_elem_of_fmap in Hin as (old & -> & Hold).
        apply list_elem_of_fmap in Hin' as (ch & Heq & Hch).
        apply Hfresh in Hch. apply Hbelow in Hold. lia.
      * rewrite Hnew. apply NoDup_ids_from.
Qed.

Lemma coordinate_map_total_and_added_ids_fresh_witness :
  exists t,
    Terminal.init example_input None (80, 24) = Returned t /\
    (exists ch, Terminal.character_by_input_coord t !! mkCoord 2 1 = Some ch /\
                EffectCharacter.input_coord ch = mkCoord 2 1) /\
    let r := Terminal.add_characters [("*", mkCoord 9 9); ("*", mkCoord 9 9)] t in
    Terminal.character_by_input_coord r.2 = Terminal.character_by_input_coord t /\
    length (Terminal._added_characters r.2) = 2%nat /\
    NoDup (map EffectCharacter.character_id (registry r.2)).
Proof.
  eexists. split; [vm_compute; reflexivity|].
  match goal with
  | |- context [Terminal.character_by_input_coord ?t0 !! _] =>
      pose proof (coordinate_map_total_and_added_ids_fresh example_input None (80, 24) t0
                    ltac:(vm_compute; reflexivity)) as [Hcells Hadd]
  end.
  split.
  - destruct (Hcells 2 1 ltac:(cbn; lia) ltac:(cbn; lia)) as (ch & Hch & Hcoord & _).
    exists ch. split; [exact Hch | exact Hcoord].
  - intros r. destruct (Hadd [("*", mkCoord 9 9); ("*", mkCoord 9 9)])
      as (Hmap & Hadded & Hlen & _ & _ & _ & _ & Hnodup).
    split; [exact Hmap|]. split; [reflexivity | exact Hnodup].
Defined.

(** ** Groupings *)

Section Sorting.

Context {A K : Type} (leb : K -> K -> bool) (key : A -> K).

Lemma insert_by_Permutation (x : A) (l : list A) :
  Permutation (Py.insert_by leb key x l) (x :: l).
Proof.
  induction l as [|y l IH]; cbn; [reflexivity|].
  destruct (leb (key x) (key y)); [reflexivity|].
  rewrite IH. apply perm_swap.
Qed.

(** Sorting rearranges and neither drops nor repeats. *)
Lemma sort_by_Permutation (l : list A) : Permutation (Py.sort_by leb key l) l.
Proof.
  induction l as [|x l IH]; cbn; [reflexivity|].
  unfold Py.sort_by in IH. rewrite insert_by_Permutation. now constructor.
Qed.

End Sorting.

Lemma concat_Permutation {A : Type} (l l' : list (list A)) :
  Permutation l l' -> Permutation (concat l) (concat l').
Proof.
  induction 1; cbn.
  - reflexivity.
  - now apply Permutation_app_head.
  - rewrite !app_assoc. apply Permutation_app_tail, Permutation_app_comm.
  - etransitivity; eassumption.
Qed.

Lemma NoDup_range (a b : Z) : NoDup (Py.range a b).
Proof.
  unfold Py.range. apply NoDup_fmap_2; [|apply NoDup_ListNoDup, seq_NoDup].
  intros i j H. lia.
Qed.

Section GroupsByIndex.

Variable key : EffectCharacter.t -> Z.

(** Leaving out the empty groups does not change what the groups hold. *)
Lemma concat_groups_by_index (indices : list Z) (all : list EffectCharacter.t) :
  concat (Terminal.groups_by_index key indices all)
  = concat (map (fun i => filter (fun ch => key ch = i) all) indices).
Proof.
  induction indices as [|i indices IH]; [reflexivity|].
  cbn [Terminal.groups_by_index map concat].
  destruct (filter _ all) as [|ch group]; cbn [concat]; now rewrite IH.
Qed.

Lemma groups_cons (indices : list Z) (a : EffectCharacter.t) (rest : list EffectCharacter.t) :
  NoDup indices ->
  Permutation
    (concat (map (fun i => filter (fun ch => key ch = i) (a :: rest)) indices))
    ((if decide (key a ∈ indices) then [a] else [])
       ++ concat (map (fun i => filter (fun ch => key ch = i) rest) indices)).
Proof.
  induction indices as [|i indices IH]; intros Hnd.
  - cbn. destruct (decide _) as [Hin|]; [inversion Hin | reflexivity].
  - apply NoDup_cons in Hnd as [Hi Hnd]. specialize (IH Hnd).
    cbn [map concat]. rewrite filter_cons, IH.
    destruct (decide (key a = i)) as [Heq | Hne];
      destruct (decide (key a ∈ indices)) as [Hin | Hnotin];
      destruct (decide (key a ∈ i :: indices)) as [Hin' | Hnotin'].
    + exfalso. apply Hi. now rewrite <- Heq.
    + exfalso. apply Hi. now rewrite <- Heq.
    + reflexivity.
    + exfalso. apply Hnotin'. rewrite Heq. apply list_elem_of_here.
    + cbn [app]. symmetry. apply Permutation_middle.
    + exfalso. apply Hnotin'. now apply list_elem_of_further.
    + exfalso. apply elem_of_cons in Hin' as [? | ?]; contradiction.
    + reflexivity.
Qed.

(** The groups hold, between them, the characters whose key is one of the
    indices, each once. *)
Lemma groups_by_index_Permutation (indices : list Z) (all : list EffectCharacter.t) :
  NoDup indices ->
  Permutation (concat (Terminal.groups_by_index key indices all))
              (filter (fun ch => key ch ∈ indices) all).
Proof.
  intros Hnd. rewrite concat_groups_by_index.
  induction all as [|a rest IH].
  - induction indices as [|i indices IHi]; [reflexivity|].
    apply NoDup_cons in Hnd as [_ Hnd]. now apply IHi.
  - rewrite (groups_cons indices a rest Hnd), IH, filter_cons.
    destruct (decide (key a ∈ indices)); reflexivity.
Qed.

End GroupsByIndex.

Section GroupsByDistance.

Variable cv : Canvas.t.

Implicit Types (m : gmap Z (list EffectCharacter.t)) (ch : EffectCharacter.t).

Lemma record_distance_held m ch :
  Permutation (held (Terminal.record_distance cv m ch)) (held m ++ [ch]).
Proof.
  unfold held, Terminal.record_distance.
  set (d := Terminal.distance_to_center cv ch).
  destruct (m !! d) as [l|] eqn:Hd.
  - rewrite <- (insert_delete_id m d l Hd) at 1.
    rewrite alter_insert_eq.
    rewrite (map_to_list_insert (delete d m) d (l ++ [ch])) by apply lookup_delete_eq.
    rewrite <- (map_to_list_delete m d l Hd).
    cbn [map snd concat]. rewrite <- !app_assoc.
    apply Permutation_app_head, Permutation_app_comm.
  - rewrite alter_insert_eq.
    rewrite (map_to_list_insert m d ([] ++ [ch])) by assumption.
    cbn [map snd concat app]. apply Permutation_cons_append.
Qed.

Lemma fold_record_distance_held (all : list EffectCharacter.t) :
  forall m, Permutation (held (fold_left (Terminal.record_distance cv) all m)) (held m ++ all).
Proof.
  induction all as [|ch all IH]; intros m; cbn [fold_left].
  - now rewrite app_nil_r.
  - rewrite IH, record_distance_held, <- app_assoc. reflexivity.
Qed.

Lemma lookup_keys m :
  map (fun d => default [] (m !! d)) (map fst (map_to_list m)) = map snd (map_to_list m).
Proof.
  rewrite map_map. apply map_ext_in. intros [d l] Hin. cbn.
  apply list_elem_of_In, elem_of_map_to_list in Hin. now rewrite Hin.
Qed.

(** The diamonds hold every character, each once. *)
Lemma groups_by_distance_Permutation (reverse : bool) (all : list EffectCharacter.t) :
  Permutation (concat (Terminal.groups_by_distance cv reverse all)) all.
Proof.
  unfold Terminal.groups_by_distance, Terminal.sorted_keys.
  set (m := fold_left (Terminal.record_distance cv) all ∅).
  rewrite (concat_Permutation _ (map snd (map_to_list m))).
  - change (concat (map snd (map_to_list m))) with (held m).
    subst m. rewrite fold_record_distance_held. unfold held.
    now rewrite map_to_list_empty.
  - rewrite <- lookup_keys. apply Permutation_map, sort_by_Permutation.
Qed.

End GroupsByDistance.

Lemma filter_range_Permutation (key : EffectCharacter.t -> Z) (lo hi : Z)
    (P : EffectCharacter.t -> Prop) `{forall ch, Decision (P ch)}
    (all sorted : list EffectCharacter.t) :
  Permutation sorted all ->
  (forall ch, P ch <-> lo <= key ch < hi) ->
  Permutation (concat (Terminal.groups_by_index key (Py.range lo hi) sorted))
              (filter P all).
Proof.
  intros Hperm HP.
  rewrite (groups_by_index_Permutation key _ sorted (NoDup_range lo hi)).
  rewrite Hperm. erewrite list_filter_iff; [reflexivity|].
  intros ch. cbn. rewrite elem_of_range. symmetry. apply HP.
Qed.

Lemma filter_all {A : Type} (P : A -> Prop) `{forall x, Decision (P x)} (l : list A) :
  (forall x, P x) -> filter P l = l.
Proof.
  intros HP. induction l as [|a l IH]; [reflexivity|].
  rewrite filter_cons_True by apply HP. now rewrite IH.
Qed.

Lemma concat_rev_Permutation {A : Type} (l : list (list A)) :
  Permutation (concat (List.rev l)) (concat l).
Proof. apply concat_Permutation. symmetry. apply Permutation_rev. Qed.

(** For each of the ten groupings, the groups hold between them exactly the
    requested characters the grouping reaches, each once. *)
Lemma get_characters_grouped_Permutation (g : Terminal.CharacterGroup)
    (input_characters fill_chars added_chars : bool) (t : Terminal.t) :
  exists groups,
    (Terminal.get_characters_grouped (Terminal.VGroup g)
       input_characters fill_chars added_chars t).1 = Returned groups /\
    Permutation (concat groups)
      (filter (reached g (Terminal.canvas t))
              (Terminal.requested_characters input_characters fill_chars added_chars t)).
Proof.
  unfold Terminal.get_characters_grouped. cbn [fst].
  set (all := Terminal.requested_characters _ _ _ t).
  set (sorted := Py.sort_by Py.pair_leb Terminal.bottom_up_key all).
  assert (Hsorted : Permutation sorted all) by apply sort_by_Permutation.
  destruct g; eexists; (split; [reflexivity|]);
    try rewrite concat_rev_Permutation;
    try (apply filter_range_Permutation; [exact Hsorted | intros ch; cbn; lia]).
  - rewrite groups_by_distance_Permutation, Hsorted.
    rewrite filter_all; [reflexivity | intros ch; exact I].
  - rewrite groups_by_distance_Permutation, Hsorted.
    rewrite filter_all; [reflexivity | intros ch; exact I].
Qed.

(** The input and fill characters of a constructed terminal lie in its
    canvas. *)
Lemma init_characters_in_canvas (input_data : string) (cfg : option TerminalConfig.t)
    (detected : Z * Z) (t : Terminal.t) (ch : EffectCharacter.t) :
  Terminal.init input_data cfg detected = Returned t ->
  ch ∈ Terminal._input_characters t ++ Terminal._fill_characters t ->
  Canvas.coord_is_in_canvas (Terminal.canvas t) (EffectCharacter.input_coord ch) = true.
Proof.
  intros H Hin. apply init_inv in H as (self0 & cs & self1 & Hattr & Hdec & Hreg).
  apply decompose_input_characters in Hdec as (Hpos & Hnd & _).
  apply elem_of_app in Hin as [Hin | Hin].
  - eapply constructed_input_in_canvas; eassumption.
  - assert (Hfill : Terminal._added_characters t = [] /\
              fill_inv (Canvas.top (Terminal.canvas t)) (Canvas.right (Terminal.canvas t))
                (Terminal.index_by_input_coord (Terminal._input_characters t))
                (Terminal._next_character_id self1)
                (fun c => 1 <= column c <= Canvas.right (Terminal.canvas t) /\
                          1 <= row c <= Canvas.top (Terminal.canvas t))
                (Terminal._fill_characters t, Terminal.character_by_input_coord t,
                 Terminal._next_character_id t))
      by (eapply constructed_fill; eassumption).
    destruct Hfill as [_ Hinv].
    destruct (fill_mapped _ _ _ _ _ _ Hinv ch Hin) as (_ & _ & _ & Hx & Hy).
    assert (Hbounds : Canvas.bottom (Terminal.canvas t) = 1 /\
                      Canvas.left (Terminal.canvas t) = 1 /\
                      1 <= Canvas.top (Terminal.canvas t) /\
                      1 <= Canvas.right (Terminal.canvas t))
      by (eapply constructed_bounds; eassumption).
    destruct Hbounds as (Hb & Hl & _).
    apply coord_is_in_canvas_spec. rewrite Hb, Hl. lia.
Qed.

(** On the input and fill characters of a constructed terminal every
    grouping is complete: the groups hold the requested characters, each
    once. *)
Lemma grouped_input_and_fill_complete (input_data : string)
    (cfg : option TerminalConfig.t) (detected : Z * Z) (t : Terminal.t)
    (g : Terminal.CharacterGroup) (input_characters fill_chars : bool) :
  Terminal.init input_data cfg detected = Returned t ->
  exists groups,
    (Terminal.get_characters_grouped (Terminal.VGroup g)
       input_characters fill_chars false t).1 = Returned groups /\
    Permutation (concat groups)
      (Terminal.requested_characters input_characters fill_chars false t) /\
    NoDup (map EffectCharacter.character_id (concat groups)).
Proof.
  intros H.
  destruct (get_characters_grouped_Permutation g input_characters fill_chars false t)
    as (groups & Hgroups & Hperm).
  exists groups. split; [assumption|].
  destruct (init_facts _ _ _ _ H) as ((Hb & Hl & Ht & Hr) & _).
  assert (Hsub : forall ch,
            ch ∈ Terminal.requested_characters input_characters fill_chars false t ->
            ch ∈ Terminal._input_characters t ++ Terminal._fill_characters t).
  { intros ch. unfold Terminal.requested_characters. rewrite app_nil_r, !elem_of_app.
    destruct input_characters, fill_chars; rewrite ?elem_of_nil; tauto. }
  assert (Hall : filter (reached g (Terminal.canvas t))
                   (Terminal.requested_characters input_characters fill_chars false t)
                 = Terminal.requested_characters input_characters fill_chars false t).
  { generalize dependent (Terminal.requested_characters input_characters fill_chars false t).
    intros l _ Hl'. induction l as [|a l IH]; [reflexivity|].
    rewrite filter_cons_True.
    - rewrite IH; [reflexivity|]. intros ch Hch. apply Hl'. now apply list_elem_of_further.
    - pose proof (init_characters_in_canvas _ _ _ _ a H (Hl' a (list_elem_of_here _ _)))
        as Hin.
      apply coord_is_in_canvas_spec in Hin. rewrite Hb, Hl in Hin.
      unfold Terminal.column_of, Terminal.row_of.
      destruct g; cbn; unfold Terminal.column_of, Terminal.row_of; try exact I; lia. }
  rewrite Hall in Hperm. split; [assumption|].
  destruct (init_facts _ _ _ _ H) as (_ & _ & _ & _ & Hids & _ & Hadded).
  unfold registry in Hids. rewrite Hadded, app_nil_r in Hids.
  rewrite (Permutation_map EffectCharacter.character_id Hperm).
  - unfold Terminal.requested_characters. rewrite app_nil_r.
    rewrite map_app in Hids. apply NoDup_app in Hids as (Hi & Hdisj & Hf).
    destruct input_characters, fill_chars; cbn [app]; rewrite ?app_nil_r;
      try assumption; [|constructor].
    rewrite map_app. apply NoDup_app. auto.
Qed.

(** C1, where the code departs from it: on the terminal of ["AB\nC"] (a
    canvas of two columns and two rows) with a character added at column 5,
    the column grouping of the input and added characters returns the three
    input characters only; the added one, which was requested, is in none
    of the groups, while the diamond grouping of the same request holds all
    four. *)
Theorem grouped_columns_omit_added_character_outside_canvas :
  exists (t t' : Terminal.t) (star : EffectCharacter.t)
         (columns diamonds : list (list EffectCharacter.t)),
    Terminal.init example_input None (80, 24) = Returned t /\
    Canvas.right (Terminal.canvas t) = 2 /\
    Terminal.add_character "*" (mkCoord 5 1) t = (star, t') /\
    EffectCharacter.character_id star = 4 /\
    map EffectCharacter.character_id (Terminal.requested_characters true false true t')
      = [0; 1; 2; 4] /\
    (Terminal.get_characters_grouped (Terminal.VGroup Terminal.COLUMN_LEFT_TO_RIGHT)
       true false true t').1 = Returned columns /\
    map (map EffectCharacter.character_id) columns = [[2; 0]; [1]] /\
    length (concat columns) = 3%nat /\
    (Terminal.get_characters_grouped (Terminal.VGroup Terminal.CENTER_TO_OUTSIDE_DIAMONDS)
       true false true t').1 = Returned diamonds /\
    map (map EffectCharacter.character_id) diamonds = [[2]; [0]; [1]; [4]].
Proof.
  eexists _, _, _, _, _.
  split; [vm_compute; reflexivity|].
  split; [reflexivity|].
  split; [vm_compute; reflexivity|].
  split; [reflexivity|].
  split; [vm_compute; reflexivity|].
  split; [vm_compute; reflexivity|].
  split; [reflexivity|].
  split; [reflexivity|].
  split; [vm_compute; reflexivity|].
  reflexivity.
Qed.

(** * Further properties *)

(** ** Canvas: its center and the points drawn inside it *)

Lemma half_bounds (n : Z) : 1 <= n -> 0 <= n / 2 <= n.
Proof.
  intros H. split; [apply Z.div_pos; lia|].
  apply Z.div_le_upper_bound; lia.
Qed.

(** X1: the center of a canvas with at least one row and one column, whose
    bottom and left are at most 1 (the defaults among them), lies in the
    canvas. *)
Theorem canvas_center_in_canvas (top right bottom left : Z) :
  1 <= top -> 1 <= right -> bottom <= 1 -> left <= 1 ->
  Canvas.coord_is_in_canvas (Canvas.init top right bottom left)
    (Canvas.center (Canvas.init top right bottom left)) = true.
Proof.
  intros Ht Hr Hb Hl. apply coord_is_in_canvas_spec. cbn.
  pose proof (half_bounds top Ht). pose proof (half_bounds right Hr). lia.
Qed.

Lemma canvas_center_in_canvas_witness :
  Canvas.coord_is_in_canvas (Canvas.init 1 7 1 1) (Canvas.center (Canvas.init 1 7 1 1)) = true.
Proof. apply canvas_center_in_canvas; lia. Defined.

(** X2: on a canvas whose bottom and left are at most 1, [random_coord]
    without [outside_scope] returns, for every outcome of its two draws, a
    coordinate of the canvas. *)
Theorem random_coord_inside_is_inside (cv : Canvas.t) (d : Canvas.draws) :
  Canvas.bottom cv <= 1 -> Canvas.left cv <= 1 ->
  1 <= Canvas.draw_column_1 d <= Canvas.right cv ->
  1 <= Canvas.draw_row_1 d <= Canvas.top cv ->
  exists c, Canvas.random_coord cv false d = Returned c /\
            c = mkCoord (Canvas.draw_column_1 d) (Canvas.draw_row_1 d) /\
            Canvas.coord_is_in_canvas cv c = true.
Proof.
  intros Hb Hl Hc Hr. eexists. split; [|split; [reflexivity|]].
  - unfold Canvas.random_coord, Canvas.random_column, Canvas.random_row.
    rewrite !randint_in_range by assumption. reflexivity.
  - apply coord_is_in_canvas_spec. cbn. lia.
Qed.

Lemma random_coord_inside_is_inside_witness :
  exists c, Canvas.random_coord (Canvas.init_default 3 4) false (Canvas.mkDraws 4 0 1 0 0)
              = Returned c /\
            c = mkCoord 4 1 /\
            Canvas.coord_is_in_canvas (Canvas.init_default 3 4) c = true.
Proof.
  apply (random_coord_inside_is_inside (Canvas.init_default 3 4) (Canvas.mkDraws 4 0 1 0 0));
    cbn; lia.
Defined.

(** X3: [random_coord], in either mode, raises [ValueError] exactly when the
    canvas has no column or no row to draw from ([right < 1] or [top < 1]),
    and returns a coordinate otherwise. *)
Theorem random_coord_raises_iff_empty (cv : Canvas.t) (outside_scope : bool)
    (d : Canvas.draws) :
  (Canvas.draw_choice d < 4)%nat ->
  (Canvas.random_coord cv outside_scope d = Raised ValueError
   <-> Canvas.right cv < 1 \/ Canvas.top cv < 1) /\
  ((exists c, Canvas.random_coord cv outside_scope d = Returned c)
   <-> 1 <= Canvas.right cv /\ 1 <= Canvas.top cv).
Proof.
  intros Hchoice.
  unfold Canvas.random_coord, Canvas.random_column, Canvas.random_row, Py.randint.
  destruct (Z.ltb_spec (Canvas.right cv) 1), (Z.ltb_spec (Canvas.top cv) 1);
    destruct outside_scope; cbn [obind];
    try (split; split; [intros _; lia | reflexivity | intros [c Hc]; discriminate Hc | lia]).
  - destruct (Canvas.draw_choice d) as [|[|[|[|n]]]]; cbn; try lia;
      (split; split; [discriminate | lia | intros _; lia | intros _; eauto]).
  - split; split; [discriminate | lia | intros _; lia | intros _; eauto].
Qed.

Lemma random_coord_raises_iff_empty_witness :
  (Canvas.random_coord (Canvas.init_default 0 5) true (Canvas.mkDraws 1 1 1 1 0)
     = Raised ValueError
   <-> Canvas.right (Canvas.init_default 0 5) < 1 \/ Canvas.top (Canvas.init_default 0 5) < 1) /\
  ((exists c, Canvas.random_coord (Canvas.init_default 0 5) true (Canvas.mkDraws 1 1 1 1 0)
                = Returned c)
   <-> 1 <= Canvas.right (Canvas.init_default 0 5) /\ 1 <= Canvas.top (Canvas.init_default 0 5)).
Proof.
  apply (random_coord_raises_iff_empty (Canvas.init_default 0 5) true (Canvas.mkDraws 1 1 1 1 0)).
  cbn. lia.
Defined.

(** ** Wrapping and cutting lines *)

Lemma length_str_take (n : nat) (s : string) :
  String.length (Py.str_take n s) = Nat.min n (String.length s).
Proof.
  revert s. induction n as [|n IH]; intros s; [reflexivity|].
  destruct s as [|c s]; cbn; [reflexivity | now rewrite IH].
Qed.

Lemma str_take_drop (n : nat) (s : string) : Py.str_take n s +:+ Py.str_drop n s = s.
Proof.
  revert s. induction n as [|n IH]; intros s; [reflexivity|].
  destruct s as [|c s]; [reflexivity|].
  cbn [Py.str_take Py.str_drop]. change (String c (Py.str_take n s) +:+ Py.str_drop n s)
    with (String c (Py.str_take n s +:+ Py.str_drop n s)).
  now rewrite IH.
Qed.

Lemma slice_to_from (w : Z) (s : string) : Py.slice_to w s +:+ Py.slice_from w s = s.
Proof. apply str_take_drop. Qed.

Lemma len_slice_to (w : Z) (s : string) :
  Py.len (Py.slice_to w s)
  = Z.min (Z.max (if w <? 0 then w + Py.len s else w) 0) (Py.len s).
Proof.
  unfold Py.slice_to, Py.slice_bound, Py.len. rewrite length_str_take.
  destruct (w <? 0); lia.
Qed.

Lemma append_assoc (a b c : string) : (a +:+ b) +:+ c = a +:+ (b +:+ c).
Proof.
  induction a as [|x a IH]; [reflexivity|].
  change (String x ((a +:+ b) +:+ c) = String x (a +:+ (b +:+ c))). now rewrite IH.
Qed.

Lemma append_empty_r (a : string) : a +:+ "" = a.
Proof.
  induction a as [|x a IH]; [reflexivity|].
  change (String x (a +:+ "") = String x a). now rewrite IH.
Qed.

Lemma join_empty_cons (x : string) (xs : list string) :
  Py.join "" (x :: xs) = x +:+ Py.join "" xs.
Proof.
  unfold Py.join. destruct xs as [|y ys]; cbn; [now rewrite append_empty_r | reflexivity].
Qed.

Lemma join_empty_app (xs ys : list string) :
  Py.join "" (xs ++ ys) = Py.join "" xs +:+ Py.join "" ys.
Proof.
  induction xs as [|x xs IH]; [reflexivity|].
  cbn [app]. now rewrite !join_empty_cons, IH, append_assoc.
Qed.

(** What the loop over one line returns, when it returns: pieces that put
    together give the line back, none longer than the width, and all of them
    but the last exactly as long as the width. *)
Lemma wrap_while_pieces (width : Z) (fuel : nat) :
  forall (line : string) (pieces : list string),
  Terminal.wrap_while fuel width line = Returned pieces ->
  Py.join "" pieces = line /\
  Forall (fun piece => Py.len piece <= width) pieces /\
  Forall (fun piece => Py.len piece = width) (removelast pieces) /\
  (Py.len line <= width -> pieces = [line]).
Proof.
  induction fuel as [|fuel IH]; intros line pieces; cbn [Terminal.wrap_while];
    destruct (Z.ltb_spec width (Py.len line)) as [Hlt | Hle]; try discriminate.
  - intros H. injection H as <-. cbn. repeat split; auto.
  - destruct (Terminal.wrap_while fuel width (Py.slice_from width line)) as [rest| |] eqn:Hrest;
      cbn [obind]; try discriminate.
    intros H. injection H as <-.
    destruct (IH _ _ Hrest) as (Hjoin & Hall & Hinit & _).
    assert (Hpos : 1 <= width).
    { destruct (Z.leb_spec width 0) as [Hw|]; [|lia].
      rewrite wrap_while_diverges in Hrest; [discriminate | assumption |].
      rewrite len_slice_from. destruct (Z.ltb_spec width 0); lia. }
    assert (Hhead : Py.len (Py.slice_to width line) = width).
    { rewrite len_slice_to. destruct (Z.ltb_spec width 0); lia. }
    split; [rewrite join_empty_cons, Hjoin; apply slice_to_from|].
    split; [constructor; [lia | assumption]|].
    split; [|lia].
    destruct rest as [|piece rest]; [cbn; constructor|].
    cbn [removelast]. constructor; assumption.
  - intros H. injection H as <-. cbn. repeat split; auto.
Qed.

(** X4: with a positive width [_wrap_lines] returns; the wrapped lines put
    together are the given lines put together, no wrapped line is longer than
    the width, there are at least as many of them as given lines, and lines
    that already fit come back as they are. *)
Theorem wrap_lines_keeps_text (self : Terminal.t) (lines : list string) :
  1 <= Terminal._width self ->
  exists wrapped,
    Terminal._wrap_lines self lines = Returned wrapped /\
    Py.join "" wrapped = Py.join "" lines /\
    Forall (fun line => Py.len line <= Terminal._width self) wrapped /\
    (length lines <= length wrapped)%nat /\
    (Forall (fun line => Py.len line <= Terminal._width self) lines -> wrapped = lines).
Proof.
  intros Hw. induction lines as [|line lines IH].
  - exists []. cbn. repeat split; auto.
  - destruct IH as (rest & Hrest & Hjoin & Hall & Hlen & Hfit).
    destruct (wrap_while_returns (Terminal._width self) (String.length line) Hw line)
      as [pieces Hpieces]; [lia|].
    destruct (wrap_while_pieces _ _ _ _ Hpieces) as (Hpjoin & Hpall & _ & Hpfit).
    exists (pieces ++ rest). cbn [Terminal._wrap_lines]. rewrite Hpieces, Hrest. cbn [obind].
    split; [reflexivity|].
    split; [rewrite join_empty_app, join_empty_cons, Hpjoin, Hjoin; reflexivity|].
    split; [apply Forall_app; split; assumption|].
    split.
    + rewrite length_app. cbn [length].
      assert (pieces <> []) as Hne.
      { intros ->. cbn in Hpjoin. subst line. cbn in Hpieces.
        destruct (Z.ltb_spec (Terminal._width self) (Py.len "")); discriminate. }
      destruct pieces; [contradiction | cbn; lia].
    + intros Hlines. apply Forall_cons in Hlines as [Hline Hlines].
      rewrite (Hpfit Hline), (Hfit Hlines). reflexivity.
Qed.

Lemma wrap_lines_keeps_text_witness :
  exists wrapped,
    Terminal._wrap_lines
      (Terminal.mk TerminalConfig.default "" (80, 24) 2 24 0 [] [] 0 0
         (Canvas.init_default 0 0) ∅ [] [] []) ["ABCDE"; "F"] = Returned wrapped /\
    wrapped = ["AB"; "CD"; "E"; "F"].
Proof.
  destruct (wrap_lines_keeps_text
              (Terminal.mk TerminalConfig.default "" (80, 24) 2 24 0 [] [] 0 0
                 (Canvas.init_default 0 0) ∅ [] [] []) ["ABCDE"; "F"] ltac:(cbn; lia))
    as (wrapped & Hwrapped & _).
  exists wrapped. split; [exact Hwrapped|].
  vm_compute in Hwrapped. now injection Hwrapped as <-.
Defined.

(** X5: with a width of 0 or less, the loop of [_wrap_lines] over a line
    that is longer than the width never ends, whatever the number of
    iterations granted, and [_wrap_lines] gives no answer on a list holding
    such a line. *)
Theorem wrap_lines_hangs_without_width (self : Terminal.t) (lines : list string)
    (line : string) :
  Terminal._width self <= 0 ->
  line ∈ lines ->
  Terminal._width self < Py.len line ->
  (forall fuel, Terminal.wrap_while fuel (Terminal._width self) line = Diverged) /\
  Terminal._wrap_lines self lines = Diverged.
Proof.
  intros Hw Hin Hlong. split; [intros fuel; now apply wrap_while_diverges|].
  induction lines as [|l lines IH]; [inversion Hin|].
  cbn [Terminal._wrap_lines].
  destruct (Z.ltb_spec (Terminal._width self) (Py.len l)) as [Hl | Hl].
  - rewrite wrap_while_diverges by assumption. reflexivity.
  - apply elem_of_cons in Hin as [-> | Hin]; [lia|].
    rewrite (IH Hin).
    destruct (String.length l); cbn [Terminal.wrap_while];
      destruct (Z.ltb_spec (Terminal._width self) (Py.len l)); try lia; reflexivity.
Qed.

Lemma wrap_lines_hangs_without_width_witness :
  (forall fuel, Terminal.wrap_while fuel 0 "A" = Diverged) /\
  Terminal._wrap_lines
    (Terminal.mk TerminalConfig.default "" (0, 24) 0 24 0 [] [] 0 0
       (Canvas.init_default 0 0) ∅ [] [] []) [""; "A"] = Diverged.
Proof.
  apply (wrap_lines_hangs_without_width
           (Terminal.mk TerminalConfig.default "" (0, 24) 0 24 0 [] [] 0 0
              (Canvas.init_default 0 0) ∅ [] [] []) [""; "A"] "A").
  - cbn. lia.
  - apply list_elem_of_further, list_elem_of_here.
  - unfold Py.len. cbn. lia.
Defined.

(** X6: without wrapping and with a width of 0 or more, [format_lines]
    always returns, one formatted line per line of the input, each the
    beginning of its line cut after [width] characters. *)
Theorem format_lines_cuts_at_width (self : Terminal.t) :
  TerminalConfig.wrap_text (Terminal.config self) = false ->
  0 <= Terminal._width self ->
  exists lines,
    Terminal.format_lines self = Returned lines /\
    length lines = length (Py.splitlines (Terminal._input_data self)) /\
    forall (i : nat) (line : string),
      Py.splitlines (Terminal._input_data self) !! i = Some line ->
      exists cut rest,
        lines !! i = Some cut /\ line = cut +:+ rest /\
        Py.len cut = Z.min (Py.len line) (Terminal._width self).
Proof.
  intros Hwrap Hw. unfold Terminal.format_lines. rewrite Hwrap.
  eexists. split; [reflexivity|]. split; [apply length_map|].
  intros i line Hline.
  exists (Py.slice_to (Terminal._width self) line), (Py.slice_from (Terminal._width self) line).
  split; [|split].
  - change (map ?f ?l) with (f <$> l). now rewrite list_lookup_fmap, Hline.
  - symmetry. apply slice_to_from.
  - rewrite len_slice_to. destruct (Z.ltb_spec (Terminal._width self) 0); lia.
Qed.

Lemma format_lines_cuts_at_width_witness :
  exists lines,
    Terminal.format_lines
      (Terminal.mk TerminalConfig.default example_input (80, 24) 1 24 0 [] [] 0 0
         (Canvas.init_default 0 0) ∅ [] [] []) = Returned lines /\
    lines = ["A"; "C"].
Proof.
  destruct (format_lines_cuts_at_width
              (Terminal.mk TerminalConfig.default example_input (80, 24) 1 24 0 [] [] 0 0
                 (Canvas.init_default 0 0) ∅ [] [] []) eq_refl ltac:(cbn; lia))
    as (lines & Hlines & _).
  exists lines. split; [exact Hlines|].
  vm_compute in Hlines. now injection Hlines as <-.
Defined.

(** ** The constructor: when it returns, and how many characters it makes *)

(** X7: once the attributes are set and the lines formatted, the constructor
    returns a terminal exactly when some glyph of the formatted lines is not
    a space; when all glyphs are spaces, or there is none, it raises
    [ValueError]. *)
Theorem init_returns_iff_some_glyph (input_data : string) (cfg : option TerminalConfig.t)
    (detected : Z * Z) (self0 : Terminal.t) (lines : list string) :
  Terminal.init_attributes input_data cfg detected = Returned self0 ->
  Terminal.format_lines (Terminal.substitute_blank_input self0) = Returned lines ->
  (non_space_count lines = 0%nat ->
   Terminal.init input_data cfg detected = Raised ValueError) /\
  (non_space_count lines <> 0%nat ->
   exists t, Terminal.init input_data cfg detected = Returned t).
Proof.
  intros Hattr Hlines. unfold Terminal.init. rewrite Hattr. cbn [obind].
  unfold Terminal._decompose_input. rewrite Hlines. cbn [obind].
  pose proof (decompose_lines_length
                (TerminalConfig.xterm_colors (Terminal.config self0))
                (TerminalConfig.no_color (Terminal.config self0))
                (Z.of_nat (length lines)) lines 0
                (Terminal._next_character_id (Terminal.substitute_blank_input self0))) as Hlen.
  destruct (Terminal.decompose_lines _ _ _ _ _ _) as [cs next]. cbn [fst obind] in *.
  split; intros Hcount.
  - rewrite Hcount in Hlen. destruct cs; [reflexivity | discriminate].
  - apply init_registry_returns. intros ->. cbn in Hlen. congruence.
Qed.

Lemma init_returns_iff_some_glyph_witness :
  Terminal.init " A" (Some (TerminalConfig.mk 4 false false false 1 0 false)) (80, 24)
    = Raised ValueError /\
  exists t, Terminal.init " A" (Some (TerminalConfig.mk 4 false false false 2 0 false)) (80, 24)
              = Returned t.
Proof.
  split.
  - apply (init_returns_iff_some_glyph " A"
             (Some (TerminalConfig.mk 4 false false false 1 0 false)) (80, 24)
             (Terminal.mk (TerminalConfig.mk 4 false false false 1 0 false) " A" (80, 24)
                1 24 0 [] [] 0 0 (Canvas.init_default 0 0) ∅ [] [] [])
             [" "]); reflexivity.
  - apply (init_returns_iff_some_glyph " A"
             (Some (TerminalConfig.mk 4 false false false 2 0 false)) (80, 24)
             (Terminal.mk (TerminalConfig.mk 4 false false false 2 0 false) " A" (80, 24)
                2 24 0 [] [] 0 0 (Canvas.init_default 0 0) ∅ [] [] [])
             [" A"]); [reflexivity | reflexivity | vm_compute; discriminate].
Defined.

(** The cells of a canvas of [top] rows and [right] columns, row by row. *)
Lemma cells_spec (top right : Z) :
  let cells := flat_map (fun y => map (fun x => mkCoord x y) (Py.range 1 (right + 1)))
                        (Py.range 1 (top + 1)) in
  NoDup cells /\
  length cells = (Z.to_nat top * Z.to_nat right)%nat /\
  forall c, c ∈ cells <-> 1 <= column c <= right /\ 1 <= row c <= top.
Proof.
  cbn zeta.
  assert (Hrows : forall rows : list Z, NoDup rows ->
            let cells := flat_map (fun y => map (fun x => mkCoord x y) (Py.range 1 (right + 1)))
                                  rows in
            NoDup cells /\
            length cells = (length rows * Z.to_nat right)%nat /\
            forall c, c ∈ cells <-> 1 <= column c <= right /\ row c ∈ rows).
  { induction rows as [|y rows IH]; intros Hnd; cbn zeta.
    - cbn. split; [constructor|]. split; [reflexivity|].
      intros c. rewrite !elem_of_nil. tauto.
    - apply NoDup_cons in Hnd as [Hy Hnd]. destruct (IH Hnd) as (IHnd & IHlen & IHin).
      cbn [flat_map].
      assert (Hrow : forall c, c ∈ map (fun x => mkCoord x y) (Py.range 1 (right + 1))
                               <-> 1 <= column c <= right /\ row c = y).
      { intros c. change (map ?f ?l) with (f <$> l). rewrite list_elem_of_fmap. split.
        - intros (x & -> & Hx). apply elem_of_range in Hx. cbn. lia.
        - intros [Hx <-]. exists (column c). split; [now destruct c|].
          apply elem_of_range. lia. }
      split; [|split].
      + apply NoDup_app. split; [|split; [|assumption]].
        * apply NoDup_fmap_2; [|apply NoDup_range]. intros a b H. now injection H.
        * intros c Hc Hc'. apply Hrow in Hc as [_ Hc]. apply IHin in Hc' as [_ Hc'].
          apply Hy. now rewrite <- Hc.
      + rewrite length_app, length_map, length_range, IHlen. cbn [length]. lia.
      + intros c. rewrite elem_of_app, Hrow, IHin, elem_of_cons. tauto. }
  destruct (Hrows (Py.range 1 (top + 1)) (NoDup_range _ _)) as (Hnd & Hlen & Hin).
  split; [assumption|]. split.
  - rewrite Hlen, length_range. f_equal. lia.
  - intros c. rewrite Hin, elem_of_range. lia.
Qed.

(** X8: in every terminal the constructor returns, the input and fill
    characters are as many as the canvas has cells: [top * right]. *)
Theorem input_and_fill_count_cells (input_data : string) (cfg : option TerminalConfig.t)
    (detected : Z * Z) (t : Terminal.t) :
  Terminal.init input_data cfg detected = Returned t ->
  Z.of_nat (length (Terminal._input_characters t) + length (Terminal._fill_characters t))
  = Canvas.top (Terminal.canvas t) * Canvas.right (Terminal.canvas t).
Proof.
  intros H.
  destruct (init_facts _ _ _ _ H) as ((Hb & Hl & Ht & Hr) & Hcells & _ & Hnd & _).
  destruct (cells_spec (Canvas.top (Terminal.canvas t)) (Canvas.right (Terminal.canvas t)))
    as (Hcnd & Hclen & Hcin).
  cbn zeta in *.
  set (cells := flat_map _ _) in *.
  assert (Hperm : Permutation
            (map EffectCharacter.input_coord
                 (Terminal._input_characters t ++ Terminal._fill_characters t)) cells).
  { apply NoDup_Permutation; [assumption | assumption|].
    intros c. rewrite Hcin. split.
    - intros Hc. change (map ?f ?l) with (f <$> l) in Hc.
      apply list_elem_of_fmap in Hc as (ch & -> & Hch).
      pose proof (init_characters_in_canvas _ _ _ _ ch H Hch) as Hin.
      apply coord_is_in_canvas_spec in Hin. lia.
    - intros Hc. destruct (Hcells c) as (ch & _ & Hcoord & Hch).
      { apply coord_is_in_canvas_spec. lia. }
      change (map ?f ?l) with (f <$> l). apply list_elem_of_fmap. now exists ch. }
  apply Permutation_length in Hperm. rewrite length_map, length_app, Hclen in Hperm.
  rewrite Hperm. lia.
Qed.

Lemma input_and_fill_count_cells_witness :
  exists t,
    Terminal.init example_input None (80, 24) = Returned t /\
    Z.of_nat (length (Terminal._input_characters t) + length (Terminal._fill_characters t))
    = Canvas.top (Terminal.canvas t) * Canvas.right (Terminal.canvas t) /\
    Canvas.top (Terminal.canvas t) * Canvas.right (Terminal.canvas t) = 4.
Proof.
  eexists. split; [vm_compute; reflexivity|]. split; [|reflexivity].
  apply (input_and_fill_count_cells example_input None (80, 24)).
  vm_compute. reflexivity.
Defined.

(** ** Looking a character up by its input coordinate *)

(** X9: in a terminal the constructor returned, also after any run of
    [add_character] calls, [get_character_by_input_coord] finds no character
    exactly at the coordinates outside the canvas; it finds every input and
    fill character at that character's own input coordinate; and it never
    finds an added character, not even at the coordinate it was added at. *)
Theorem lookup_by_input_coord_round_trip (input_data : string)
    (cfg : option TerminalConfig.t) (detected : Z * Z) (t : Terminal.t)
    (calls : list (string * Coord)) :
  Terminal.init input_data cfg detected = Returned t ->
  let t' := (Terminal.add_characters calls t).2 in
  (forall c, Terminal.get_character_by_input_coord c t' = None
             <-> Canvas.coord_is_in_canvas (Terminal.canvas t') c = false) /\
  (forall ch, ch ∈ Terminal._input_characters t' ++ Terminal._fill_characters t' ->
     Terminal.get_character_by_input_coord (EffectCharacter.input_coord ch) t' = Some ch) /\
  (forall added c, added ∈ Terminal._added_characters t' ->
     Terminal.get_character_by_input_coord c t' <> Some added).
Proof.
  intros H t'.
  destruct (init_facts _ _ _ _ H) as (_ & Hcells & Hlookup & Hnd & _ & Hbelow & Hadded0).
  destruct (add_characters_spec calls t)
    as (Hmap & Hinput & Hfill & Hcv & Hadded & _ & _ & Hids & _).
  cbn zeta in *. fold t' in Hmap, Hinput, Hfill, Hcv, Hadded.
  unfold Terminal.get_character_by_input_coord. rewrite Hmap, Hinput, Hfill, Hcv.
  split; [|split].
  - intros c. split.
    + intros Hnone. apply not_true_is_false. intros Hin.
      destruct (Hcells c Hin) as (ch & Hch & _). congruence.
    + intros Hout. destruct (Terminal.character_by_input_coord t !! c) as [ch|] eqn:Hch;
        [|reflexivity].
      apply Hlookup in Hch as [Hin _]. congruence.
  - intros ch Hch.
    pose proof (init_characters_in_canvas _ _ _ _ ch H Hch) as Hin.
    destruct (Hcells _ Hin) as (ch' & Hch' & Hcoord & Hmem).
    rewrite Hch'. f_equal.
    apply (NoDup_map_eq EffectCharacter.input_coord _ ch' ch Hnd Hmem Hch Hcoord).
  - intros added c Hin Hfound.
    apply Hlookup in Hfound as (_ & _ & Hmem).
    rewrite Hadded, Hadded0 in Hin. cbn [app] in Hin.
    assert (Hold : EffectCharacter.character_id added < Terminal._next_character_id t).
    { apply Hbelow. unfold registry. rewrite app_assoc. apply elem_of_app. now left. }
    assert (Hnew : EffectCharacter.character_id added
                   ∈ ids_from (Terminal._next_character_id t) (length calls)).
    { rewrite <- Hids. change (map ?f ?l) with (f <$> l).
      apply list_elem_of_fmap. now exists added. }
    apply elem_of_ids_from in Hnew. lia.
Qed.

Lemma lookup_by_input_coord_round_trip_witness :
  exists t,
    Terminal.init example_input None (80, 24) = Returned t /\
    let t' := (Terminal.add_characters [("*", mkCoord 1 1)] t).2 in
    (forall c, Terminal.get_character_by_input_coord c t' = None
               <-> Canvas.coord_is_in_canvas (Terminal.canvas t') c = false) /\
    (forall ch, ch ∈ Terminal._input_characters t' ++ Terminal._fill_characters t' ->
       Terminal.get_character_by_input_coord (EffectCharacter.input_coord ch) t' = Some ch) /\
    (forall added c, added ∈ Terminal._added_characters t' ->
       Terminal.get_character_by_input_coord c t' <> Some added).
Proof.
  eexists. split; [vm_compute; reflexivity|].
  apply (lookup_by_input_coord_round_trip example_input None (80, 24)).
  vm_compute. reflexivity.
Defined.

(** ** The flat sorts of get_characters *)

Section SortedBy.

Context {A K : Type} (leb : K -> K -> bool) (key : A -> K).

Hypothesis leb_total : forall a b, leb a b = false -> leb b a = true.
Hypothesis leb_trans : forall a b c, leb a b = true -> leb b c = true -> leb a c = true.

Let before (x y : A) : Prop := leb (key x) (key y) = true.

Lemma insert_by_sorted (x : A) (l : list A) :
  StronglySorted before l -> StronglySorted before (Py.insert_by leb key x l).
Proof.
  induction 1 as [|y l Hl IH Hy]; cbn [Py.insert_by].
  - repeat constructor.
  - destruct (leb (key x) (key y)) eqn:Hxy.
    + constructor; [constructor; assumption|].
      constructor; [exact Hxy|].
      rewrite List.Forall_forall in Hy |- *. intros z Hz.
      apply (leb_trans _ (key y)); [exact Hxy | now apply Hy].
    + constructor; [assumption|].
      rewrite List.Forall_forall in Hy |- *. intros z Hz.
      apply (Permutation_in _ (insert_by_Permutation leb key x l)) in Hz.
      destruct Hz as [<- | Hz]; [now apply leb_total | now apply Hy].
Qed.

Lemma sort_by_sorted (l : list A) : StronglySorted before (Py.sort_by leb key l).
Proof.
  induction l as [|x l IH]; [constructor|].
  cbn. now apply insert_by_sorted.
Qed.

End SortedBy.

Lemma StronglySorted_rev {A : Type} (R : A -> A -> Prop) (l : list A) :
  StronglySorted R l -> StronglySorted (fun a b => R b a) (List.rev l).
Proof.
  induction 1 as [|x l Hl IH Hx]; [constructor|].
  cbn [List.rev].
  assert (Happ : forall k : list A, StronglySorted (fun a b => R b a) k ->
            List.Forall (fun a => R x a) k -> StronglySorted (fun a b => R b a) (k ++ [x])).
  { induction 1 as [|y k Hk IHk Hy]; intros Hall; cbn.
    - repeat constructor.
    - apply List.Forall_cons_iff in Hall as [Hxy Hall].
      constructor; [now apply IHk|].
      apply List.Forall_app. split; [assumption | repeat constructor; assumption]. }
  apply Happ; [assumption|].
  rewrite List.Forall_forall in Hx |- *. intros z Hz. apply Hx. now apply List.in_rev.
Qed.

Lemma StronglySorted_weaken {A : Type} (R R' : A -> A -> Prop) (l : list A) :
  (forall a b, R a b -> R' a b) -> StronglySorted R l -> StronglySorted R' l.
Proof.
  intros HR. induction 1 as [|x l Hl IH Hx]; constructor; [assumption|].
  rewrite List.Forall_forall in Hx |- *. auto.
Qed.

Lemma pair_leb_total (a b : Z * Z) : Py.pair_leb a b = false -> Py.pair_leb b a = true.
Proof.
  unfold Py.pair_leb. destruct a as [a1 a2], b as [b1 b2]. cbn.
  destruct (Z.ltb_spec a1 b1), (Z.ltb_spec b1 a1), (Z.eqb_spec a1 b1), (Z.eqb_spec b1 a1),
    (Z.leb_spec a2 b2), (Z.leb_spec b2 a2); cbn; try reflexivity; try discriminate; lia.
Qed.

Lemma pair_leb_trans (a b c : Z * Z) :
  Py.pair_leb a b = true -> Py.pair_leb b c = true -> Py.pair_leb a c = true.
Proof.
  unfold Py.pair_leb. destruct a as [a1 a2], b as [b1 b2], c as [c1 c2]. cbn.
  destruct (Z.ltb_spec a1 b1), (Z.ltb_spec b1 c1), (Z.ltb_spec a1 c1),
    (Z.eqb_spec a1 b1), (Z.eqb_spec b1 c1), (Z.eqb_spec a1 c1),
    (Z.leb_spec a2 b2), (Z.leb_spec b2 c2), (Z.leb_spec a2 c2);
    cbn; try reflexivity; try discriminate; lia.
Qed.

Lemma pair_leb_spec (a b : Z * Z) :
  Py.pair_leb a b = true <-> a.1 < b.1 \/ (a.1 = b.1 /\ a.2 <= b.2).
Proof.
  unfold Py.pair_leb.
  rewrite orb_true_iff, andb_true_iff, Z.ltb_lt, Z.eqb_eq, Z.leb_le. tauto.
Qed.

Lemma top_down_sorted (l : list EffectCharacter.t) :
  StronglySorted top_down_before (Py.sort_by Py.pair_leb Terminal.top_down_key l).
Proof.
  eapply StronglySorted_weaken;
    [|apply (sort_by_sorted Py.pair_leb Terminal.top_down_key pair_leb_total pair_leb_trans)].
  intros a b Hab. apply pair_leb_spec in Hab.
  unfold top_down_before, Terminal.top_down_key, Terminal.row_of, Terminal.column_of in *.
  cbn in Hab. lia.
Qed.

Lemma bottom_up_sorted (l : list EffectCharacter.t) :
  StronglySorted bottom_up_before (Py.sort_by Py.pair_leb Terminal.bottom_up_key l).
Proof.
  eapply StronglySorted_weaken;
    [|apply (sort_by_sorted Py.pair_leb Terminal.bottom_up_key pair_leb_total pair_leb_trans)].
  intros a b Hab. apply pair_leb_spec in Hab.
  unfold bottom_up_before, Terminal.bottom_up_key, Terminal.row_of, Terminal.column_of in *.
  cbn in Hab. lia.
Qed.

Lemma omap_nth_error_seq {A : Type} (l : list A) :
  omap (fun i => nth_error l i) (seq 0 (length l)) = l.
Proof.
  induction l as [|a l IH]; [reflexivity|].
  cbn [length seq]. rewrite <- seq_shift.
  change (omap (fun i => nth_error (a :: l) i) (0%nat :: map S (seq 0 (length l))))
    with (a :: omap (fun i => nth_error (a :: l) i) (map S (seq 0 (length l)))).
  f_equal. rewrite <- IH at 2.
  generalize (seq 0 (length l)). intros k. induction k as [|i k IHk]; [reflexivity|].
  change (omap (fun i => nth_error (a :: l) i) (map S (i :: k)))
    with (match nth_error l i with
          | Some x => x :: omap (fun i => nth_error (a :: l) i) (map S k)
          | None => omap (fun i => nth_error (a :: l) i) (map S k) end).
  rewrite IHk. reflexivity.
Qed.

(** Shuffling along a permutation of the indices rearranges the list. *)
Lemma shuffle_Permutation {A : Type} (l : list A) (order : list nat) :
  Permutation order (seq 0 (length l)) -> Permutation (Py.shuffle l order) l.
Proof.
  intros H. unfold Py.shuffle. rewrite H. now rewrite omap_nth_error_seq.
Qed.

Lemma pop_alternately_Permutation {A : Type} (n : nat) :
  forall (l r : list A) (i : Z),
  Terminal.pop_alternately n i l = Returned r -> length l = n -> Permutation r l.
Proof.
  induction n as [|n IH]; intros l r i Hr Hlen.
  - destruct l; [|discriminate]. cbn in Hr. now injection Hr as <-.
  - cbn [Terminal.pop_alternately] in Hr.
    destruct (i mod 2 =? 0).
    + destruct l as [|x l]; [discriminate|]. cbn [Py.pop_first obind] in Hr.
      destruct (Terminal.pop_alternately n (i + 1) l) as [r'| |] eqn:Hr'; cbn in Hr;
        try discriminate.
      injection Hr as <-. constructor. apply (IH _ _ _ Hr'). cbn in Hlen. lia.
    + destruct (exists_last (l := l)) as (l' & x & ->); [intros ->; discriminate|].
      rewrite pop_last_snoc in Hr. cbn [obind] in Hr.
      destruct (Terminal.pop_alternately n (i + 1) l') as [r'| |] eqn:Hr'; cbn in Hr;
        try discriminate.
      injection Hr as <-. rewrite length_app in Hlen. cbn in Hlen.
      rewrite (IH _ _ _ Hr') by lia. apply Permutation_cons_append.
Qed.

(** X10: whatever the sort, [get_characters] returns the requested
    characters rearranged, none left out and none twice; for [RANDOM] this
    holds when the shuffle rearranges the indices, as [random.shuffle]
    does. *)
Theorem get_characters_rearranges (t : Terminal.t)
    (input_characters fill_chars added_chars : bool) (sort : Terminal.CharacterSort)
    (order : list nat) :
  (sort = Terminal.RANDOM ->
   Permutation order
     (seq 0 (length (Terminal.requested_characters input_characters fill_chars added_chars t)))) ->
  exists result,
    Terminal.get_characters input_characters fill_chars added_chars sort order t
      = Returned result /\
    Permutation result
      (Terminal.requested_characters input_characters fill_chars added_chars t).
Proof.
  intros Horder. unfold Terminal.get_characters.
  set (all := Terminal.requested_characters _ _ _ t) in *.
  set (base := Py.sort_by Py.pair_leb Terminal.top_down_key all).
  assert (Hbase : Permutation base all) by apply sort_by_Permutation.
  destruct (pop_alternately_nth (length base) base 0 eq_refl) as (r & Hr & _).
  pose proof (pop_alternately_Permutation _ _ _ _ Hr eq_refl) as Hperm.
  destruct sort; try rewrite Hr; cbn [obind]; eexists; (split; [reflexivity|]);
    fold base;
    try (rewrite shuffle_Permutation;
         [exact Hbase | rewrite (Permutation_length Hbase); now apply Horder]);
    rewrite <- ?Permutation_rev, ?sort_by_Permutation, ?Hperm; exact Hbase.
Qed.

Lemma get_characters_rearranges_witness :
  exists t result,
    Terminal.init example_input None (80, 24) = Returned t /\
    Terminal.get_characters true true false Terminal.RANDOM [2; 0; 3; 1]%nat t
      = Returned result /\
    Permutation result (Terminal.requested_characters true true false t) /\
    map EffectCharacter.character_id result = [2; 0; 3; 1].
Proof.
  eexists.
  match goal with
  | |- exists result, Terminal.init ?s ?c ?d = Returned ?t0 /\ _ =>
      assert (Hinit : Terminal.init s c d = Returned t0) by (vm_compute; reflexivity);
      destruct (get_characters_rearranges t0 true true false Terminal.RANDOM [2; 0; 3; 1]%nat)
        as (result & Hresult & Hperm)
  end.
  { intros _. vm_compute.
    apply (perm_trans (l' := [0; 2; 3; 1]%nat)); [apply perm_swap|].
    apply perm_skip.
    apply (perm_trans (l' := [2; 1; 3]%nat)); [apply perm_skip, perm_swap|].
    apply (perm_trans (l' := [1; 2; 3]%nat)); [apply perm_swap | reflexivity]. }
  exists result. split; [exact Hinit|]. split; [exact Hresult|]. split; [exact Hperm|].
  vm_compute in Hresult. now injection Hresult as <-.
Defined.

(** X11: [get_characters] with [TOP_TO_BOTTOM_LEFT_TO_RIGHT] lists the
    characters from the top row down and, in a row, from left to right;
    [BOTTOM_TO_TOP_RIGHT_TO_LEFT] returns that very list reversed;
    [BOTTOM_TO_TOP_LEFT_TO_RIGHT] goes from the bottom row up, each row from
    left to right, and [TOP_TO_BOTTOM_RIGHT_TO_LEFT] returns that very list
    reversed. *)
Theorem get_characters_sorted (t : Terminal.t)
    (input_characters fill_chars added_chars : bool) (order : list nat) :
  exists r1 r3,
    Terminal.get_characters input_characters fill_chars added_chars
      Terminal.TOP_TO_BOTTOM_LEFT_TO_RIGHT order t = Returned r1 /\
    StronglySorted top_down_before r1 /\
    Terminal.get_characters input_characters fill_chars added_chars
      Terminal.BOTTOM_TO_TOP_RIGHT_TO_LEFT order t = Returned (List.rev r1) /\
    StronglySorted (fun a b => top_down_before b a) (List.rev r1) /\
    Terminal.get_characters input_characters fill_chars added_chars
      Terminal.BOTTOM_TO_TOP_LEFT_TO_RIGHT order t = Returned r3 /\
    StronglySorted bottom_up_before r3 /\
    Terminal.get_characters input_characters fill_chars added_chars
      Terminal.TOP_TO_BOTTOM_RIGHT_TO_LEFT order t = Returned (List.rev r3) /\
    StronglySorted (fun a b => bottom_up_before b a) (List.rev r3).
Proof.
  unfold Terminal.get_characters. do 2 eexists.
  split; [reflexivity|]. split; [apply top_down_sorted|].
  split; [reflexivity|]. split; [apply StronglySorted_rev, top_down_sorted|].
  split; [reflexivity|]. split; [apply bottom_up_sorted|].
  split; [reflexivity|]. apply StronglySorted_rev, bottom_up_sorted.
Qed.

(** ** The groups of get_characters_grouped *)

Lemma StronglySorted_range (a b : Z) : StronglySorted Z.lt (Py.range a b).
Proof.
  unfold Py.range. generalize (Z.to_nat (b - a)). intros n.
  assert (H : forall s, StronglySorted Z.lt (map (fun i : nat => a + Z.of_nat i) (seq s n))).
  { induction n as [|n IH]; intros s; cbn [seq map]; constructor; [apply IH|].
    rewrite List.Forall_forall. intros x Hx. apply in_map_iff in Hx as (i & <- & Hi).
    apply in_seq in Hi. lia. }
  apply H.
Qed.

Lemma Forall2_rev_flip {A B : Type} (P : A -> B -> Prop) (l : list A) (k : list B) :
  Forall2 P l k -> Forall2 P (List.rev l) (List.rev k).
Proof.
  induction 1 as [|x y l k Hxy Hlk IH]; cbn [List.rev]; [constructor|].
  apply Forall2_app; [exact IH | repeat constructor; exact Hxy].
Qed.

(** The loop over the indices: one group per index that some character
    has, holding the characters of that index in the order of the list. *)
Lemma groups_by_index_spec (key : EffectCharacter.t -> Z) (R : Z -> Z -> Prop)
    (all : list EffectCharacter.t) (indices : list Z) :
  StronglySorted R indices ->
  exists keys,
    StronglySorted R keys /\
    List.Forall (fun k => In k indices) keys /\
    Forall2 (fun k group => group <> [] /\ group = filter (fun ch => key ch = k) all)
            keys (Terminal.groups_by_index key indices all).
Proof.
  induction 1 as [|i indices Hs IH Hi].
  - exists []. repeat constructor.
  - destruct IH as (keys & Hkeys & Hin & Hgroups).
    cbn [Terminal.groups_by_index].
    destruct (filter (fun ch => key ch = i) all) as [|ch group] eqn:Hgroup.
    + exists keys. split; [assumption|]. split; [|assumption].
      eapply List.Forall_impl; [|exact Hin]. intros k Hk. now right.
    + exists (i :: keys). split; [|split].
      * constructor; [assumption|].
        rewrite List.Forall_forall in Hin, Hi |- *. auto.
      * constructor; [now left|].
        eapply List.Forall_impl; [|exact Hin]. intros k Hk. now right.
      * constructor; [|assumption]. split; [discriminate | now rewrite Hgroup].
Qed.

Section DistanceMap.

Variable cv : Canvas.t.

Lemma record_distance_lookup (m : gmap Z (list EffectCharacter.t)) (ch : EffectCharacter.t)
    (d : Z) :
  Terminal.record_distance cv m ch !! d
  = if decide (Terminal.distance_to_center cv ch = d)
    then Some (default [] (m !! d) ++ [ch]) else m !! d.
Proof.
  unfold Terminal.record_distance.
  set (d0 := Terminal.distance_to_center cv ch).
  destruct (decide (d0 = d)) as [<- | Hne].
  - destruct (m !! d0) as [l|] eqn:Hd.
    + now rewrite lookup_alter_eq, Hd.
    + now rewrite lookup_alter_eq, lookup_insert_eq.
  - rewrite lookup_alter_ne by assumption.
    destruct (m !! d0); [reflexivity|]. now rewrite lookup_insert_ne.
Qed.

(** The distance map holds, under each distance, the characters at that
    distance in the order of the list, and no empty entry. *)
Lemma distance_map_lookup (all : list EffectCharacter.t) (d : Z) :
  forall m,
  fold_left (Terminal.record_distance cv) all m !! d
  = match m !! d, filter (fun ch => Terminal.distance_to_center cv ch = d) all with
    | None, [] => None
    | found, group => Some (default [] found ++ group)
    end.
Proof.
  induction all as [|ch all IH]; intros m; cbn [fold_left].
  - cbn. destruct (m !! d); cbn; [now rewrite app_nil_r | reflexivity].
  - rewrite IH, record_distance_lookup, filter_cons.
    destruct (decide (Terminal.distance_to_center cv ch = d)) as [Hd | Hd].
    + destruct (m !! d), (filter _ all); cbn; rewrite <- ?app_assoc; reflexivity.
    + reflexivity.
Qed.

Lemma groups_by_distance_spec (reverse : bool) (all : list EffectCharacter.t) :
  exists keys,
    StronglySorted (fun k k' : Z => if reverse then k' < k else k < k') keys /\
    Forall2 (fun k group =>
               group <> [] /\
               group = filter (fun ch => Terminal.distance_to_center cv ch = k) all)
            keys (Terminal.groups_by_distance cv reverse all).
Proof.
  unfold Terminal.groups_by_distance.
  set (m := fold_left (Terminal.record_distance cv) all ∅).
  exists (Terminal.sorted_keys reverse m).
  assert (Hperm : Permutation (Terminal.sorted_keys reverse m) (map fst (map_to_list m)))
    by apply sort_by_Permutation.
  assert (Hnd : NoDup (Terminal.sorted_keys reverse m)).
  { rewrite Hperm. apply NoDup_fst_map_to_list. }
  split.
  - assert (Hsorted : StronglySorted (fun k k' => if reverse then k' <= k else k <= k')
                        (Terminal.sorted_keys reverse m)).
    { unfold Terminal.sorted_keys. destruct reverse.
      - eapply StronglySorted_weaken;
          [|apply (sort_by_sorted Z.geb (@id Z)); intros; lia].
        cbn. intros a b Hab. unfold id in Hab. lia.
      - eapply StronglySorted_weaken;
          [|apply (sort_by_sorted Z.leb (@id Z)); intros; lia].
        cbn. intros a b Hab. unfold id in Hab. lia. }
    revert Hnd Hsorted. generalize (Terminal.sorted_keys reverse m). intros keys.
    induction keys as [|k keys IH]; intros Hnd Hsorted; [constructor|].
    apply NoDup_cons in Hnd as [Hk Hnd].
    apply StronglySorted_inv in Hsorted as [Hsorted Hall].
    constructor; [now apply IH|].
    rewrite List.Forall_forall in Hall |- *. intros k' Hk'.
    specialize (Hall k' Hk').
    assert (k <> k') by (intros ->; apply Hk, list_elem_of_In, Hk').
    destruct reverse; lia.
  - apply Forall2_fmap_r, Forall_Forall2_diag, Forall_forall. intros k Hk.
    rewrite Hperm in Hk.
    apply list_elem_of_fmap in Hk as ([k0 group] & -> & Hk).
    apply elem_of_map_to_list in Hk. unfold compose. cbn [fst].
    rewrite Hk. cbn [default].
    subst m. rewrite distance_map_lookup, lookup_empty in Hk.
    destruct (filter _ all) as [|ch rest] eqn:Hgroup; [discriminate|].
    injection Hk as <-. split; [discriminate | reflexivity].
Qed.

End DistanceMap.

(** X12: for each of the ten groupings, [get_characters_grouped] returns
    no empty group; each group holds exactly the requested characters of
    one column, row, diagonal or distance to the centre, from the bottom
    row up and from left to right in a row; and the groups come by
    strictly growing key, or by strictly falling key for the reversed
    groupings. *)
Theorem get_characters_grouped_by_key (g : Terminal.CharacterGroup)
    (input_characters fill_chars added_chars : bool) (t : Terminal.t) :
  exists keys groups,
    (Terminal.get_characters_grouped (Terminal.VGroup g)
       input_characters fill_chars added_chars t).1 = Returned groups /\
    StronglySorted (group_order g) keys /\
    Forall2 (fun k group =>
               group <> [] /\
               StronglySorted bottom_up_before group /\
               forall ch, ch ∈ group <->
                 ch ∈ Terminal.requested_characters input_characters fill_chars added_chars t
                 /\ group_key g (Terminal.canvas t) ch = k)
            keys groups.
Proof.
  unfold Terminal.get_characters_grouped. cbn [fst].
  set (requested := Terminal.requested_characters _ _ _ t).
  set (all := Py.sort_by Py.pair_leb Terminal.bottom_up_key requested).
  set (cv := Terminal.canvas t).
  assert (Hall : StronglySorted bottom_up_before all) by apply bottom_up_sorted.
  assert (Hperm : Permutation all requested) by apply sort_by_Permutation.
  assert (Hfilter : forall (key : EffectCharacter.t -> Z) (k : Z) (group : list EffectCharacter.t),
             group <> [] /\ group = filter (fun ch => key ch = k) all ->
             group <> [] /\ StronglySorted bottom_up_before group /\
             forall ch, ch ∈ group <-> ch ∈ requested /\ key ch = k).
  { intros key k group [Hne ->]. split; [assumption|]. split.
    - clear Hne Hperm. induction Hall as [|x l Hl IH Hx]; [constructor|].
      rewrite filter_cons. destruct (decide (key x = k)); [|assumption].
      constructor; [assumption|].
      rewrite List.Forall_forall in Hx |- *. intros y Hy. apply Hx.
      apply list_elem_of_In, list_elem_of_filter in Hy as [_ Hy].
      now apply list_elem_of_In.
    - intros ch. rewrite list_elem_of_filter, Hperm. tauto. }
  assert (Hindex : forall (key : EffectCharacter.t -> Z) (a b : Z),
             exists keys,
               StronglySorted Z.lt keys /\
               Forall2 (fun k group =>
                          group <> [] /\ StronglySorted bottom_up_before group /\
                          forall ch, ch ∈ group <-> ch ∈ requested /\ key ch = k)
                       keys (Terminal.groups_by_index key (Py.range a b) all)).
  { intros key a b.
    destruct (groups_by_index_spec key Z.lt all (Py.range a b) (StronglySorted_range a b))
      as (keys & Hkeys & _ & Hgroups).
    exists keys. split; [assumption|].
    eapply Forall2_impl; [exact Hgroups|]. intros k group. apply Hfilter. }
  assert (Hdistance : forall reverse : bool,
             exists keys,
               StronglySorted (fun k k' : Z => if reverse then k' < k else k < k') keys /\
               Forall2 (fun k group =>
                          group <> [] /\ StronglySorted bottom_up_before group /\
                          forall ch, ch ∈ group <->
                                     ch ∈ requested /\ Terminal.distance_to_center cv ch = k)
                       keys (Terminal.groups_by_distance cv reverse all)).
  { intros reverse.
    destruct (groups_by_distance_spec cv reverse all) as (keys & Hkeys & Hgroups).
    exists keys. split; [assumption|].
    eapply Forall2_impl; [exact Hgroups|]. intros k group. apply Hfilter. }
  destruct g; cbn [group_key group_order];
    try (destruct (Hdistance false) as (keys & Hkeys & Hgroups);
         exists keys; eexists; split; [reflexivity|]; split; assumption);
    try (destruct (Hdistance true) as (keys & Hkeys & Hgroups);
         exists keys; eexists; split; [reflexivity|]; split; assumption);
    match goal with
    | |- context [Terminal.groups_by_index ?key (Py.range ?a ?b) all] =>
        destruct (Hindex key a b) as (keys & Hkeys & Hgroups)
    end;
    first
      [ exists keys; eexists; split; [reflexivity|]; split; assumption
      | exists (List.rev keys); eexists; split; [reflexivity|]; split;
        [ apply (StronglySorted_rev Z.lt), Hkeys
        | apply Forall2_rev_flip, Hgroups ] ].
Qed.

(** ** The frame drawn by _update_terminal_state *)

Section Rendering.

Variable cv : Canvas.t.

Lemma place_length (rows : list (list string)) (ch : EffectCharacter.t) :
  length (Terminal.place cv rows ch) = length rows.
Proof.
  unfold Terminal.place. destruct (Terminal.in_bounds _ _ _); [apply length_alter | reflexivity].
Qed.

Lemma place_row_lengths (n : nat) (rows : list (list string)) (ch : EffectCharacter.t) :
  Forall (fun r => length r = n) rows ->
  Forall (fun r => length r = n) (Terminal.place cv rows ch).
Proof.
  intros H. unfold Terminal.place. destruct (Terminal.in_bounds _ _ _); [|assumption].
  apply Forall_alter; [assumption|]. intros r Hr. now rewrite length_insert.
Qed.

(** One pass of the loop writes the symbol of the character into the cell
    it sits at and touches no other cell of the canvas. *)
Lemma place_cell (rows : list (list string)) (ch : EffectCharacter.t) (i j : nat) :
  length rows = Z.to_nat (Canvas.top cv) ->
  Forall (fun r => length r = Z.to_nat (Canvas.right cv)) rows ->
  (i < Z.to_nat (Canvas.top cv))%nat -> (j < Z.to_nat (Canvas.right cv))%nat ->
  cell (Terminal.place cv rows ch) i j
  = if decide (sits_at i j ch) then Some (EffectCharacter.symbol ch) else cell rows i j.
Proof.
  intros Hlen Hrows Hi Hj.
  assert (Hat : sits_at i j ch <->
                column (EffectCharacter.current_coord ch) = Z.of_nat j + 1 /\
                row (EffectCharacter.current_coord ch) = Z.of_nat i + 1).
  { unfold sits_at. destruct (EffectCharacter.current_coord ch) as [c r]. cbn [row column].
    split; [intros Heq; injection Heq as -> ->; now split | intros [-> ->]; reflexivity]. }
  unfold Terminal.place, cell.
  set (c := column (EffectCharacter.current_coord ch)) in *.
  set (r := row (EffectCharacter.current_coord ch)) in *.
  destruct (lookup_lt_is_Some_2 rows i) as [line Hline]; [lia|].
  assert (Hlinelen : length line = Z.to_nat (Canvas.right cv))
    by (eapply Forall_lookup_1 in Hrows; [exact Hrows | exact Hline]).
  destruct (Terminal.in_bounds cv (r - 1) (c - 1)) eqn:Hin.
  - unfold Terminal.in_bounds in Hin.
    rewrite !andb_true_iff, !Z.leb_le, !Z.ltb_lt in Hin.
    rewrite list_lookup_alter.
    destruct (decide (Z.to_nat (r - 1) = i)) as [Hr | Hr].
    + rewrite Hr, Hline. cbn [fmap option_fmap option_map].
      rewrite list_lookup_insert.
      destruct (decide (Z.to_nat (c - 1) = j /\ (Z.to_nat (c - 1) < length line)%nat))
        as [[Hc _] | Hc].
      * rewrite decide_True; [reflexivity|]. apply Hat. lia.
      * rewrite decide_False; [reflexivity|].
        intros Heq. apply Hat in Heq. apply Hc. lia.
    + rewrite Hline. rewrite decide_False; [reflexivity|].
      intros Heq. apply Hat in Heq. lia.
  - rewrite Hline. rewrite decide_False; [reflexivity|].
    intros Heq. apply Hat in Heq.
    unfold Terminal.in_bounds in Hin.
    rewrite !andb_false_iff, !Z.leb_gt, !Z.ltb_ge in Hin. lia.
Qed.

(** After the loop a cell of the canvas shows the symbol of the last
    character of the list that sits at it, or what it showed before. *)
Lemma fold_place_cell (l : list EffectCharacter.t) :
  forall rows : list (list string),
  length rows = Z.to_nat (Canvas.top cv) ->
  Forall (fun r => length r = Z.to_nat (Canvas.right cv)) rows ->
  length (fold_left (Terminal.place cv) l rows) = Z.to_nat (Canvas.top cv) /\
  Forall (fun r => length r = Z.to_nat (Canvas.right cv)) (fold_left (Terminal.place cv) l rows) /\
  forall i j : nat,
    (i < Z.to_nat (Canvas.top cv))%nat -> (j < Z.to_nat (Canvas.right cv))%nat ->
    cell (fold_left (Terminal.place cv) l rows) i j
    = match last (filter (sits_at i j) l) with
      | Some ch => Some (EffectCharacter.symbol ch)
      | None => cell rows i j
      end.
Proof.
  induction l as [|ch l IH]; intros rows Hlen Hrows; cbn [fold_left].
  - repeat split; assumption.
  - destruct (IH (Terminal.place cv rows ch)) as (Hlen' & Hrows' & Hcell).
    { now rewrite place_length. }
    { now apply place_row_lengths. }
    split; [assumption|]. split; [assumption|].
    intros i j Hi Hj. rewrite (Hcell i j Hi Hj), (place_cell rows ch i j Hlen Hrows Hi Hj).
    rewrite filter_cons. destruct (decide (sits_at i j ch)); [|reflexivity].
    rewrite last_cons. now destruct (last (filter (sits_at i j) l)).
Qed.

End Rendering.

Lemma blank_grid (top right : Z) :
  let rows := map (fun _ : Z => map (fun _ : Z => " ") (Py.range 0 right)) (Py.range 0 top) in
  length rows = Z.to_nat top /\
  Forall (fun r : list string => length r = Z.to_nat right) rows /\
  forall i j : nat, (i < Z.to_nat top)%nat -> (j < Z.to_nat right)%nat ->
    cell rows i j = Some " ".
Proof.
  cbn zeta.
  assert (Hlen : forall n, length (Py.range 0 n) = Z.to_nat n).
  { intros n. unfold Py.range. rewrite length_map, length_seq. f_equal. lia. }
  split; [now rewrite length_map|]. split.
  - apply Forall_forall. intros r Hr. apply list_elem_of_In, in_map_iff in Hr as (k & <- & _).
    now rewrite length_map.
  - intros i j Hi Hj. unfold cell.
    change (map ?f ?l) with (f <$> l). rewrite list_lookup_fmap.
    destruct (lookup_lt_is_Some_2 (Py.range 0 top) i) as [k ->]; [now rewrite Hlen|].
    cbn [fmap option_fmap option_map]. rewrite list_lookup_fmap.
    destruct (lookup_lt_is_Some_2 (Py.range 0 right) j) as [k' ->]; [now rewrite Hlen|].
    reflexivity.
Qed.

(** The last of the characters picked from a list sorted by layer has the
    highest layer among those picked. *)
Lemma last_of_sorted_by_layer (P : EffectCharacter.t -> Prop) `{!forall x, Decision (P x)}
    (l : list EffectCharacter.t) (ch : EffectCharacter.t) :
  StronglySorted (fun a b => EffectCharacter.layer a <= EffectCharacter.layer b) l ->
  last (filter P l) = Some ch ->
  ch ∈ l /\ P ch /\
  forall ch', ch' ∈ l -> P ch' -> EffectCharacter.layer ch' <= EffectCharacter.layer ch.
Proof.
  intros Hsorted Hlast.
  assert (Hch : ch ∈ filter P l) by now apply last_Some_elem_of.
  apply list_elem_of_filter in Hch as [HP Hch]. split; [assumption|]. split; [assumption|].
  revert Hlast. induction Hsorted as [|x l Hl IH Hx]; intros Hlast ch' Hch' HP'.
  - inversion Hch'.
  - rewrite filter_cons in Hlast.
    destruct (decide (P x)) as [HPx | HPx].
    + rewrite last_cons in Hlast.
      destruct (last (filter P l)) as [y|] eqn:Hy.
      * injection Hlast as ->.
        assert (Hin : ch ∈ l).
        { apply last_Some_elem_of, list_elem_of_filter in Hy. tauto. }
        apply elem_of_cons in Hch' as [-> | Hch'].
        -- rewrite List.Forall_forall in Hx. apply Hx. now apply list_elem_of_In.
        -- now apply IH.
      * injection Hlast as ->. apply last_None in Hy.
        apply elem_of_cons in Hch' as [-> | Hch']; [lia|].
        exfalso. assert (Hin : ch' ∈ filter P l) by (apply list_elem_of_filter; tauto).
        rewrite Hy in Hin. inversion Hin.
    + apply elem_of_cons in Hch' as [-> | Hch']; [contradiction|].
      apply IH; try assumption.
      apply last_Some_elem_of, list_elem_of_filter in Hlast. tauto.
Qed.

(** The grid [_update_terminal_state] joins into lines: [canvas.top] rows of
    [canvas.right] cells, a cell showing the symbol of the last of the
    visible characters, taken by layer, that is there, or a space. *)
Lemma update_terminal_state_grid (t : Terminal.t) :
  exists rows : list (list string),
    Terminal.terminal_state (Terminal._update_terminal_state t) = map (Py.join "") rows /\
    length rows = Z.to_nat (Canvas.top (Terminal.canvas t)) /\
    Forall (fun r => length r = Z.to_nat (Canvas.right (Terminal.canvas t))) rows /\
    forall i j : nat,
      (i < Z.to_nat (Canvas.top (Terminal.canvas t)))%nat ->
      (j < Z.to_nat (Canvas.right (Terminal.canvas t)))%nat ->
      cell rows i j
      = match last (filter (sits_at i j)
                      (Py.sort_by Z.leb EffectCharacter.layer (Terminal._visible_characters t)))
        with
        | Some ch => Some (EffectCharacter.symbol ch)
        | None => Some " "
        end.
Proof.
  unfold Terminal._update_terminal_state.
  set (cv := Terminal.canvas t).
  set (blank := map _ (Py.range 0 (Canvas.top cv))).
  set (sorted := Py.sort_by Z.leb EffectCharacter.layer (Terminal._visible_characters t)).
  destruct (blank_grid (Canvas.top cv) (Canvas.right cv)) as (Hlen & Hrows & Hblank).
  fold blank in Hlen, Hrows, Hblank.
  destruct (fold_place_cell cv sorted blank Hlen Hrows) as (Hlen' & Hrows' & Hcell).
  exists (fold_left (Terminal.place cv) sorted blank).
  split; [reflexivity|]. split; [assumption|]. split; [assumption|].
  intros i j Hi Hj. now rewrite (Hcell i j Hi Hj), (Hblank i j Hi Hj).
Qed.

(** X13: [_update_terminal_state] draws a grid of [canvas.top] rows of
    [canvas.right] cells and joins each row into a line.  A cell where no
    visible character currently is shows a space; any other cell shows the
    symbol of a visible character that is there, one of the highest layer
    among those there. *)
Theorem update_terminal_state_cells (t : Terminal.t) :
  exists rows : list (list string),
    Terminal.terminal_state (Terminal._update_terminal_state t) = map (Py.join "") rows /\
    length rows = Z.to_nat (Canvas.top (Terminal.canvas t)) /\
    Forall (fun r => length r = Z.to_nat (Canvas.right (Terminal.canvas t))) rows /\
    forall i j : nat,
      (i < Z.to_nat (Canvas.top (Terminal.canvas t)))%nat ->
      (j < Z.to_nat (Canvas.right (Terminal.canvas t)))%nat ->
      (cell rows i j = Some " " /\
       forall ch, ch ∈ Terminal._visible_characters t -> ~ sits_at i j ch) \/
      (exists ch,
         cell rows i j = Some (EffectCharacter.symbol ch) /\
         ch ∈ Terminal._visible_characters t /\ sits_at i j ch /\
         forall ch', ch' ∈ Terminal._visible_characters t -> sits_at i j ch' ->
                     EffectCharacter.layer ch' <= EffectCharacter.layer ch).
Proof.
  destruct (update_terminal_state_grid t) as (rows & Hstate & Hlen & Hrows & Hcell).
  exists rows. split; [assumption|]. split; [assumption|]. split; [assumption|].
  intros i j Hi Hj. rewrite (Hcell i j Hi Hj).
  set (sorted := Py.sort_by Z.leb EffectCharacter.layer (Terminal._visible_characters t)).
  assert (Hperm : Permutation sorted (Terminal._visible_characters t))
    by apply sort_by_Permutation.
  assert (Hsorted : StronglySorted
                      (fun a b => EffectCharacter.layer a <= EffectCharacter.layer b) sorted).
  { eapply StronglySorted_weaken;
      [|apply (sort_by_sorted Z.leb EffectCharacter.layer); intros; lia].
    cbn. intros a b Hab. lia. }
  destruct (last (filter (sits_at i j) sorted)) as [ch|] eqn:Hlast.
  - right. exists ch.
    destruct (last_of_sorted_by_layer (sits_at i j) sorted ch Hsorted Hlast)
      as (Hin & Hat & Hmax).
    split; [reflexivity|]. rewrite <- Hperm. split; [assumption|]. split; [assumption|].
    intros ch' Hch'. apply Hmax. now rewrite Hperm.
  - left. split; [reflexivity|]. intros ch Hch Hat.
    apply last_None in Hlast.
    assert (Hin : ch ∈ filter (sits_at i j) sorted).
    { apply list_elem_of_filter. split; [assumption | now rewrite Hperm]. }
    rewrite Hlast in Hin. inversion Hin.
Qed.

(** ** From the input text to the frame and back *)

(** A row of single glyphs joins into the string of these glyphs. *)
Lemma join_glyphs (r : list string) :
  forall f : nat -> ascii,
  (forall j, (j < length r)%nat -> r !! j = Some (String (f j) EmptyString)) ->
  Py.join "" r = string_of_list_ascii (map f (seq 0 (length r))).
Proof.
  induction r as [|x r IH]; intros f Hr; [reflexivity|].
  rewrite join_empty_cons. cbn [length seq map string_of_list_ascii].
  pose proof (Hr 0%nat ltac:(cbn; lia)) as H0. cbn in H0. injection H0 as ->.
  rewrite <- seq_shift, map_map.
  rewrite (IH (fun j => f (S j))).
  - reflexivity.
  - intros j Hj. apply (Hr (S j)). cbn. lia.
Qed.

Lemma glyph_at_get (lines : list string) (i j : nat) (line : string) :
  lines !! i = Some line -> glyph_at lines i j = String.get j line.
Proof. intros H. unfold glyph_at. now rewrite H. Qed.

Section ShownInput.

Variables (input_data : string) (cfg : option TerminalConfig.t) (detected : Z * Z).
Variables (self0 t : Terminal.t) (lines : list string).

Hypothesis Hattr : Terminal.init_attributes input_data cfg detected = Returned self0.
Hypothesis Hlines : Terminal.format_lines (Terminal.substitute_blank_input self0) = Returned lines.
Hypothesis Hinit : Terminal.init input_data cfg detected = Returned t.

(** The input characters of the constructed terminal stand for the glyphs
    of the formatted lines that lie in the canvas, one for each, and the
    canvas has no more rows than there are lines. *)
Lemma init_input_characters :
  (forall ch, ch ∈ Terminal._input_characters t -> exists i j, stands_for lines ch i j) /\
  (forall (i j : nat) (glyph : ascii),
     glyph_at lines i j = Some glyph -> glyph <> Py.SPACE ->
     Z.of_nat (length lines) - Z.of_nat i <= Canvas.top (Terminal.canvas t) ->
     Z.of_nat j + 1 <= Canvas.right (Terminal.canvas t) ->
     exists ch, ch ∈ Terminal._input_characters t /\ stands_for lines ch i j) /\
  NoDup (map EffectCharacter.input_coord (Terminal._input_characters t)) /\
  1 <= Canvas.top (Terminal.canvas t) <= Z.of_nat (length lines) /\
  1 <= Canvas.right (Terminal.canvas t).
Proof.
  destruct (init_inv _ _ _ _ Hinit) as (self0' & cs & self1 & Hattr' & Hdec & Hreg).
  rewrite Hattr in Hattr'. injection Hattr' as <-.
  destruct (decompose_input_inv _ _ _ _ _ Hdec) as (lines' & Hlines' & Hcs & _).
  rewrite Hlines in Hlines'. injection Hlines' as <-. cbn zeta in Hcs.
  destruct (decompose_input_characters _ _ _ _ _ Hdec) as (Hpos & Hnd & _).
  destruct (constructed_input_characters cs self1 t Hpos Hreg) as [Hkept _].
  destruct (constructed_canvas cs self1 t Hpos Hreg)
    as (iw & ih & Hiw & Hih & Hiw1 & Hih1 & _ & _ & _ & Hcv).
  assert (Hsound : forall ch, ch ∈ cs -> exists i j, stands_for lines ch i j).
  { intros ch Hch. rewrite Hcs in Hch.
    apply decompose_lines_sound in Hch as (i & j & g & Hg & Hne & Hsym & Hcoord).
    exists i, j, g. repeat split; assumption. }
  split; [|split; [|split; [|split]]].
  - intros ch Hch. rewrite Hkept in Hch. apply list_elem_of_filter in Hch as [_ Hch].
    now apply Hsound.
  - intros i j g Hg Hne Hrow Hcol.
    destruct (decompose_lines_complete
                (TerminalConfig.xterm_colors (Terminal.config self0))
                (TerminalConfig.no_color (Terminal.config self0))
                (Z.of_nat (length lines)) lines 0 (Terminal._next_character_id self0)
                i j g Hg Hne) as (ch & Hch & Hsym & Hcoord).
    rewrite <- Hcs in Hch. exists ch. split.
    + rewrite Hkept. apply list_elem_of_filter. split; [|assumption].
      unfold fits. rewrite Hcoord. cbn [row column]. lia.
    + exists g. repeat split; assumption.
  - rewrite Hkept. now apply NoDup_map_filter.
  - pose proof (max_spec (map (fun ch => row (EffectCharacter.input_coord ch)) cs)) as Hmax.
    rewrite Hih in Hmax. destruct Hmax as [Hmax _].
    apply list_elem_of_fmap in Hmax as (ch & Hrow & Hch).
    destruct (Hsound ch Hch) as (i & j & g & _ & _ & _ & Hcoord).
    rewrite Hcoord in Hrow. cbn [row] in Hrow.
    rewrite Hcv. cbn. lia.
  - rewrite Hcv. cbn. lia.
Qed.

Variable t' : Terminal.t.

Hypothesis Hcanvas : Terminal.canvas t' = Terminal.canvas t.
Hypothesis Hshown :
  Permutation (map shown_at (Terminal._visible_characters t'))
              (map input_at (Terminal._input_characters t)).

(** A cell of the frame shows the glyph the input has there. *)
Lemma shown_input_cell (i j : nat) (line : string) :
  (i < Z.to_nat (Canvas.top (Terminal.canvas t)))%nat ->
  (j < Z.to_nat (Canvas.right (Terminal.canvas t)))%nat ->
  lines !! (length lines - 1 - i)%nat = Some line ->
  match last (filter (sits_at i j)
                (Py.sort_by Z.leb EffectCharacter.layer (Terminal._visible_characters t')))
  with
  | Some ch => Some (EffectCharacter.symbol ch)
  | None => Some " "
  end = Some (String (glyph_or_space line j) EmptyString).
Proof.
  intros Hi Hj Hline.
  destruct init_input_characters as (Hsound & Hcomplete & Hnd & Htop & Hright).
  set (sorted := Py.sort_by Z.leb EffectCharacter.layer (Terminal._visible_characters t')).
  assert (Hperm : Permutation sorted (Terminal._visible_characters t'))
    by apply sort_by_Permutation.
  destruct (last (filter (sits_at i j) sorted)) as [ch|] eqn:Hlast.
  - apply last_Some_elem_of, list_elem_of_filter in Hlast as [Hat Hch].
    rewrite Hperm in Hch.
    assert (Hpair : shown_at ch ∈ map input_at (Terminal._input_characters t)).
    { rewrite <- Hshown. apply list_elem_of_fmap. eauto. }
    apply list_elem_of_fmap in Hpair as (ch0 & Heq & Hch0).
    unfold shown_at, input_at in Heq. injection Heq as Hsym Hcoord.
    destruct (Hsound ch0 Hch0) as (i' & j' & g & Hg & _ & Hsym0 & Hcoord0).
    unfold sits_at in Hat. rewrite Hat in Hcoord. rewrite Hcoord0 in Hcoord.
    injection Hcoord as Hc Hr.
    pose proof (glyph_at_lt _ _ _ _ Hg) as Hi'.
    assert (i' = (length lines - 1 - i)%nat) as -> by lia.
    assert (j' = j) as -> by lia.
    rewrite (glyph_at_get _ _ _ _ Hline) in Hg.
    unfold glyph_or_space. rewrite Hg. cbn [default]. now rewrite Hsym, Hsym0.
  - apply last_None in Hlast. f_equal.
    unfold glyph_or_space.
    destruct (String.get j line) as [g|] eqn:Hg; [|reflexivity]. cbn [default].
    destruct (decide (g = Py.SPACE)) as [-> | Hne]; [reflexivity|]. exfalso.
    rewrite <- (glyph_at_get lines _ _ _ Hline) in Hg.
    destruct (Hcomplete _ _ _ Hg Hne ltac:(lia) ltac:(lia))
      as (ch0 & Hch0 & g' & _ & _ & Hsym0 & Hcoord0).
    assert (Hpair : input_at ch0 ∈ map shown_at (Terminal._visible_characters t')).
    { rewrite Hshown. apply list_elem_of_fmap. eauto. }
    apply list_elem_of_fmap in Hpair as (ch & Heq & Hch).
    unfold shown_at, input_at in Heq. injection Heq as Hsym Hcoord.
    assert (Hin : ch ∈ filter (sits_at i j) sorted).
    { apply list_elem_of_filter. split; [|now rewrite Hperm].
      unfold sits_at. rewrite <- Hcoord, Hcoord0. f_equal; lia. }
    rewrite Hlast in Hin. inversion Hin.
Qed.

Lemma shown_input_output :
  (Terminal.get_formatted_output_string t').1
  = Py.join (String Py.LF EmptyString)
      (map (pad_to (Z.to_nat (Canvas.right (Terminal.canvas t))))
           (drop (length lines - Z.to_nat (Canvas.top (Terminal.canvas t))) lines)).
Proof.
  destruct init_input_characters as (_ & _ & _ & Htop & Hright).
  rewrite get_formatted_output_string_reverses. f_equal.
  change (Terminal.terminal_state (Terminal.get_formatted_output_string t').2)
    with (Terminal.terminal_state (Terminal._update_terminal_state t')).
  destruct (update_terminal_state_grid t') as (rows & -> & Hlen & Hrows & Hcell).
  rewrite Hcanvas in Hlen, Hrows, Hcell.
  set (top := Z.to_nat (Canvas.top (Terminal.canvas t))) in *.
  set (right := Z.to_nat (Canvas.right (Terminal.canvas t))) in *.
  set (kept := drop (length lines - top) lines).
  assert (Hkept : length kept = top) by (subst kept; rewrite length_drop; lia).
  rewrite <- (rev_involutive (map (pad_to right) kept)). f_equal.
  rewrite rev_alt. change (rev_append ?l []) with (reverse l).
  change (map ?f ?l) with (f <$> l).
  apply list_eq. intros i.
  destruct (decide (i < top)%nat) as [Hi | Hi].
  - rewrite reverse_lookup by (rewrite length_fmap; lia).
    rewrite length_fmap, Hkept, !list_lookup_fmap. subst kept. rewrite lookup_drop.
    replace (length lines - top + (top - S i))%nat with (length lines - 1 - i)%nat by lia.
    destruct (lookup_lt_is_Some_2 lines (length lines - 1 - i)) as [line Hline]; [lia|].
    destruct (lookup_lt_is_Some_2 rows i) as [r Hr]; [lia|].
    rewrite Hline, Hr. cbn [fmap option_fmap option_map]. f_equal.
    assert (Hrlen : length r = right)
      by (eapply Forall_lookup_1 in Hrows; [exact Hrows | exact Hr]).
    unfold pad_to. rewrite <- Hrlen. apply join_glyphs.
    intros j Hj. specialize (Hcell i j Hi ltac:(lia)).
    unfold cell in Hcell. rewrite Hr in Hcell. rewrite Hcell.
    apply shown_input_cell; [assumption | lia | assumption].
  - rewrite !lookup_ge_None_2; [reflexivity | |].
    + rewrite length_reverse, length_fmap. lia.
    + rewrite length_fmap. lia.
Qed.

End ShownInput.

(** X14: take a terminal the constructor returned and let the visible
    characters be its input characters, each showing its symbol where the
    input put it.  Then [get_formatted_output_string] gives the formatted
    lines of the input back: the last [canvas.top] of them, each cut or
    filled with spaces to [canvas.right] glyphs, joined by newlines. *)
Theorem shown_input_reproduces_text (input_data : string) (cfg : option TerminalConfig.t)
    (detected : Z * Z) (self0 t t' : Terminal.t) (lines : list string) :
  Terminal.init_attributes input_data cfg detected = Returned self0 ->
  Terminal.format_lines (Terminal.substitute_blank_input self0) = Returned lines ->
  Terminal.init input_data cfg detected = Returned t ->
  Terminal.canvas t' = Terminal.canvas t ->
  Permutation (map shown_at (Terminal._visible_characters t'))
              (map input_at (Terminal._input_characters t)) ->
  (Terminal.get_formatted_output_string t').1
  = Py.join (String Py.LF EmptyString)
      (map (pad_to (Z.to_nat (Canvas.right (Terminal.canvas t))))
           (drop (length lines - Z.to_nat (Canvas.top (Terminal.canvas t))) lines)).
Proof. intros. eapply shown_input_output; eassumption. Qed.

Lemma shown_input_reproduces_text_witness :
  exists self0 t,
    Terminal.init_attributes example_input None (80, 24) = Returned self0 /\
    Terminal.format_lines (Terminal.substitute_blank_input self0) = Returned ["AB"; "C"] /\
    Terminal.init example_input None (80, 24) = Returned t /\
    (Terminal.get_formatted_output_string
       (Terminal.set__visible_characters (Terminal._input_characters t) t)).1
    = "AB" +:+ String Py.LF "C ".
Proof.
  eexists. eexists.
  match goal with
  | |- ?A /\ _ => assert (H0 : A) by (vm_compute; reflexivity)
  end.
  split; [exact H0|].
  match goal with
  | |- ?A /\ _ => assert (Hl : A) by (vm_compute; reflexivity)
  end.
  split; [exact Hl|].
  match goal with
  | |- ?A /\ _ => assert (Hinit : A) by (vm_compute; reflexivity)
  end.
  split; [exact Hinit|].
  match goal with
  | |- (Terminal.get_formatted_output_string ?t1).1 = _ =>
      assert (Hshown : Permutation (map shown_at (Terminal._visible_characters t1))
                                   (map input_at (Terminal._input_characters t1)))
        by (vm_compute; reflexivity);
      rewrite (shown_input_reproduces_text _ _ _ _ _ t1 _ H0 Hl Hinit eq_refl Hshown)
  end.
  vm_compute. reflexivity.
Defined.

(** ** The visible set *)

Lemma decompose_line_fresh (x n : bool) (y : Z) (line : string) :
  forall (column next : Z) (ch : EffectCharacter.t),
  ch ∈ (Terminal.decompose_line x n y column line next).1 ->
  EffectCharacter.current_coord ch = EffectCharacter.input_coord ch /\
  EffectCharacter.is_visible ch = false.
Proof.
  induction line as [|g rest IH]; intros column next ch Hin.
  - cbn in Hin. inversion Hin.
  - destruct (Ascii.eqb_spec g Py.SPACE) as [-> | Hg].
    + rewrite decompose_line_space in Hin. now apply IH in Hin.
    + rewrite decompose_line_glyph in Hin by assumption. cbn [fst] in Hin.
      apply elem_of_cons in Hin as [-> | Hin]; [now split | now apply IH in Hin].
Qed.

Lemma decompose_lines_fresh (x n : bool) (input_height : Z) (lines : list string) :
  forall (row next : Z) (ch : EffectCharacter.t),
  ch ∈ (Terminal.decompose_lines x n input_height row lines next).1 ->
  EffectCharacter.current_coord ch = EffectCharacter.input_coord ch /\
  EffectCharacter.is_visible ch = false.
Proof.
  induction lines as [|line rest IH]; intros row next ch Hin.
  - cbn in Hin. inversion Hin.
  - rewrite decompose_lines_cons in Hin. cbn [fst] in Hin.
    apply elem_of_app in Hin as [Hin | Hin].
    + now apply decompose_line_fresh in Hin.
    + now apply IH in Hin.
Qed.

Lemma fill_rows_fresh (cfg : TerminalConfig.t) (top right : Z) (st : Terminal.fill_state) :
  Forall (fun ch => EffectCharacter.is_visible ch = false) st.1.1 ->
  Forall (fun ch => EffectCharacter.is_visible ch = false)
         (Terminal.fill_rows cfg top right st).1.1.
Proof.
  unfold Terminal.fill_rows. revert st.
  induction (Py.range 1 (top + 1)) as [|y rows IHrows]; intros st Hst; [assumption|].
  cbn [fold_left]. apply IHrows. unfold Terminal.fill_row.
  clear IHrows. revert st Hst.
  induction (Py.range 1 (right + 1)) as [|x columns IHcolumns]; intros st Hst; [assumption|].
  cbn [fold_left]. apply IHcolumns.
  destruct st as [[fill by_coord] next]. unfold Terminal.fill_cell.
  destruct (by_coord !! _); [assumption|]. cbn [fst snd] in *.
  apply Forall_app. split; [assumption | repeat constructor].
Qed.

(** The characters of a terminal the constructor returned are not visible,
    none is in the visible set, and the input characters are where the
    input put them. *)
Lemma init_fresh (input_data : string) (cfg : option TerminalConfig.t) (detected : Z * Z)
    (t : Terminal.t) :
  Terminal.init input_data cfg detected = Returned t ->
  Terminal._visible_characters t = [] /\
  (forall ch, ch ∈ registry t -> EffectCharacter.is_visible ch = false) /\
  (forall ch, ch ∈ Terminal._input_characters t ->
     EffectCharacter.current_coord ch = EffectCharacter.input_coord ch).
Proof.
  intros H. apply init_inv in H as (self0 & cs & self1 & Hattr & Hdec & Hreg).
  destruct (decompose_input_inv _ _ _ _ _ Hdec) as (lines & _ & Hcs & _). cbn zeta in Hcs.
  destruct (init_registry_spec _ _ _ Hreg) as (iw & ih & _ & _ & Hspec). cbn zeta in Hspec.
  destruct Hspec as (_ & Hkept & Hfill & _ & _ & Hadded & Hvisible & _).
  assert (Hinput : forall ch, ch ∈ Terminal._input_characters t ->
            EffectCharacter.current_coord ch = EffectCharacter.input_coord ch /\
            EffectCharacter.is_visible ch = false).
  { intros ch Hch. rewrite Hkept in Hch. apply list_elem_of_filter in Hch as [_ Hch].
    rewrite Hcs in Hch. now apply decompose_lines_fresh in Hch. }
  split; [assumption|]. split.
  - intros ch Hch. unfold registry in Hch. rewrite Hadded, app_nil_r in Hch.
    apply elem_of_app in Hch as [Hch | Hch]; [now apply Hinput|].
    rewrite Hfill in Hch. revert ch Hch. apply Forall_forall.
    apply fill_rows_fresh. constructor.
  - intros ch Hch. now apply Hinput.
Qed.

Section Store.

Variable c : EffectCharacter.t.

Lemma store_in_list_ids (l : list EffectCharacter.t) :
  map EffectCharacter.character_id (Terminal.store_in_list c l)
  = map EffectCharacter.character_id l.
Proof.
  unfold Terminal.store_in_list. rewrite map_map. apply map_ext. intros held.
  now destruct (decide _).
Qed.

Lemma elem_of_store_in_list (l : list EffectCharacter.t) (x : EffectCharacter.t) :
  x ∈ Terminal.store_in_list c l <->
  exists held,
    x = (if decide (EffectCharacter.character_id held = EffectCharacter.character_id c)
         then c else held) /\
    held ∈ l.
Proof. unfold Terminal.store_in_list. apply list_elem_of_fmap. Qed.

Lemma store_in_list_absent (l : list EffectCharacter.t) :
  EffectCharacter.character_id c ∉ map EffectCharacter.character_id l ->
  Terminal.store_in_list c l = l.
Proof.
  intros Hc. unfold Terminal.store_in_list. rewrite <- (map_id l) at 2.
  apply map_ext_in. intros held Hheld.
  destruct (decide _) as [Heq | _]; [|reflexivity].
  exfalso. apply Hc. rewrite <- Heq. apply list_elem_of_fmap.
  exists held. split; [reflexivity | now apply list_elem_of_In].
Qed.

Lemma registry_store (t : Terminal.t) :
  registry (Terminal.store c t) = Terminal.store_in_list c (registry t).
Proof. unfold registry, Terminal.store_in_list. cbn. now rewrite !map_app. Qed.

Lemma visible_store (t : Terminal.t) :
  Terminal._visible_characters (Terminal.store c t)
  = Terminal.store_in_list c (Terminal._visible_characters t).
Proof. reflexivity. Qed.

End Store.

Lemma set_character_visibility_keeps (ch : EffectCharacter.t) (v : bool) (t : Terminal.t) :
  let t' := Terminal.set_character_visibility ch v t in
  Terminal.canvas t' = Terminal.canvas t /\
  Terminal._next_character_id t' = Terminal._next_character_id t /\
  registry t' = Terminal.store_in_list (EffectCharacter.set_is_visible v ch) (registry t).
Proof.
  cbn zeta. unfold Terminal.set_character_visibility.
  rewrite <- registry_store.
  destruct v; [destruct (decide _)|]; repeat split; reflexivity.
Qed.

(** Showing or hiding a character of the terminal keeps the visible set in
    agreement with the characters. *)
Lemma set_character_visibility_consistent (ch : EffectCharacter.t) (v : bool)
    (t : Terminal.t) :
  visibility_consistent t -> ch ∈ registry t ->
  visibility_consistent (Terminal.set_character_visibility ch v t).
Proof.
  intros (Hids & Hnext & Hvis & Hsub & Hflag) Hch.
  destruct (set_character_visibility_keeps ch v t) as (_ & Hn & Hreg). cbn zeta in *.
  set (c := EffectCharacter.set_is_visible v ch) in *.
  assert (Hc : EffectCharacter.character_id c = EffectCharacter.character_id ch) by reflexivity.
  assert (Hvisible : Terminal._visible_characters (Terminal.set_character_visibility ch v t)
            = if v then
                if decide (EffectCharacter.character_id c ∈ visible_ids t)
                then Terminal.store_in_list c (Terminal._visible_characters t)
                else Terminal.store_in_list c (Terminal._visible_characters t) ++ [c]
              else filter (fun held => EffectCharacter.character_id held
                                       <> EffectCharacter.character_id c)
                          (Terminal.store_in_list c (Terminal._visible_characters t))).
  { unfold Terminal.set_character_visibility. fold c.
    rewrite visible_store, store_in_list_ids. fold (visible_ids t).
    destruct v; [destruct (decide _)|]; reflexivity. }
  set (t' := Terminal.set_character_visibility ch v t) in *.
  assert (Hin_c : EffectCharacter.character_id c ∈ visible_ids t ->
                  c ∈ Terminal.store_in_list c (Terminal._visible_characters t)).
  { intros Hin. apply list_elem_of_fmap in Hin as (w & Hw & Hin).
    apply elem_of_store_in_list. exists w. split; [|assumption].
    now rewrite decide_True by congruence. }
  assert (Hfrom : forall y,
            EffectCharacter.character_id y <> EffectCharacter.character_id c ->
            y ∈ Terminal.store_in_list c (Terminal._visible_characters t) ->
            y ∈ Terminal._visible_characters t).
  { intros y Hy Hin. apply elem_of_store_in_list in Hin as (w & Hw & Hwin).
    destruct (decide (EffectCharacter.character_id w = EffectCharacter.character_id c)).
    - subst y. now contradiction Hy.
    - now subst y. }
  assert (Hstore : forall y, y ∈ Terminal.store_in_list c (Terminal._visible_characters t) ->
                             y ∈ Terminal.store_in_list c (registry t)).
  { intros y Hy. apply elem_of_store_in_list in Hy as (held & Hy & Hheld).
    apply elem_of_store_in_list. exists held. split; [assumption | now apply Hsub]. }
  split; [|split; [|split; [|split]]].
  - now rewrite Hreg, store_in_list_ids.
  - intros x Hx. rewrite Hn. rewrite Hreg in Hx.
    apply elem_of_store_in_list in Hx as (held & Hx & Hheld).
    assert (EffectCharacter.character_id x = EffectCharacter.character_id held) as ->
      by (subst x;
          destruct (decide (EffectCharacter.character_id held
                            = EffectCharacter.character_id c)); congruence).
    now apply Hnext.
  - unfold visible_ids. rewrite Hvisible. destruct v.
    + destruct (decide (EffectCharacter.character_id c ∈ visible_ids t)) as [Hin | Hin]; [now rewrite store_in_list_ids|].
      rewrite map_app, store_in_list_ids. cbn [map].
      apply NoDup_app. split; [assumption|]. split; [|apply NoDup_singleton].
      intros i Hi Hi'. apply list_elem_of_singleton in Hi'. subst i. contradiction.
    + apply NoDup_map_filter. now rewrite store_in_list_ids.
  - intros x Hx. rewrite Hreg. rewrite Hvisible in Hx.
    destruct v.
    + destruct (decide (EffectCharacter.character_id c ∈ visible_ids t)); [now apply Hstore|].
      apply elem_of_app in Hx as [Hx | Hx]; [now apply Hstore|].
      apply list_elem_of_singleton in Hx. subst x.
      apply elem_of_store_in_list. exists ch. split; [|assumption].
      now rewrite decide_True by congruence.
    + apply list_elem_of_filter in Hx as [_ Hx]. now apply Hstore.
  - intros x Hx. rewrite Hreg in Hx.
    apply elem_of_store_in_list in Hx as (held & Hx & Hheld).
    rewrite Hvisible.
    destruct (decide (EffectCharacter.character_id held = EffectCharacter.character_id c))
      as [Heq | Hne]; subst x.
    + split.
      * intros Hflagx. cbn in Hflagx. subst v.
        destruct (decide (EffectCharacter.character_id c ∈ visible_ids t)) as [Hin | Hin]; [now apply Hin_c|].
        apply elem_of_app. right. apply list_elem_of_here.
      * intros Hx. destruct v; [reflexivity|].
        apply list_elem_of_filter in Hx as [Hne _]. now contradiction Hne.
    + assert (Hheld' : held ∈ Terminal._visible_characters t ->
                held ∈ Terminal.store_in_list c (Terminal._visible_characters t)).
      { intros Hin. apply elem_of_store_in_list. exists held.
        split; [now rewrite decide_False by assumption | assumption]. }
      rewrite (Hflag held Hheld). split.
      * intros Hin. apply Hheld' in Hin. destruct v.
        -- destruct (decide (EffectCharacter.character_id c ∈ visible_ids t)); [assumption|]. apply elem_of_app. now left.
        -- apply list_elem_of_filter. now split.
      * intros Hx. apply Hfrom; [assumption|]. destruct v.
        -- destruct (decide (EffectCharacter.character_id c ∈ visible_ids t)); [assumption|].
           apply elem_of_app in Hx as [Hx | Hx]; [assumption|].
           apply list_elem_of_singleton in Hx. subst held. now contradiction Hne.
        -- now apply list_elem_of_filter in Hx as [_ Hx].
Qed.

Lemma registry_add_character (symbol : string) (coord : Coord) (t : Terminal.t) :
  registry (Terminal.add_character symbol coord t).2
  = registry t ++ [(Terminal.add_character symbol coord t).1].
Proof. unfold registry. cbn. now rewrite <- !app_assoc. Qed.

(** A new character is not visible, and the agreement stays. *)
Lemma add_character_consistent (symbol : string) (coord : Coord) (t : Terminal.t) :
  visibility_consistent t ->
  visibility_consistent (Terminal.add_character symbol coord t).2.
Proof.
  intros (Hids & Hnext & Hvis & Hsub & Hflag).
  pose proof (registry_add_character symbol coord t) as Hreg.
  destruct (add_character_spec symbol coord t) as (Hid & _ & _ & _ & Hn & _).
  cbn zeta in *.
  assert (Hvisible : Terminal._visible_characters (Terminal.add_character symbol coord t).2
                     = Terminal._visible_characters t) by reflexivity.
  assert (Hfalse : EffectCharacter.is_visible (Terminal.add_character symbol coord t).1 = false)
    by reflexivity.
  set (r := Terminal.add_character symbol coord t) in *.
  assert (Hnew : r.1 ∉ registry t).
  { intros Hin. apply Hnext in Hin. lia. }
  unfold visibility_consistent, visible_ids. rewrite Hreg, Hvisible, Hn.
  split; [|split; [|split; [|split]]].
  - rewrite map_app. cbn [map]. apply NoDup_app. split; [assumption|].
    split; [|apply NoDup_singleton].
    intros i Hi Hi'. apply list_elem_of_singleton in Hi'. subst i.
    apply list_elem_of_fmap in Hi as (x & Hx & Hin). apply Hnext in Hin. lia.
  - intros x Hx. apply elem_of_app in Hx as [Hx | Hx].
    + apply Hnext in Hx. lia.
    + apply list_elem_of_singleton in Hx. subst x. lia.
  - assumption.
  - intros x Hx. apply elem_of_app. left. now apply Hsub.
  - intros x Hx. apply elem_of_app in Hx as [Hx | Hx]; [now apply Hflag|].
    apply list_elem_of_singleton in Hx. subst x. rewrite Hfalse. split; [discriminate|].
    intros Hin. exfalso. apply Hnew. now apply Hsub.
Qed.

Lemma init_consistent (input_data : string) (cfg : option TerminalConfig.t)
    (detected : Z * Z) (t : Terminal.t) :
  Terminal.init input_data cfg detected = Returned t -> visibility_consistent t.
Proof.
  intros Hinit.
  destruct (init_facts _ _ _ _ Hinit) as (_ & _ & _ & _ & Hids & Hnext & _).
  destruct (init_fresh _ _ _ _ Hinit) as (Hvisible & Hflag & _).
  unfold visibility_consistent, visible_ids. rewrite Hvisible.
  split; [assumption|]. split; [assumption|]. split; [constructor|]. split.
  - intros ch Hch. inversion Hch.
  - intros ch Hch. rewrite (Hflag ch Hch). split; [discriminate|].
    intros Hin. inversion Hin.
Qed.

Lemma reachable_consistent (t0 t : Terminal.t) :
  visibility_consistent t0 -> reachable t0 t ->
  visibility_consistent t /\ Terminal.canvas t = Terminal.canvas t0.
Proof.
  intros H0. induction 1 as [|t symbol coord Hreach [IH IHcv]|t ch v Hreach [IH IHcv] Hch].
  - now split.
  - split; [now apply add_character_consistent|].
    now destruct coord.
  - split; [now apply set_character_visibility_consistent|].
    destruct (set_character_visibility_keeps ch v t) as (Hcv & _). cbn zeta in Hcv. congruence.
Qed.

(** X15: in every terminal reached from a constructed one by calls of
    [add_character] and of [set_character_visibility] on its characters,
    the canvas is the constructed one, the visible set holds characters of
    the terminal and none twice, no two characters share an id, and a
    character is in the visible set exactly when its visibility flag is
    set. *)
Theorem visible_set_agrees_with_flags (input_data : string) (cfg : option TerminalConfig.t)
    (detected : Z * Z) (t0 t : Terminal.t) :
  Terminal.init input_data cfg detected = Returned t0 ->
  reachable t0 t ->
  Terminal.canvas t = Terminal.canvas t0 /\
  NoDup (map EffectCharacter.character_id (registry t)) /\
  NoDup (visible_ids t) /\
  (forall ch, ch ∈ Terminal._visible_characters t -> ch ∈ registry t) /\
  (forall ch, ch ∈ registry t ->
     (EffectCharacter.is_visible ch = true <-> ch ∈ Terminal._visible_characters t)).
Proof.
  intros Hinit Hreach.
  destruct (reachable_consistent t0 t (init_consistent _ _ _ _ Hinit) Hreach)
    as [(Hids & _ & Hvis & Hsub & Hflag) Hcv].
  split; [assumption|]. split; [assumption|]. split; [assumption|]. split; assumption.
Qed.

Lemma visible_set_agrees_with_flags_witness :
  exists t0 ch,
    Terminal.init example_input None (80, 24) = Returned t0 /\
    ch ∈ registry t0 /\
    let t := (Terminal.add_character "*" (mkCoord 5 1)
                (Terminal.set_character_visibility ch true t0)).2 in
    visible_ids t = [EffectCharacter.character_id ch] /\
    NoDup (visible_ids t) /\
    forall ch', ch' ∈ registry t ->
      (EffectCharacter.is_visible ch' = true <-> ch' ∈ Terminal._visible_characters t).
Proof.
  eexists. eexists.
  match goal with
  | |- ?A /\ _ => assert (Hinit : A) by (vm_compute; reflexivity)
  end.
  split; [exact Hinit|].
  match goal with
  | |- ?A /\ _ => assert (Hch : A) by (vm_compute; apply list_elem_of_here)
  end.
  split; [exact Hch|]. cbn zeta.
  split; [vm_compute; reflexivity|].
  match goal with
  | |- NoDup (visible_ids ?t1) /\ _ =>
      destruct (visible_set_agrees_with_flags example_input None (80, 24) _ t1 Hinit)
        as (_ & _ & Hvis & _ & Hflag)
  end.
  - apply reachable_add, reachable_visibility; [apply reachable_start | exact Hch].
  - split; assumption.
Defined.

(** ** Showing the input characters *)

(** Showing, one after the other, characters that are not in the visible
    set puts them there in their order and leaves the canvas alone. *)
Lemma fold_show (l : list EffectCharacter.t) :
  forall s : Terminal.t,
  NoDup (map EffectCharacter.character_id l) ->
  (forall x, x ∈ l -> EffectCharacter.character_id x ∉ visible_ids s) ->
  let s' := show_characters l s in
  Terminal.canvas s' = Terminal.canvas s /\
  Terminal._visible_characters s'
  = Terminal._visible_characters s ++ map (EffectCharacter.set_is_visible true) l.
Proof.
  unfold show_characters.
  induction l as [|x l IH]; intros s Hnd Hfresh; cbn zeta; cbn [fold_left map].
  - now rewrite app_nil_r.
  - cbn [map] in Hnd. apply NoDup_cons in Hnd as [Hx Hnd].
    set (c := EffectCharacter.set_is_visible true x).
    assert (Habsent : EffectCharacter.character_id c
                      ∉ map EffectCharacter.character_id (Terminal._visible_characters s)).
    { apply (Hfresh x). apply list_elem_of_here. }
    assert (Hstep : Terminal.canvas (Terminal.set_character_visibility x true s)
                    = Terminal.canvas s /\
                    Terminal._visible_characters (Terminal.set_character_visibility x true s)
                    = Terminal._visible_characters s ++ [c]).
    { unfold Terminal.set_character_visibility. fold c.
      rewrite visible_store, (store_in_list_absent c _ Habsent).
      rewrite decide_False by exact Habsent.
      split; reflexivity. }
    destruct Hstep as [Hcv Hvisible].
    destruct (IH (Terminal.set_character_visibility x true s) Hnd) as [IHcv IHvisible].
    { intros y Hy. unfold visible_ids. rewrite Hvisible, map_app. cbn [map].
      intros Hin. apply elem_of_app in Hin as [Hin | Hin].
      - revert Hin. apply Hfresh. now apply list_elem_of_further.
      - apply list_elem_of_singleton in Hin. apply Hx.
        change (EffectCharacter.character_id c) with (EffectCharacter.character_id x) in Hin.
        rewrite <- Hin. apply list_elem_of_fmap. now exists y. }
    cbn zeta in IHcv, IHvisible. split; [congruence|].
    rewrite IHvisible, Hvisible, <- app_assoc. reflexivity.
Qed.

(** X16: on a terminal the constructor returned, [get_characters()] with
    the defaults of its arguments returns the input characters rearranged;
    and showing the input characters one after the other, in any order, by
    [set_character_visibility] leaves the canvas alone and puts exactly
    them into the visible set, with their flag set, so that the frame
    [get_formatted_output_string] draws next gives the formatted lines of
    the input back: the last [canvas.top] of them, each cut or filled with
    spaces to [canvas.right] glyphs. *)
Theorem showing_input_characters_reproduces_text (input_data : string)
    (cfg : option TerminalConfig.t) (detected : Z * Z) (self0 t : Terminal.t)
    (lines : list string) (order : list nat) :
  Terminal.init_attributes input_data cfg detected = Returned self0 ->
  Terminal.format_lines (Terminal.substitute_blank_input self0) = Returned lines ->
  Terminal.init input_data cfg detected = Returned t ->
  (exists characters,
     Terminal.get_characters true false false Terminal.TOP_TO_BOTTOM_LEFT_TO_RIGHT order t
       = Returned characters /\
     Permutation characters (Terminal._input_characters t)) /\
  forall characters,
    Permutation characters (Terminal._input_characters t) ->
    let t' := show_characters characters t in
    Terminal.canvas t' = Terminal.canvas t /\
    Permutation (visible_ids t')
                (map EffectCharacter.character_id (Terminal._input_characters t)) /\
    (forall ch, ch ∈ Terminal._visible_characters t' -> EffectCharacter.is_visible ch = true) /\
    (Terminal.get_formatted_output_string t').1
    = Py.join (String Py.LF EmptyString)
        (map (pad_to (Z.to_nat (Canvas.right (Terminal.canvas t))))
             (drop (length lines - Z.to_nat (Canvas.top (Terminal.canvas t))) lines)).
Proof.
  intros Hattr Hlines Hinit. split.
  - unfold Terminal.get_characters, Terminal.requested_characters. rewrite !app_nil_r.
    eexists. split; [reflexivity | apply sort_by_Permutation].
  - intros l Hperm. cbn zeta.
    destruct (init_fresh _ _ _ _ Hinit) as (Hvisible & _ & Hcurrent).
    destruct (init_facts _ _ _ _ Hinit) as (_ & _ & _ & _ & Hids & _).
    assert (Hnd : NoDup (map EffectCharacter.character_id l)).
    { rewrite Hperm. unfold registry in Hids. rewrite map_app in Hids.
      now apply NoDup_app in Hids as [Hids _]. }
    destruct (fold_show l t Hnd) as [Hcv Hshown].
    { intros x _. unfold visible_ids. rewrite Hvisible. intros Hin. inversion Hin. }
    cbn zeta in Hcv, Hshown. rewrite Hvisible in Hshown. cbn [app] in Hshown.
    split; [assumption|]. split; [|split].
    + unfold visible_ids. rewrite Hshown, map_map. cbn. now rewrite Hperm.
    + intros ch Hch. rewrite Hshown in Hch. apply list_elem_of_fmap in Hch as (x & -> & _).
      reflexivity.
    + eapply shown_input_output; try eassumption.
      rewrite Hshown, map_map, <- Hperm. apply Permutation_refl'.
      apply map_ext_in. intros x Hx. unfold shown_at, input_at. cbn. f_equal.
      apply Hcurrent. rewrite <- Hperm. now apply list_elem_of_In.
Qed.

Lemma showing_input_characters_reproduces_text_witness :
  exists self0 t characters,
    Terminal.init_attributes example_input None (80, 24) = Returned self0 /\
    Terminal.format_lines (Terminal.substitute_blank_input self0) = Returned ["AB"; "C"] /\
    Terminal.init example_input None (80, 24) = Returned t /\
    Terminal.get_characters true false false Terminal.TOP_TO_BOTTOM_LEFT_TO_RIGHT [] t
      = Returned characters /\
    (Terminal.get_formatted_output_string (show_characters characters t)).1
    = "AB" +:+ String Py.LF "C ".
Proof.
  eexists. eexists.
  match goal with
  | |- exists characters, ?A /\ ?B /\ ?C /\ _ =>
      assert (H0 : A) by (vm_compute; reflexivity);
      assert (Hl : B) by (vm_compute; reflexivity);
      assert (Hinit : C) by (vm_compute; reflexivity)
  end.
  destruct (showing_input_characters_reproduces_text _ _ _ _ _ _ [] H0 Hl Hinit)
    as ((characters & Hget & Hperm) & Hshow).
  exists characters. split; [exact H0|]. split; [exact Hl|]. split; [exact Hinit|].
  split; [exact Hget|].
  destruct (Hshow characters Hperm) as (_ & _ & _ & Houtput).
  rewrite Houtput. vm_compute. reflexivity.
Defined.

(** ** The gradient of ColorShift *)

Lemma lookup_drop_take {A : Type} (k : nat) (l : list A) (i : nat) :
  (k <= length l)%nat -> (i < length l)%nat ->
  (drop k l ++ take k l) !! i
  = l !! (if decide (i < length l - k)%nat then (k + i)%nat else (i - (length l - k))%nat).
Proof.
  intros Hk Hi. destruct (decide (i < length l - k)%nat) as [Hlt | Hge].
  - rewrite lookup_app_l by (rewrite length_drop; lia). apply lookup_drop.
  - rewrite lookup_app_r by (rewrite length_drop; lia).
    rewrite length_drop. apply lookup_take_lt. lia.
Qed.

(** X17: the colours of a travelling gradient are the spectrum moved round:
    for a shift distance [s] between [-n] and [n], [n] the number of
    colours, the colour at position [i] is the one the spectrum has at
    position [(i + s) mod n]; a shift distance beyond that range leaves the
    spectrum as it is; in every case no colour is lost and none comes
    twice. *)
Theorem colorshift_colors_rotate {Color : Type} (shift_distance : Z) (spectrum : list Color) :
  let n := Z.of_nat (length spectrum) in
  let colors := ColorShiftIterator.colors true shift_distance spectrum in
  Permutation colors spectrum /\
  (- n <= shift_distance <= n ->
   forall i : nat, (i < length spectrum)%nat ->
     colors !! i = spectrum !! Z.to_nat ((Z.of_nat i + shift_distance) mod n)) /\
  (shift_distance < - n \/ n < shift_distance -> colors = spectrum).
Proof.
  cbn zeta. unfold ColorShiftIterator.colors, Py.list_slice_from, Py.list_slice_to.
  set (n := length spectrum).
  set (k := Py.slice_bound n shift_distance).
  assert (Hk : (k <= n)%nat) by (subst k; unfold Py.slice_bound; lia).
  split; [|split].
  - rewrite Permutation_app_comm. now rewrite take_drop.
  - intros Hs i Hi. rewrite lookup_drop_take by (fold n; lia). fold n. f_equal.
    assert (Hkz : Z.of_nat k = if shift_distance <? 0 then shift_distance + Z.of_nat n
                               else shift_distance).
    { subst k. unfold Py.slice_bound. destruct (shift_distance <? 0) eqn:Hneg.
      - apply Z.ltb_lt in Hneg. lia.
      - apply Z.ltb_ge in Hneg. lia. }
    destruct (shift_distance <? 0) eqn:Hneg;
      [apply Z.ltb_lt in Hneg | apply Z.ltb_ge in Hneg];
      destruct (decide (i < n - k)%nat) as [Hlt | Hge].
    + rewrite <- (Z_mod_plus_full _ 1). rewrite Z.mod_small by lia. lia.
    + rewrite Z.mod_small by lia. lia.
    + rewrite Z.mod_small by lia. lia.
    + rewrite <- (Z_mod_plus_full _ (-1)). rewrite Z.mod_small by lia. lia.
  - intros Hs.
    assert (Hcases : k = 0%nat \/ k = n).
    { subst k. unfold Py.slice_bound. destruct (shift_distance <? 0) eqn:Hneg.
      - apply Z.ltb_lt in Hneg. left. lia.
      - apply Z.ltb_ge in Hneg. right. lia. }
    destruct Hcases as [-> | ->].
    + cbn. now rewrite app_nil_r.
    + subst n. now rewrite drop_all, take_ge by lia.
Qed.

(** What a run of [loop_tracker] calls leaves in the map and answers, from
    any map on. *)
Lemma loop_tracker_calls_from (cycles : Z) (calls : list EffectCharacter.t) :
  forall m : gmap Z Z,
  let r := loop_tracker_calls cycles m calls in
  length r.2 = length calls /\
  (forall id, default 0 (r.1 !! id) = default 0 (m !! id) + calls_for id calls) /\
  (forall id, r.1 !! id = None -> m !! id = None /\ calls_for id calls = 0) /\
  (forall id, calls_for id calls = 0 -> r.1 !! id = m !! id) /\
  forall (k : nat) (character : EffectCharacter.t),
    calls !! k = Some character ->
    r.2 !! k
    = Some ((cycles =? 0)
            || (default 0 (m !! EffectCharacter.character_id character)
                + calls_for (EffectCharacter.character_id character) (take (S k) calls)
                <? cycles)).
Proof.
  induction calls as [|ch calls IH]; intros m; cbn zeta.
  - cbn [loop_tracker_calls fst snd]. unfold calls_for.
    split; [reflexivity|]. split; [intros id; rewrite filter_nil; cbn; lia|].
    split; [intros id Hid; now rewrite filter_nil|]. split; [reflexivity|].
    intros k character Hk. discriminate.
  - cbn [loop_tracker_calls]. unfold ColorShiftIterator.loop_tracker.
    set (key := EffectCharacter.character_id ch).
    set (m1 := <[key := default 0 (m !! key) + 1]> m).
    specialize (IH m1). cbn zeta in IH.
    destruct (loop_tracker_calls cycles m1 calls) as [m2 answers].
    cbn [fst snd] in *. destruct IH as (IHlen & IHmap & IHnone & IHsame & IHanswers).
    assert (Hm1 : forall id, default 0 (m1 !! id)
                             = default 0 (m !! id) + calls_for id [ch]).
    { intros id. subst m1. unfold calls_for. rewrite filter_cons, filter_nil. fold key.
      destruct (decide (key = id)) as [<- | Hne].
      - rewrite lookup_insert_eq. cbn. lia.
      - rewrite lookup_insert_ne by assumption. cbn. lia. }
    assert (Hcons : forall id l, calls_for id (ch :: l) = calls_for id [ch] + calls_for id l).
    { intros id l. unfold calls_for. rewrite !filter_cons, filter_nil.
      destruct (decide _); cbn [length]; lia. }
    assert (Hnonneg : forall id l, 0 <= calls_for id l) by (intros; unfold calls_for; lia).
    split; [cbn; now rewrite IHlen|]. split; [|split; [|split]].
    + intros id. rewrite IHmap, Hm1, (Hcons id calls). lia.
    + intros id Hnone. destruct (IHnone id Hnone) as [Hm1none Hzero].
      subst m1. destruct (decide (key = id)) as [<- | Hne].
      * rewrite lookup_insert_eq in Hm1none. discriminate.
      * rewrite lookup_insert_ne in Hm1none by assumption. split; [assumption|].
        rewrite (Hcons id calls), Hzero. unfold calls_for. rewrite filter_cons, filter_nil. fold key.
        now rewrite decide_False by assumption.
    + intros id Hzero. rewrite (Hcons id calls) in Hzero.
      pose proof (Hnonneg id [ch]). pose proof (Hnonneg id calls).
      rewrite IHsame by lia. subst m1.
      destruct (decide (key = id)) as [<- | Hne]; [|now rewrite lookup_insert_ne].
      exfalso. assert (calls_for key [ch] = 1); [|lia].
      unfold calls_for. rewrite filter_cons, filter_nil. fold key.
      now rewrite decide_True by reflexivity.
    + intros k character Hk. destruct k as [|k].
      * cbn in Hk. injection Hk as <-. cbn [lookup list_lookup take]. fold key.
        rewrite Hm1. reflexivity.
      * cbn in Hk.
        match goal with
        | |- (?b :: answers) !! S k = _ => change ((b :: answers) !! S k) with (answers !! k)
        end.
        rewrite (IHanswers k character Hk).
        cbn [take]. rewrite Hm1, (Hcons _ (take (S k) calls)). do 3 f_equal. lia.
Qed.

(** X18: [loop_tracker] counts, for each character, the times its gradient
    scene has completed, and starts the scene again at the completion
    number [c] exactly when [cycles] is 0 or [c < cycles]: with [cycles]
    at 1 or more the scene of a character runs [cycles] times, with 0 it
    runs on. *)
Theorem loop_tracker_counts_cycles (cycles : Z) (calls : list EffectCharacter.t) :
  let r := loop_tracker_calls cycles ∅ calls in
  length r.2 = length calls /\
  (forall character, character ∈ calls ->
     r.1 !! EffectCharacter.character_id character
     = Some (calls_for (EffectCharacter.character_id character) calls)) /\
  (forall id, calls_for id calls = 0 -> r.1 !! id = None) /\
  forall (k : nat) (character : EffectCharacter.t),
    calls !! k = Some character ->
    r.2 !! k
    = Some ((cycles =? 0)
            || (calls_for (EffectCharacter.character_id character) (take (S k) calls)
                <? cycles)).
Proof.
  destruct (loop_tracker_calls_from cycles calls ∅)
    as (Hlen & Hmap & Hnone & Hsame & Hanswers).
  cbn zeta in *. split; [assumption|]. split; [|split].
  - intros character Hin.
    specialize (Hmap (EffectCharacter.character_id character)).
    rewrite lookup_empty in Hmap. cbn [default] in Hmap.
    destruct (_ !! EffectCharacter.character_id character) as [count|] eqn:Hcount.
    + cbn in Hmap. now rewrite Hmap.
    + exfalso. destruct (Hnone _ Hcount) as [_ Hzero].
      unfold calls_for in Hzero.
      assert (Hmem : character ∈ filter (fun c => EffectCharacter.character_id c
                                                  = EffectCharacter.character_id character)
                                        calls)
        by (apply list_elem_of_filter; now split).
      destruct (filter _ calls); [inversion Hmem | cbn in Hzero; lia].
  - intros id Hzero. now rewrite Hsame.
  - intros k character Hk. rewrite (Hanswers k character Hk).
    rewrite lookup_empty. cbn [default]. reflexivity.
Qed.

(** ** The canvas and the requested size *)

Lemma wrap_lines_within_width (self : Terminal.t) (lines : list string) :
  forall wrapped,
  Terminal._wrap_lines self lines = Returned wrapped ->
  Forall (fun line => Py.len line <= Terminal._width self) wrapped.
Proof.
  induction lines as [|line lines IH]; intros wrapped H; cbn [Terminal._wrap_lines] in H.
  - injection H as <-. constructor.
  - destruct (Terminal.wrap_while _ _ line) as [pieces| |] eqn:Hpieces;
      cbn [obind] in H; try discriminate.
    destruct (Terminal._wrap_lines self lines) as [rest| |]; cbn [obind] in H;
      try discriminate.
    injection H as <-. apply Forall_app. split; [|now apply IH].
    now apply wrap_while_pieces in Hpieces as (_ & Hall & _).
Qed.

(** Wrapped or cut, no formatted line is longer than the width. *)
Lemma format_lines_within_width (self : Terminal.t) (lines : list string) :
  Terminal.format_lines self = Returned lines ->
  TerminalConfig.wrap_text (Terminal.config self) = true \/ 0 <= Terminal._width self ->
  Forall (fun line => Py.len line <= Terminal._width self) lines.
Proof.
  unfold Terminal.format_lines. intros H Hw.
  destruct (TerminalConfig.wrap_text _).
  - now apply wrap_lines_within_width in H.
  - destruct Hw as [|Hw]; [discriminate|]. injection H as <-.
    apply Forall_forall. intros line Hline.
    apply list_elem_of_In, in_map_iff in Hline as (l & <- & _).
    rewrite len_slice_to. destruct (Z.ltb_spec (Terminal._width self) 0); unfold Py.len; lia.
Qed.

Lemma get_lt (s : string) : forall (j : nat) (g : ascii),
  String.get j s = Some g -> (j < String.length s)%nat.
Proof.
  induction s as [|c s IH]; intros j g H; [destruct j; discriminate|].
  destruct j as [|j]; cbn in *; [lia|]. apply IH in H. lia.
Qed.

(** X19: when the text is wrapped or the width is not negative, the canvas
    the constructor makes is no wider than the width it settled on and no
    higher than the height it settled on (or than 1, if that is less), and
    so is every input and fill character's place. *)
Theorem canvas_within_requested_size (input_data : string) (cfg : option TerminalConfig.t)
    (detected : Z * Z) (self0 t : Terminal.t) :
  Terminal.init_attributes input_data cfg detected = Returned self0 ->
  Terminal.init input_data cfg detected = Returned t ->
  TerminalConfig.wrap_text (Terminal.config self0) = true \/ 0 <= Terminal._width self0 ->
  Canvas.right (Terminal.canvas t) <= Terminal._width self0 /\
  Canvas.top (Terminal.canvas t) <= Z.max (Terminal._height self0) 1 /\
  forall ch, ch ∈ Terminal._input_characters t ++ Terminal._fill_characters t ->
    column (EffectCharacter.input_coord ch) <= Terminal._width self0 /\
    row (EffectCharacter.input_coord ch) <= Z.max (Terminal._height self0) 1.
Proof.
  intros Hattr Hinit Hw.
  destruct (init_inv _ _ _ _ Hinit) as (self0' & cs & self1 & Hattr' & Hdec & Hreg).
  rewrite Hattr in Hattr'. injection Hattr' as <-.
  destruct (decompose_input_inv _ _ _ _ _ Hdec) as (lines & Hlines & Hcs & _).
  cbn zeta in Hcs.
  destruct (decompose_input_characters _ _ _ _ _ Hdec) as (Hpos & _ & _ & _ & Hheight & _).
  destruct (constructed_canvas cs self1 t Hpos Hreg)
    as (iw & ih & Hiw & _ & _ & _ & _ & _ & Hheight' & Hcv).
  destruct (substitute_blank_input_keeps self0) as (_ & Hwidth & Hconfig & _).
  assert (Hfit : Forall (fun line => Py.len line <= Terminal._width self0) lines).
  { rewrite <- Hwidth. apply format_lines_within_width; [assumption|].
    now rewrite Hconfig, Hwidth. }
  assert (Hright : Canvas.right (Terminal.canvas t) <= Terminal._width self0).
  { rewrite Hcv. cbn.
    pose proof (max_spec (map (fun ch => column (EffectCharacter.input_coord ch)) cs)) as Hmax.
    rewrite Hiw in Hmax. destruct Hmax as [Hmax _].
    apply list_elem_of_fmap in Hmax as (ch & -> & Hch). rewrite Hcs in Hch.
    apply decompose_lines_sound in Hch as (i & j & g & Hg & _ & _ & ->). cbn [column].
    unfold glyph_at in Hg. destruct (lines !! i) as [line|] eqn:Hline; [|discriminate].
    apply get_lt in Hg. eapply Forall_lookup_1 in Hfit; [|exact Hline].
    unfold Py.len in Hfit. lia. }
  assert (Htop : Canvas.top (Terminal.canvas t) <= Z.max (Terminal._height self0) 1).
  { rewrite Hcv. cbn. rewrite Hheight', Hheight. lia. }
  split; [assumption|]. split; [assumption|].
  intros ch Hch. apply (init_characters_in_canvas _ _ _ _ _ Hinit) in Hch.
  apply coord_is_in_canvas_spec in Hch. lia.
Qed.

Lemma canvas_within_requested_size_witness :
  exists self0 t,
    Terminal.init_attributes example_input
      (Some (TerminalConfig.mk 4 false false false 1 1 false)) (80, 24) = Returned self0 /\
    Terminal.init example_input
      (Some (TerminalConfig.mk 4 false false false 1 1 false)) (80, 24) = Returned t /\
    Canvas.right (Terminal.canvas t) <= 1 /\ Canvas.top (Terminal.canvas t) <= 1.
Proof.
  eexists. eexists.
  match goal with
  | |- ?A /\ ?B /\ _ =>
      assert (H0 : A) by (vm_compute; reflexivity);
      assert (Hinit : B) by (vm_compute; reflexivity)
  end.
  split; [exact H0|]. split; [exact Hinit|].
  destruct (canvas_within_requested_size _ _ _ _ _ H0 Hinit) as (Hright & Htop & _).
  - right. cbn. lia.
  - split; [exact Hright | exact Htop].
Defined.

(** ** A blank input *)

Section BlankInput.

Variables (input_data : string) (cfg : option TerminalConfig.t) (detected : Z * Z).
Variable self0 : Terminal.t.

Hypothesis Hattr : Terminal.init_attributes input_data cfg detected = Returned self0.
Hypothesis Hblank : Py.strip (Terminal._input_data self0) = EmptyString.
Hypothesis Hwidth : 9 <= Terminal._width self0.

Lemma blank_input_lines :
  Terminal.format_lines (Terminal.substitute_blank_input self0) = Returned ["No Input."].
Proof.
  unfold Terminal.substitute_blank_input. rewrite decide_True by exact Hblank.
  unfold Terminal.format_lines. cbn [Terminal._input_data Terminal.set__input_data
    Terminal.config Terminal._width].
  change (Py.splitlines "No Input.") with ["No Input."].
  destruct (TerminalConfig.wrap_text _).
  - cbn [Terminal._wrap_lines Terminal.wrap_while String.length Terminal._width
         Terminal.set__input_data].
    destruct (Z.ltb_spec (Terminal._width self0) (Py.len "No Input.")) as [Hlt|_];
      [unfold Py.len in Hlt; cbn in Hlt; lia | reflexivity].
  - cbn [map]. rewrite slice_to_all; [reflexivity|]. unfold Py.len. cbn. lia.
Qed.

Lemma blank_input_characters (x n : bool) :
  Terminal.decompose_lines x n 1 0 ["No Input."] 0
  = (map (EffectCharacter.set_color_flags x n)
         [EffectCharacter.init 0 "N" 1 1; EffectCharacter.init 1 "o" 2 1;
          EffectCharacter.init 2 "I" 4 1; EffectCharacter.init 3 "n" 5 1;
          EffectCharacter.init 4 "p" 6 1; EffectCharacter.init 5 "u" 7 1;
          EffectCharacter.init 6 "t" 8 1; EffectCharacter.init 7 "." 9 1], 8).
Proof. destruct x, n; reflexivity. Qed.

Lemma blank_input_terminal :
  exists t,
    Terminal.init input_data cfg detected = Returned t /\
    Canvas.top (Terminal.canvas t) = 1 /\
    Canvas.right (Terminal.canvas t) = 9 /\
    map input_at (Terminal._input_characters t)
    = [("N", mkCoord 1 1); ("o", mkCoord 2 1); ("I", mkCoord 4 1); ("n", mkCoord 5 1);
       ("p", mkCoord 6 1); ("u", mkCoord 7 1); ("t", mkCoord 8 1); (".", mkCoord 9 1)].
Proof.
  destruct (init_attributes_spec _ _ _ _ Hattr) as (Hzero & _).
  destruct (substitute_blank_input_keeps self0) as (_ & _ & Hconfig & Hnext).
  set (x := TerminalConfig.xterm_colors (Terminal.config self0)).
  set (n := TerminalConfig.no_color (Terminal.config self0)).
  pose proof (blank_input_characters x n) as Hcs.
  set (cs := map (EffectCharacter.set_color_flags x n) _) in Hcs.
  assert (Hdec : Terminal._decompose_input x n self0
                 = Returned (cs, Terminal.set__next_character_id 8
                                   (Terminal.substitute_blank_input self0))).
  { unfold Terminal._decompose_input. rewrite blank_input_lines. cbn [obind length].
    rewrite Hnext, Hzero.
    change (Z.of_nat 1) with 1. now rewrite Hcs. }
  destruct (init_registry_returns cs
              (Terminal.set__next_character_id 8 (Terminal.substitute_blank_input self0)))
    as [t Hreg]; [discriminate|].
  exists t.
  assert (Hinit : Terminal.init input_data cfg detected = Returned t).
  { unfold Terminal.init. rewrite Hattr. cbn [obind]. fold x n. rewrite Hdec. exact Hreg. }
  split; [assumption|].
  destruct (init_registry_spec _ _ _ Hreg) as (iw & ih & Hiw & Hih & Hspec).
  cbn zeta in Hspec. destruct Hspec as (Hcv & Hkept & _).
  assert (iw = 9) as -> by (destruct x, n; vm_compute in Hiw; congruence).
  assert (ih = 1) as -> by (destruct x, n; vm_compute in Hih; congruence).
  assert (Htop : Canvas.top (Terminal.canvas t) = 1) by (rewrite Hcv; cbn; lia).
  assert (Hright : Canvas.right (Terminal.canvas t) = 9) by (rewrite Hcv; reflexivity).
  split; [assumption|]. split; [assumption|].
  rewrite Hkept, <- Hcv.
  assert (Hall : filter (fits (Terminal.canvas t)) cs = cs).
  { subst cs. cbn [map].
    repeat (rewrite filter_cons_True by (unfold fits; rewrite Htop, Hright; cbn; lia)).
    reflexivity. }
  rewrite Hall. subst cs. reflexivity.
Qed.

End BlankInput.

(** X20: an input that is not empty but blank (spaces, tabs, line ends)
    gives way to the placeholder.  On a width of 9 or more the constructor
    returns a canvas of one row and nine columns whose input characters
    are the eight letters of ["No Input."] at columns 1, 2 and 4 to 9; and
    once these are visible where the input put them,
    [get_formatted_output_string] returns ["No Input."]. *)
Theorem blank_input_shows_placeholder (input_data : string) (cfg : option TerminalConfig.t)
    (detected : Z * Z) (self0 : Terminal.t) :
  Terminal.init_attributes input_data cfg detected = Returned self0 ->
  Py.strip (Terminal._input_data self0) = EmptyString ->
  9 <= Terminal._width self0 ->
  exists t,
    Terminal.init input_data cfg detected = Returned t /\
    Canvas.top (Terminal.canvas t) = 1 /\
    Canvas.right (Terminal.canvas t) = 9 /\
    map input_at (Terminal._input_characters t)
    = [("N", mkCoord 1 1); ("o", mkCoord 2 1); ("I", mkCoord 4 1); ("n", mkCoord 5 1);
       ("p", mkCoord 6 1); ("u", mkCoord 7 1); ("t", mkCoord 8 1); (".", mkCoord 9 1)] /\
    forall t',
      Terminal.canvas t' = Terminal.canvas t ->
      Permutation (map shown_at (Terminal._visible_characters t'))
                  (map input_at (Terminal._input_characters t)) ->
      (Terminal.get_formatted_output_string t').1 = "No Input.".
Proof.
  intros Hattr Hblank Hwidth.
  destruct (blank_input_terminal _ _ _ _ Hattr Hblank Hwidth)
    as (t & Hinit & Htop & Hright & Hinput).
  exists t. split; [assumption|]. split; [assumption|]. split; [assumption|].
  split; [assumption|].
  intros t' Hcanvas Hshown.
  rewrite (shown_input_output _ _ _ _ _ _ Hattr
             (blank_input_lines _ Hblank Hwidth) Hinit t' Hcanvas Hshown).
  rewrite Htop, Hright. reflexivity.
Qed.

Lemma blank_input_shows_placeholder_witness :
  exists t,
    Terminal.init (" " +:+ String Py.LF (String Py.TAB " ")) None (80, 24) = Returned t /\
    Canvas.top (Terminal.canvas t) = 1 /\
    Canvas.right (Terminal.canvas t) = 9 /\
    (Terminal.get_formatted_output_string
       (Terminal.set__visible_characters (Terminal._input_characters t) t)).1 = "No Input.".
Proof.
  destruct (blank_input_shows_placeholder (" " +:+ String Py.LF (String Py.TAB " ")) None
              (80, 24)
              (Terminal.mk TerminalConfig.default
                 (" " +:+ String Py.LF "     ") (80, 24)
                 80 24 0 [] [] 0 0 (Canvas.init_default 0 0) ∅ [] [] []))
    as (t & Hinit & Htop & Hright & Hinput & Hshown).
  - reflexivity.
  - reflexivity.
  - cbn. lia.
  - exists t. split; [assumption|]. split; [assumption|]. split; [assumption|].
    apply Hshown; [reflexivity|].
    cbn [Terminal._visible_characters Terminal.set__visible_characters].
    apply Permutation_refl'. apply map_ext_in. intros ch Hch.
    unfold shown_at, input_at. f_equal.
    apply (init_fresh _ _ _ _ Hinit). now apply list_elem_of_In.
Defined.
